(** * The face-reading analysis endpoint

    A shallow embedding of [src/app/api/face-reading/route.ts] (the variant
    with the age classifier): the sliding-window rate limiter, the
    content-addressed cache, the three upstream adapters, the fallback
    templates and the response normalization of the [POST] handler.

    The handler works on values that come out of [JSON.parse], so the
    embedding keeps them untyped ([jsval]) and gives property reads, optional
    chaining, [??], truthiness and method calls their JavaScript meaning,
    including the [TypeError] they raise.  Code that can throw lives in the
    error monad [res]; the two process-wide maps are threaded explicitly. *)

From Stdlib Require Import ZArith QArith Qround List String Ascii Bool Lia Lqa Permutation.
From stdpp Require Import base gmap strings pretty.

Close Scope Q_scope.

(** ** JavaScript values and their primitive operations *)

Module Js.

(** Exceptions.  The handlers of this program never inspect the class of an
    error, only (at the top level) its message. *)
Inductive exn : Type :=
| TypeError
| SyntaxError
| NetworkError
| Error (message : string).

Inductive res (A : Type) : Type :=
| Ok (a : A)
| Throw (e : exn).
Arguments Ok {A} a.
Arguments Throw {A} e.

Definition bind {A B : Type} (m : res A) (k : A -> res B) : res B :=
  match m with
  | Ok a => k a
  | Throw e => Throw e
  end.

Notation "x <- m ;; k" := (bind m (fun x => k))
  (at level 100, m at next level, right associativity).

(** [try { m } catch { handler }] *)
Definition try_catch {A : Type} (m : res A) (handler : exn -> res A) : res A :=
  match m with
  | Ok a => Ok a
  | Throw e => handler e
  end.

Definition returns {A : Type} (m : res A) : Prop := exists a, m = Ok a.
Definition throws {A : Type} (m : res A) : Prop := exists e, m = Throw e.

Fixpoint map_res {A B : Type} (f : A -> res B) (l : list A) : res (list B) :=
  match l with
  | [] => Ok []
  | x :: rest => y <- f x ;; ys <- map_res f rest ;; Ok (y :: ys)
  end.

(** Numbers.  Finite values are exact rationals: rounding to the nearest
    binary64 value is not modelled, overflow is.  [JSON.parse] can produce
    an infinity (["1e999"]), and so can arithmetic on finite values. *)
Inductive jsnum : Type :=
| Finite (q : Q)
| PosInfinity
| NegInfinity
| NaN.

(** The least magnitude that binary64 rounds to an infinity. *)
Definition overflow_bound : Z := 2 ^ 1024 - 2 ^ 970.

(** The result of an operation whose exact value is [q]: an infinity from
    [overflow_bound] on (the comparisons have the denominator of [q]
    multiplied out). *)
Definition finite_result (q : Q) : jsnum :=
  if (Zpos (Qden q) * overflow_bound <=? Qnum q)%Z then PosInfinity
  else if (Qnum q <=? - (Zpos (Qden q) * overflow_bound))%Z then NegInfinity
  else Finite q.

Definition of_Z (z : Z) : jsnum := Finite (inject_Z z).

Definition isFinite (n : jsnum) : bool :=
  match n with Finite _ => true | _ => false end.

Definition isNaN (n : jsnum) : bool :=
  match n with NaN => true | _ => false end.

(** Sign of a number: [None] for NaN. *)
Definition num_sign (n : jsnum) : option comparison :=
  match n with
  | Finite q => Some (q ?= 0)%Q
  | PosInfinity => Some Gt
  | NegInfinity => Some Lt
  | NaN => None
  end.

Definition num_neg (n : jsnum) : jsnum :=
  match n with
  | Finite q => Finite (- q)%Q
  | PosInfinity => NegInfinity
  | NegInfinity => PosInfinity
  | NaN => NaN
  end.

Definition num_add (a b : jsnum) : jsnum :=
  match a, b with
  | NaN, _ | _, NaN => NaN
  | Finite x, Finite y => finite_result (x + y)%Q
  | PosInfinity, NegInfinity | NegInfinity, PosInfinity => NaN
  | PosInfinity, _ | _, PosInfinity => PosInfinity
  | NegInfinity, _ | _, NegInfinity => NegInfinity
  end.

Definition num_sub (a b : jsnum) : jsnum := num_add a (num_neg b).

Definition signed_infinity (sa sb : comparison) : jsnum :=
  match sa, sb with
  | Eq, _ | _, Eq => NaN
  | Gt, Gt | Lt, Lt => PosInfinity
  | _, _ => NegInfinity
  end.

Definition num_mul (a b : jsnum) : jsnum :=
  match a, b with
  | Finite x, Finite y => finite_result (x * y)%Q
  | _, _ =>
      match num_sign a, num_sign b with
      | Some sa, Some sb => signed_infinity sa sb
      | _, _ => NaN
      end
  end.

Definition num_div (a b : jsnum) : jsnum :=
  match a, b with
  | NaN, _ | _, NaN => NaN
  | Finite x, Finite y =>
      if Qeq_bool y 0 then signed_infinity (x ?= 0)%Q Gt else finite_result (x / y)%Q
  | Finite _, _ => Finite 0
  | _, Finite y =>
      match num_sign a with
      | Some sa => if Qeq_bool y 0 then a else signed_infinity sa (y ?= 0)%Q
      | None => NaN
      end
  | _, _ => NaN
  end.

(** [a < b]; false as soon as one side is NaN. *)
Definition num_lt (a b : jsnum) : bool :=
  match a, b with
  | NaN, _ | _, NaN => false
  | Finite x, Finite y => match (x ?= y)%Q with Lt => true | _ => false end
  | NegInfinity, NegInfinity => false
  | NegInfinity, _ => true
  | _, PosInfinity => match a with PosInfinity => false | _ => true end
  | _, _ => false
  end.

Definition Math_min (a b : jsnum) : jsnum :=
  match a, b with
  | NaN, _ | _, NaN => NaN
  | _, _ => if num_lt b a then b else a
  end.

Definition Math_max (a b : jsnum) : jsnum :=
  match a, b with
  | NaN, _ | _, NaN => NaN
  | _, _ => if num_lt a b then b else a
  end.

(** [Math.round]: the nearest integer, halves towards plus infinity. *)
Definition Math_round (n : jsnum) : jsnum :=
  match n with
  | Finite q => of_Z (Qfloor (q + (1 # 2))%Q)
  | _ => n
  end.

(** [Math.max(0, Math.min(1, n))] *)
Definition clamp01 (n : jsnum) : jsnum :=
  Math_max (of_Z 0) (Math_min (of_Z 1) n).

(** Values.  [JHost] stands for an object of the runtime itself (a built-in
    function, [Object.prototype]) reached through the prototype chain; it is
    not null and has none of the properties this program reads. *)
#[local] Unset Elimination Schemes.
Inductive jsval : Type :=
| JUndefined
| JNull
| JBool (b : bool)
| JNum (n : jsnum)
| JStr (s : string)
| JArr (items : list jsval)
| JObj (fields : list (string * jsval))
| JHost.
#[local] Set Elimination Schemes.

Fixpoint assoc {A : Type} (k : string) (l : list (string * A)) : option A :=
  match l with
  | [] => None
  | (k', a) :: rest => if String.eqb k k' then Some a else assoc k rest
  end.

(** [Boolean(v)] *)
Definition truthy (v : jsval) : bool :=
  match v with
  | JUndefined | JNull => false
  | JBool b => b
  | JNum (Finite q) => negb (Qeq_bool q 0)
  | JNum NaN => false
  | JNum _ => true
  | JStr s => negb (String.eqb s "")
  | JArr _ | JObj _ | JHost => true
  end.

Definition nullish (v : jsval) : bool :=
  match v with
  | JUndefined | JNull => true
  | _ => false
  end.

(** [v ?? d] *)
Definition coalesce (v d : jsval) : jsval := if nullish v then d else v.

(** [v.k].  The property names read by this program are own data
    properties of parsed JSON objects only: on a primitive, an array or a
    runtime object they read as [undefined]; on null and undefined the read
    raises. *)
Definition get (v : jsval) (k : string) : res jsval :=
  match v with
  | JUndefined | JNull => Throw TypeError
  | JObj fields => Ok (default JUndefined (assoc k fields))
  | _ => Ok JUndefined
  end.

(** [v?.k] *)
Definition get_opt (v : jsval) (k : string) : jsval :=
  match v with
  | JObj fields => default JUndefined (assoc k fields)
  | _ => JUndefined
  end.

(** [Array.isArray(v)] *)
Definition isArray (v : jsval) : bool :=
  match v with JArr _ => true | _ => false end.

(** The receiver of an array method ([.map], [.filter], [.sort]): anything
    that is not an array has no such method and the call raises. *)
Definition array_receiver (v : jsval) : res (list jsval) :=
  match v with
  | JArr items => Ok items
  | _ => Throw TypeError
  end.

(** Strings are byte strings; case mapping and whitespace are the ASCII
    ones. *)
Definition upper_char (c : ascii) : ascii :=
  let n := nat_of_ascii c in
  if (97 <=? n)%nat && (n <=? 122)%nat then ascii_of_nat (n - 32) else c.

Definition lower_char (c : ascii) : ascii :=
  let n := nat_of_ascii c in
  if (65 <=? n)%nat && (n <=? 90)%nat then ascii_of_nat (n + 32) else c.

Fixpoint map_string (f : ascii -> ascii) (s : string) : string :=
  match s with
  | EmptyString => EmptyString
  | String c rest => String (f c) (map_string f rest)
  end.

Definition toUpperCase (s : string) : string := map_string upper_char s.
Definition toLowerCase (s : string) : string := map_string lower_char s.

Fixpoint trimStart (s : string) : string :=
  match s with
  | EmptyString => EmptyString
  | String c rest => if Ascii.is_space c then trimStart rest else s
  end.

Fixpoint string_rev_onto (s acc : string) : string :=
  match s with
  | EmptyString => acc
  | String c rest => string_rev_onto rest (String c acc)
  end.

Definition string_rev (s : string) : string := string_rev_onto s EmptyString.

Definition trimEnd (s : string) : string := string_rev (trimStart (string_rev s)).

Definition trim (s : string) : string := trimEnd (trimStart s).

(** [v.trim()] *)
Definition call_trim (v : jsval) : res string :=
  match v with
  | JStr s => Ok (trim s)
  | _ => Throw TypeError
  end.

(** [v?.trim()] *)
Definition call_trim_opt (v : jsval) : res jsval :=
  if nullish v then Ok JUndefined else s <- call_trim v ;; Ok (JStr s).

(** [s.split(sep)] for a one-character separator. *)
Fixpoint split_on (sep : ascii) (s : string) : list string :=
  match s with
  | EmptyString => [EmptyString]
  | String c rest =>
      if Ascii.eqb c sep then EmptyString :: split_on sep rest
      else match split_on sep rest with
           | [] => [String c EmptyString]
           | seg :: segs => String c seg :: segs
           end
  end.

(** [s.includes(c)] for a one-character needle. *)
Fixpoint includes_char (c : ascii) (s : string) : bool :=
  match s with
  | EmptyString => false
  | String c' rest => Ascii.eqb c' c || includes_char c rest
  end.

Fixpoint is_prefix (p s : string) : bool :=
  match p, s with
  | EmptyString, _ => true
  | String a p', String b s' => Ascii.eqb a b && is_prefix p' s'
  | String _ _, EmptyString => false
  end.

(** [s.slice(0, n)] *)
Fixpoint slice_to (n : nat) (s : string) : string :=
  match n, s with
  | S n', String c rest => String c (slice_to n' rest)
  | _, _ => EmptyString
  end.

End Js.

Import Js.

(** ** Built-ins of the runtime

    The algorithms of the host that the program calls but does not define.
    Everything below is parametric in them. *)
Class Runtime : Type := {
  (** [JSON.parse]; [None] is a [SyntaxError]. *)
  JSON_parse : string -> option jsval;
  (** [createHash("sha256").update(s).digest("hex")] *)
  sha256_hex : string -> string;
  (** [String(n)] and a number inside a template literal *)
  Number_toString : jsnum -> string;
  (** [n.toFixed(digits)] *)
  Number_toFixed : nat -> jsnum -> string;
  (** [Number(s)] on a string *)
  StringToNumber : string -> jsnum;
  (** [Number(v)] and [String(v)] on an array or an object; they go through
      [valueOf]/[toString] and may raise. *)
  ObjectToNumber : jsval -> res jsnum;
  ObjectToString : jsval -> res string
}.

(** [Number(v)] *)
Definition js_Number `{Runtime} (v : jsval) : res jsnum :=
  match v with
  | JUndefined => Ok NaN
  | JNull => Ok (of_Z 0)
  | JBool b => Ok (of_Z (if b then 1 else 0))
  | JNum n => Ok n
  | JStr s => Ok (StringToNumber s)
  | JArr _ | JObj _ | JHost => ObjectToNumber v
  end.

(** [String(v)] *)
Definition js_String `{Runtime} (v : jsval) : res string :=
  match v with
  | JUndefined => Ok "undefined"
  | JNull => Ok "null"
  | JBool b => Ok (if b then "true" else "false")
  | JNum n => Ok (Number_toString n)
  | JStr s => Ok s
  | JArr _ | JObj _ | JHost => ObjectToString v
  end.

(** [table[key]] on an object literal: an own entry, or a member inherited
    from [Object.prototype] (a function or the prototype object, never
    nullish), or [undefined]. *)
Inductive lookup (A : Type) : Type :=
| Own (a : A)
| Inherited
| Absent.
Arguments Own {A} a.
Arguments Inherited {A}.
Arguments Absent {A}.

Definition Object_prototype_keys : list string :=
  [ "constructor"; "__proto__"; "hasOwnProperty"; "isPrototypeOf";
    "propertyIsEnumerable"; "toLocaleString"; "toString"; "valueOf";
    "__defineGetter__"; "__defineSetter__"; "__lookupGetter__";
    "__lookupSetter__" ].

Definition record_get {A : Type} (table : list (string * A)) (key : string)
  : lookup A :=
  match assoc key table with
  | Some a => Own a
  | None =>
      if existsb (String.eqb key) Object_prototype_keys then Inherited
      else Absent
  end.

(** [s.match(/\d+/g)]: the maximal runs of decimal digits, left to right. *)
Definition is_digit (c : ascii) : bool :=
  match Ascii.is_nat c with Some _ => true | None => false end.

Fixpoint digit_runs_from (s : string) (run : string) : list string :=
  match s with
  | EmptyString =>
      match run with EmptyString => [] | _ => [string_rev run] end
  | String c rest =>
      if is_digit c then digit_runs_from rest (String c run)
      else match run with
           | EmptyString => digit_runs_from rest EmptyString
           | _ => string_rev run :: digit_runs_from rest EmptyString
           end
  end.

Definition digit_runs (s : string) : list string :=
  digit_runs_from s EmptyString.

Fixpoint decimal_value (s : string) (acc : Z) : Z :=
  match s with
  | EmptyString => acc
  | String c rest =>
      match Ascii.is_nat c with
      | Some d => decimal_value rest (10 * acc + Z.of_nat d)
      | None => acc
      end
  end.

(** [Number(s)] on a run of digits: its value, or [Infinity] from the point
    where binary64 overflows.  Below that point the model keeps the exact
    integer where JavaScript rounds to the nearest double. *)
Definition Number_of_digits (s : string) : jsnum :=
  let z := decimal_value s 0 in
  if (z <? 2 ^ 1024 - 2 ^ 970)%Z then of_Z z else PosInfinity.

(** ** Data model *)

Inductive MajorCode : Type := RPL | DKV | TKJ.

Global Instance MajorCode_eq_dec : EqDecision MajorCode.
Proof. solve_decision. Defined.

(** [Object.keys(MAJOR_LABELS)] *)
Definition MAJOR_CODES : list MajorCode := [RPL; DKV; TKJ].

Definition major_key (code : MajorCode) : string :=
  match code with RPL => "RPL" | DKV => "DKV" | TKJ => "TKJ" end.

Inductive Indicator : Type := strength | opportunity | warning.

Definition indicator_key (i : Indicator) : string :=
  match i with
  | strength => "strength"
  | opportunity => "opportunity"
  | warning => "warning"
  end.

(** A static manifesting point is an object literal. *)
Definition createPoint (indicator : Indicator) (title description : string)
  : jsval :=
  JObj [ ("indicator", JStr (indicator_key indicator));
         ("title", JStr title);
         ("description", JStr description) ].

Record ExpressionInsight : Type := {
  ex_narrative : jsval;
  ex_confidence : jsnum;
  ex_label : string
}.

Record AgeRange : Type := {
  range_min : option jsnum;
  range_max : option jsnum
}.

Record AgeInsight : Type := {
  age_label : string;
  age_confidence : jsnum;
  age_estimated : option jsnum;
  age_range : AgeRange;
  age_headline : string;
  age_narrative : string
}.

Record MajorFocus : Type := {
  focus_langkah : string;
  focus_kebiasaan : list string
}.

Record StageDescriptor : Type := {
  stage_max : jsnum;
  stage_label : string;
  stage_narrative : string;
  stage_prompt : string
}.

Record AgePreset : Type := {
  preset_range : AgeRange;
  preset_estimated : jsnum;
  preset_confidence : jsnum;
  preset_label : string
}.

Record FallbackTemplate : Type := {
  energyTone : string;
  personality : string;
  major : MajorCode;
  karir : list jsval;
  masaDepan : list jsval;
  alasan : option (list jsval);
  langkah : option string;
  kebiasaan : option (list string);
  alternatifNotes : option (list (string * string));
  confidenceModifier : option jsnum
}.

(** The response document. *)
Record Point : Type := {
  title : string;
  description : string;
  indicator : jsval
}.

Record ExpressionSummary : Type := {
  headline : jsval;
  summary_energyTone : jsval;
  personalityHighlight : jsval;
  confidence : jsnum;
  baseLabel : string;
  baseConfidence : jsnum
}.

Record Manifesting : Type := {
  pekerjaanKarir : list Point;
  manifesting_masaDepan : list Point
}.

Record Utama : Type := {
  kode : MajorCode;
  nama : string;
  utama_alasan : list Point;
  langkahFokus : string;
  kebiasaanPendukung : list string
}.

Record Alternatif : Type := {
  alt_kode : MajorCode;
  alt_nama : string;
  catatan : string
}.

Record Rekomendasi : Type := {
  utama : Utama;
  alternatif : list Alternatif
}.

Inductive Source : Type := ai | fallback.

Record Meta : Type := {
  source : Source;
  cached : option bool
}.

Record AnalysisPayload : Type := {
  expression : ExpressionSummary;
  age : AgeInsight;
  manifesting : Manifesting;
  rekomendasiJurusan : Rekomendasi;
  meta : Meta
}.

(** ** Constants *)

Definition RATE_LIMIT_WINDOW_MS : Z := 60000.
Definition RATE_LIMIT_MAX : nat := 6.
Definition CACHE_TTL_MS : Z := 10 * 60 * 1000.

Definition EXPRESSION_LABELS : list (string * string) :=
  [ ("neutral",
     "Wajah tampak netral dan tenang.");
    ("happiness",
     "Ekspresi bahagia mendominasi, menunjukkan energi positif dan terbuka.");
    ("surprise",
     "Ada unsur terkejut atau rasa kagum yang kuat.");
    ("sadness",
     "Ekspresi sedih terlihat, perlunya dukungan emosional.");
    ("anger",
     "Wajah menunjukkan ketegasan dan fokus tinggi, mungkin ada sedikit ketegangan.");
    ("disgust",
     "Ekspresi kurang nyaman atau ada hal yang membuat kurang sreg.");
    ("fear",
     "Ada sinyal kehati-hatian tinggi atau keraguan yang perlu ditenangkan.");
    ("contempt",
     "Ekspresi kritis, menggambarkan standar tinggi terhadap diri atau sekitar.") ].

Definition DEFAULT_EXPRESSION : string :=
  "Ekspresi wajah tampak netral dan tenang; AI menganggapmu menjaga emosi tetap seimbang.".

Definition MAJOR_LABELS (code : MajorCode) : string :=
  match code with
  | RPL => "Rekayasa Perangkat Lunak"
  | DKV => "Desain Komunikasi Visual"
  | TKJ => "Teknik Komputer dan Jaringan"
  end.

Definition DEFAULT_MAJOR_NOTES (code : MajorCode) : string :=
  match code with
  | RPL =>
      "Cocok untuk pemikir analitis yang senang membangun solusi digital."
  | DKV =>
      "Selaras bagi yang ekspresif dan ingin menyalurkan kreativitas visual."
  | TKJ =>
      "Pas untuk pribadi teknis yang suka merakit dan menjaga sistem teknologi."
  end.

Definition DEFAULT_MAJOR_POINTS (code : MajorCode) : list jsval :=
  match code with
  | RPL =>
      [ createPoint strength
          "Logika terstruktur"
          "Mood yang stabil menandakan kemampuan menganalisis pola dan membangun solusi bertahap.";
        createPoint opportunity
          "Eksperimen digital"
          "Gunakan rasa ingin tahu untuk mencoba membuat aplikasi atau automasi sederhana." ]
  | DKV =>
      [ createPoint strength
          "Ekspresi kreatif"
          "Energi ekspresif cocok diterjemahkan menjadi karya visual dan storytelling kuat.";
        createPoint opportunity
          "Sensitivitas estetika"
          "Asah kepekaan warna dan komposisi lewat latihan visual harian." ]
  | TKJ =>
      [ createPoint strength
          "Ketekunan teknis"
          "Mood fokus menunjukkan ketelitian tinggi saat memecahkan masalah perangkat.";
        createPoint opportunity
          "Problem solving nyata"
          "Gunakan rasa penasaran untuk membongkar dan memahami cara kerja jaringan." ]
  end.

Definition DEFAULT_MAJOR_FOCUS (code : MajorCode) : MajorFocus :=
  match code with
  | RPL =>
      {| focus_langkah :=
           "Luangkan 30 menit per hari untuk latihan logika atau coding dasar di platform gratis.";
         focus_kebiasaan :=
           [ "Catat ide masalah yang ingin kamu pecahkan lalu coba terjemahkan ke konsep aplikasi.";
             "Ikut komunitas pemrograman pemula seminggu sekali untuk review kode sederhana." ] |}
  | DKV =>
      {| focus_langkah :=
           "Buat moodboard mingguan dari referensi visual untuk melatih rasa estetika.";
         focus_kebiasaan :=
           [ "Lakukan sketsa cepat 10 menit setiap hari dengan tema berbeda.";
             "Unggah karya ke media sosial atau forum desain untuk meminta umpan balik." ] |}
  | TKJ =>
      {| focus_langkah :=
           "Kerjakan proyek mini jaringan atau perakitan perangkat setiap pekan dan dokumentasikan prosesnya.";
         focus_kebiasaan :=
           [ "Tulis checklist troubleshooting setiap kali menemukan masalah teknis.";
             "Ikut kanal komunitas teknologi untuk berdiskusi minimal dua kali seminggu." ] |}
  end.

Definition AGE_STAGE_DESCRIPTORS : list StageDescriptor :=
  [ {| stage_max := of_Z 12;
       stage_label := "Pra-remaja";
       stage_narrative :=
         "Fokus pada kebiasaan belajar ringan, eksplorasi minat, dan pendampingan orang tua agar tetap menyenangkan.";
       stage_prompt :=
         "pra-remaja yang membutuhkan aktivitas eksploratif dan pendampingan intensif" |};
    {| stage_max := of_Z 15;
       stage_label := "Remaja awal";
       stage_narrative :=
         "Sedang memasuki masa SMP; bekali dengan dasar literasi digital, disiplin belajar, dan proyek kecil yang menyenangkan.";
       stage_prompt :=
         "pelajar SMP yang baru mengeksplorasi minat jurusan" |};
    {| stage_max := of_Z 18;
       stage_label := "Remaja akhir";
       stage_narrative :=
         "Usia SMA/SMK; saat yang tepat untuk menguatkan portofolio, pengalaman organisasi, dan memilih jalur lanjutan.";
       stage_prompt :=
         "pelajar SMA/SMK yang bersiap memilih jurusan lanjutan" |};
    {| stage_max := of_Z 24;
       stage_label := "Dewasa muda";
       stage_narrative :=
         "Rentang kuliah awal; arahkan pada pengalaman magang, proyek penelitian, dan perluasan jejaring profesional.";
       stage_prompt :=
         "mahasiswa awal yang menguatkan fondasi karier" |};
    {| stage_max := of_Z 35;
       stage_label := "Profesional awal";
       stage_narrative :=
         "Mulai meniti karier; fokus pada spesialisasi skill, sertifikasi, dan kepemimpinan proyek.";
       stage_prompt :=
         "profesional muda yang ingin memantapkan spesialisasi" |};
    {| stage_max := of_Z 50;
       stage_label := "Profesional madya";
       stage_narrative :=
         "Tahap mengembangkan peran strategis; perkuat mentoring, manajemen tim, dan keseimbangan hidup.";
       stage_prompt :=
         "profesional madya yang ingin memperluas peran strategis" |};
    {| stage_max := PosInfinity;
       stage_label := "Mentor berpengalaman";
       stage_narrative :=
         "Pengalaman matang; saatnya membagikan wawasan, menjadi mentor, dan merancang legacy karya.";
       stage_prompt :=
         "mentor berpengalaman yang membina generasi berikutnya" |} ].

Definition DEFAULT_STAGE_DESCRIPTOR : StageDescriptor :=
  {| stage_max := NaN;
     stage_label := "Rentang belum jelas";
     stage_narrative :=
       "AI membaca sinyal usia yang unik, jadi tebakan dibuat santai. Jika ingin hasil lebih tajam, boleh coba ulang foto dengan pencahayaan merata.";
     stage_prompt :=
       "pelajar dengan usia visual yang belum terbaca jelas" |}.

Definition FALLBACK_AGE_PRESETS : list (string * AgePreset) :=
  [ ("happiness",
     {| preset_range := {| range_min := Some (of_Z 16); range_max := Some (of_Z 20) |};
        preset_estimated := of_Z 18;
        preset_confidence := Finite (19 # 50)%Q;
        preset_label := "16-20" |});
    ("surprise",
     {| preset_range := {| range_min := Some (of_Z 16); range_max := Some (of_Z 19) |};
        preset_estimated := of_Z 17;
        preset_confidence := Finite (9 # 25)%Q;
        preset_label := "16-19" |});
    ("sadness",
     {| preset_range := {| range_min := Some (of_Z 17); range_max := Some (of_Z 21) |};
        preset_estimated := of_Z 19;
        preset_confidence := Finite (17 # 50)%Q;
        preset_label := "17-21" |});
    ("anger",
     {| preset_range := {| range_min := Some (of_Z 18); range_max := Some (of_Z 24) |};
        preset_estimated := of_Z 21;
        preset_confidence := Finite (33 # 100)%Q;
        preset_label := "18-24" |});
    ("disgust",
     {| preset_range := {| range_min := Some (of_Z 17); range_max := Some (of_Z 23) |};
        preset_estimated := of_Z 20;
        preset_confidence := Finite (33 # 100)%Q;
        preset_label := "17-23" |});
    ("fear",
     {| preset_range := {| range_min := Some (of_Z 16); range_max := Some (of_Z 22) |};
        preset_estimated := of_Z 19;
        preset_confidence := Finite (8 # 25)%Q;
        preset_label := "16-22" |});
    ("contempt",
     {| preset_range := {| range_min := Some (of_Z 18); range_max := Some (of_Z 24) |};
        preset_estimated := of_Z 21;
        preset_confidence := Finite (7 # 20)%Q;
        preset_label := "18-24" |});
    ("neutral",
     {| preset_range := {| range_min := Some (of_Z 16); range_max := Some (of_Z 20) |};
        preset_estimated := of_Z 18;
        preset_confidence := Finite (7 # 20)%Q;
        preset_label := "16-20" |});
    ("unknown",
     {| preset_range := {| range_min := Some (of_Z 16); range_max := Some (of_Z 19) |};
        preset_estimated := of_Z 17;
        preset_confidence := Finite (33 # 100)%Q;
        preset_label := "16-19" |});
    ("default",
     {| preset_range := {| range_min := Some (of_Z 16); range_max := Some (of_Z 19) |};
        preset_estimated := of_Z 17;
        preset_confidence := Finite (17 # 50)%Q;
        preset_label := "16-19" |}) ].

Definition EXPRESSION_MAJOR_AFFINITY : list (string * list MajorCode) :=
  [ ("happiness", [DKV; RPL; TKJ]);
    ("surprise", [DKV; RPL; TKJ]);
    ("sadness", [RPL; DKV; TKJ]);
    ("anger", [TKJ; RPL; DKV]);
    ("disgust", [TKJ; RPL; DKV]);
    ("fear", [TKJ; RPL; DKV]);
    ("contempt", [RPL; TKJ; DKV]);
    ("neutral", [RPL; TKJ; DKV]);
    ("unknown", [DKV; RPL; TKJ]);
    ("default", [RPL; DKV; TKJ]) ].

Definition template_default : FallbackTemplate :=
  {| energyTone :=
       "Energi wajah stabil; manfaatkan untuk menjaga ritme eksplorasi kreatif secara konsisten.";
     personality :=
       "Karakter adaptif dan tangguh, tinggal menguatkan keberanian menampilkan karya.";
     major := DKV;
     karir :=
      [ createPoint strength
          "Sense visual terarah"
          "Ekspresimu menunjukkan kemampuan menjaga detail sehingga cocok merancang konten visual yang rapi.";
        createPoint opportunity
          "Perkuat storytelling"
          "Coba rutin membuat moodboard dan menarasikan ide agar pesan kreatif tersampaikan kuat." ];
     masaDepan :=
      [ createPoint opportunity
          "Bangun portofolio lintas media"
          "Eksperimen dengan ilustrasi, motion, dan desain UI supaya identitas kreatif makin terlihat.";
        createPoint warning
          "Jaga konsistensi ritme"
          "Atur jadwal istirahat agar inspirasi tetap segar dan tidak burnout saat menyelesaikan proyek panjang." ];
     alasan :=
      Some
      [ createPoint strength
          "Studio kreatif lengkap"
          "DKV menyediakan laboratorium multimedia dan mentor visual untuk mengasah ide menjadi karya nyata.";
        createPoint opportunity
          "Eksperimen lintas format"
          "Setiap mata pelajaran DKV membuka peluang mencoba berbagai media sehingga potensi kreatifmu tidak monoton." ];
     langkah :=
      None;
     kebiasaan :=
      None;
     alternatifNotes :=
      Some
      [ ("RPL",
         "Jika ingin mengemas ide ke aplikasi interaktif, RPL membantumu menerjemahkan konsep ke produk digital.");
        ("TKJ",
         "Bila tertarik pada perangkat dan jaringan, TKJ menawarkan praktik teknis yang melatih ketelitianmu.") ];
     confidenceModifier := Some (Finite (-3 # 20)%Q) |}.

Definition template_neutral : FallbackTemplate :=
  {| energyTone :=
       "Ekspresi netral menggambarkan kestabilan dan kesiapan menerima pelajaran baru.";
     personality :=
       "Karakter fleksibel, mudah menyesuaikan dengan berbagai situasi belajar.";
     major := TKJ;
     karir :=
      [ createPoint strength
          "Kerapian sistem"
          "Ketelitianmu membantu menjaga perangkat dan jaringan tetap stabil meski di bawah tekanan.";
        createPoint opportunity
          "Kolaborasi troubleshooting"
          "Libatkan teman untuk menyelesaikan kasus jaringan sederhana agar komunikasi teknismu semakin matang." ];
     masaDepan :=
      [ createPoint opportunity
          "Spesialis infrastruktur digital"
          "Bidang jaringan, cloud dasar, atau keamanan memberi banyak jalur peningkatan karier.";
        createPoint warning
          "Terus update teknologi"
          "Jadwalkan belajar rutin agar tidak tertinggal perkembangan tools dan standar terbaru." ];
     alasan :=
      None;
     langkah :=
      None;
     kebiasaan :=
      None;
     alternatifNotes :=
      Some
      [ ("RPL",
         "Jika ingin menulis automasi untuk solusi perangkat, RPL bisa membantu memadukan logika dan sistem.");
        ("DKV",
         "Untuk menyalurkan sisi kreatif, DKV menawarkan eksplorasi visual yang segar.") ];
     confidenceModifier := None |}.

Definition template_happiness : FallbackTemplate :=
  {| energyTone :=
       "Energi wajah ceria dan hangat, mudah membangun situasi kolaboratif.";
     personality :=
       "Karakter supel serta ekspresif, cocok memimpin aktivitas kreatif.";
     major := DKV;
     karir :=
      [ createPoint strength
          "Karisma tim"
          "Aura positif memudahkan mengambil peran koordinasi dalam proyek bersama.";
        createPoint opportunity
          "Salurkan ide visual"
          "Eksplor kelas multimedia atau desain untuk menyalurkan imajinasi." ];
     masaDepan :=
      [ createPoint opportunity
          "Bangun portofolio"
          "Kumpulkan hasil karya tiap bulan sebagai bukti konsistensi kreativitas.";
        createPoint warning
          "Atur prioritas"
          "Gunakan to-do list harian agar energi tidak terpecah ke terlalu banyak aktivitas." ];
     alasan :=
      Some
      [ createPoint strength
          "Studio kreatif lengkap"
          "Jurusan DKV menyediakan fasilitas desain dan mentor kreatif untuk menyalurkan imajinasi.";
        createPoint opportunity
          "Portofolio kuat"
          "Tiap proyek desain bisa dijadikan portofolio untuk menembus industri kreatif sejak dini." ];
     langkah :=
      Some
       "Susun portofolio mini berisi proyek sekolah atau karya mandiri dalam 3 bulan ke depan.";
     kebiasaan :=
      Some
      [ "Dokumentasikan progres proyek mingguan dalam bentuk foto atau video pendek.";
        "Ikut komunitas kreatif daring untuk bertukar ide dan feedback." ];
     alternatifNotes :=
      Some
      [ ("RPL",
         "Jika ingin menyalurkan ide ke aplikasi interaktif, RPL bisa jadi kombinasi yang seru.");
        ("TKJ",
         "Energi positifmu juga bisa menghidupkan tim teknis di jurusan TKJ.") ];
     confidenceModifier := None |}.

Definition template_anger : FallbackTemplate :=
  {| energyTone :=
       "Energi tegas menonjol, cocok untuk peran yang membutuhkan keberanian keputusan.";
     personality :=
       "Karakter kompetitif dan berorientasi hasil, butuh kanal produktif agar energi tersalurkan.";
     major := TKJ;
     karir :=
      [ createPoint strength
          "Kecepatan respon"
          "Ketegasanmu membantu menyelesaikan tugas operasional di bawah tekanan.";
        createPoint warning
          "Kelola emosi"
          "Latih teknik napas atau olahraga ringan sebelum mengambil keputusan penting." ];
     masaDepan :=
      [ createPoint opportunity
          "Peran kepemimpinan"
          "Ambil posisi koordinator proyek untuk menyalurkan insting memimpin.";
        createPoint warning
          "Bangun empati"
          "Sisihkan waktu mendengar masukan tim agar keputusan lebih diterima." ];
     alasan :=
      Some
      [ createPoint strength
          "Tantangan teknis nyata"
          "TKJ memberi banyak praktik lapangan untuk menyalurkan energi kompetitifmu.";
        createPoint opportunity
          "Simulasi industri"
          "Kegiatan prakerin menyiapkan mental menghadapi tekanan kerja sebenarnya." ];
     langkah :=
      Some
       "Terapkan metode GTD (Getting Things Done) sederhana untuk menjaga fokus prioritas.";
     kebiasaan :=
      Some
      [ "Mulai hari dengan 5 menit pernapasan atau peregangan.";
        "Catat pemicu emosi dan siapkan respon alternatif yang lebih tenang." ];
     alternatifNotes :=
      Some
      [ ("RPL",
         "Jika ingin menyalurkan ketegasan lewat problem solving digital, RPL bisa dicoba.");
        ("DKV",
         "Energi besar juga dapat diarahkan membuat konten berpengaruh di DKV.") ];
     confidenceModifier := None |}.

Definition template_sadness : FallbackTemplate :=
  {| energyTone :=
       "Energi terlihat lembut dan empatik, mudah menangkap perasaan orang lain.";
     personality :=
       "Karakter peduli, cocok pada peran pelayanan atau pendampingan.";
     major := RPL;
     karir :=
      [ createPoint strength
          "Empati tinggi"
          "Kepekaan emosimu memberi nilai tambah pada bidang sosial atau pendidikan.";
        createPoint opportunity
          "Bangun daya juang"
          "Perkuat ketahanan mental melalui journaling dan dukungan komunitas." ];
     masaDepan :=
      [ createPoint opportunity
          "Solusi berdampak"
          "Menciptakan aplikasi bantu belajar atau kesehatan mental bisa jadi fokus menarik.";
        createPoint warning
          "Jaga semangat"
          "Tetapkan penghargaan diri setiap kali menyelesaikan modul atau proyek." ];
     alasan :=
      Some
      [ createPoint strength
          "Kolaborasi empatik"
          "Proyek RPL menuntut kerja tim sehingga empati kamu menjadi keunggulan.";
        createPoint opportunity
          "Transformasi ide jadi solusi"
          "Mood sensitif mempermudahmu merancang fitur yang benar-benar membantu pengguna." ];
     langkah :=
      None;
     kebiasaan :=
      Some
      [ "Refleksikan emosi dan ide solusi dalam jurnal setiap malam.";
        "Libatkan teman untuk pair programming ringan seminggu sekali." ];
     alternatifNotes :=
      Some
      [ ("DKV",
         "Jika ingin menyalurkan emosi lewat visual, DKV bisa menjadi ruang berekspresi.");
        ("TKJ",
         "TKJ cocok bila kamu ingin fokus ke sistem yang menjamin kenyamanan banyak orang.") ];
     confidenceModifier := None |}.

Definition template_surprise : FallbackTemplate :=
  {| energyTone :=
       "Ekspresi penuh rasa ingin tahu, cepat menangkap informasi baru.";
     personality :=
       "Karakter eksploratif dan adaptif, senang mencoba hal berbeda.";
     major := RPL;
     karir :=
      [ createPoint strength
          "Respons cepat"
          "Kamu sigap mengatasi perubahan, cocok di bidang teknologi atau event.";
        createPoint opportunity
          "Struktur belajar"
          "Susun kerangka belajar agar rasa penasaran tetap terarah." ];
     masaDepan :=
      [ createPoint opportunity
          "Inovasi berkelanjutan"
          "Bidang startup atau riset terapan memberi ruang eksplorasi tanpa batas.";
        createPoint warning
          "Hindari loncat-loncat"
          "Tentukan satu fokus utama tiap semester agar hasil terasa nyata." ];
     alasan :=
      Some
      [ createPoint strength
          "Eksperimen terencana"
          "RPL memungkinkanmu menguji ide inovatif melalui prototipe digital.";
        createPoint opportunity
          "Jalur portofolio"
          "Setiap aplikasi kecil bisa dijadikan studi kasus untuk menonjolkan rasa ingin tahu." ];
     langkah :=
      Some
       "Ambil satu proyek ekstrakurikuler dan jadikan studi kasus portofolio.";
     kebiasaan :=
      Some
      [ "Gunakan papan ide untuk menampung inspirasi sebelum dieksekusi.";
        "Review pembelajaran tiap Jumat untuk memilih ide teratas minggu berikutnya." ];
     alternatifNotes :=
      Some
      [ ("DKV",
         "Jika imajinasi visualmu menguat, DKV memberi ruang eksplorasi konsep unik.");
        ("TKJ",
         "TKJ cocok bila kamu ingin mendalami perangkat yang mendukung ide-ide besar.") ];
     confidenceModifier := None |}.

Definition template_disgust : FallbackTemplate :=
  {| energyTone :=
       "Ekspresi menunjukkan standar tinggi dan keinginan menjaga kualitas.";
     personality :=
       "Karakter perfeksionis, teliti terhadap detail dan lingkungan.";
     major := TKJ;
     karir :=
      [ createPoint strength
          "Kontrol kualitas"
          "Kepekaanmu terhadap detail cocok di bidang kuliner, kecantikan, atau produksi.";
        createPoint opportunity
          "Kelola ekspektasi"
          "Belajar membagi standar: mana yang wajib tinggi dan mana yang bisa fleksibel." ];
     masaDepan :=
      [ createPoint opportunity
          "Spesialis kualitas"
          "Pertimbangkan profesi QC, UX, atau desain interior yang menuntut cita rasa.";
        createPoint warning
          "Hindari overkritik"
          "Gunakan sudut pandang apresiasi sebelum memberi evaluasi pada orang lain." ];
     alasan :=
      Some
      [ createPoint strength
          "Kerapian sistem"
          "TKJ membiasakan standar check list dan dokumentasi sehingga perfeksimu tersalurkan.";
        createPoint opportunity
          "Praktik bertahap"
          "Setiap proyek jaringan melatihmu menilai kualitas konfigurasi secara rinci." ];
     langkah :=
      Some
       "Buat checklist mutu pribadi sebelum memulai dan selesai mengerjakan proyek.";
     kebiasaan :=
      Some
      [ "Latihan sensory check selama 10 menit tiap hari.";
        "Berikan apresiasi diri atas progres kecil untuk menjaga motivasi." ];
     alternatifNotes :=
      Some
      [ ("RPL",
         "Jika ingin mengontrol kualitas software, RPL memberi ruang testing dan QA.");
        ("DKV",
         "Ketekunan detailmu juga bermanfaat menciptakan karya visual yang presisi di DKV.") ];
     confidenceModifier := None |}.

Definition template_fear : FallbackTemplate :=
  {| energyTone :=
       "Ekspresi berhati-hati menunjukkan kebutuhan akan rasa aman sebelum melangkah.";
     personality :=
       "Karakter analitis namun membutuhkan dorongan kepercayaan diri.";
     major := TKJ;
     karir :=
      [ createPoint strength
          "Detil dan teliti"
          "Kehati-hatianmu cocok di bidang riset, akuntansi, atau kontrol kualitas.";
        createPoint opportunity
          "Bangun keberanian"
          "Mulai ambil proyek kecil bertahap untuk melatih percaya diri." ];
     masaDepan :=
      [ createPoint opportunity
          "Perencanaan matang"
          "Profesi analis data atau perencana keuangan selaras dengan gaya berpikir sistematismu.";
        createPoint warning
          "Atasi overthinking"
          "Gunakan teknik 5-4-3-2-1 atau journaling untuk meredam kekhawatiran." ];
     alasan :=
      Some
      [ createPoint strength
          "Sistem yang aman"
          "TKJ mengajarkan cara menjaga jaringan tetap stabil sehingga selaras dengan kebutuhanmu akan rasa aman.";
        createPoint opportunity
          "Proyek bertahap"
          "Pembelajaran praktikum memungkinkanmu menaikkan percaya diri setahap demi setahap." ];
     langkah :=
      Some
       "Susun rencana mingguan berisi tiga prioritas utama agar fokus mudah dijaga.";
     kebiasaan :=
      Some
      [ "Gunakan daftar afirmasi positif setiap pagi.";
        "Cek-in emosi di tengah hari dengan skala 1-5 lalu sesuaikan aktivitas." ];
     alternatifNotes :=
      Some
      [ ("RPL",
         "Jika ingin belajar membangun solusi yang membantu orang banyak, RPL memberimu pijakan aman.");
        ("DKV",
         "Menyalurkan rasa hati-hati lewat karya visual di DKV bisa menjadi terapi kreatif.") ];
     confidenceModifier := None |}.

Definition template_contempt : FallbackTemplate :=
  {| energyTone :=
       "Ekspresi kritis menandakan intuisi tajam dalam menilai kondisi.";
     personality :=
       "Karakter analitis dan tegas, cocok menjadi penasehat atau strategi.";
     major := RPL;
     karir :=
      [ createPoint strength
          "Analisis tajam"
          "Kemampuan menilai cepat membantu di bidang hukum, debat, atau riset kebijakan.";
        createPoint warning
          "Bangun empati komunikatif"
          "Sertakan langkah solutif saat menyampaikan kritik agar penerimaan lebih baik." ];
     masaDepan :=
      [ createPoint opportunity
          "Peran strategi"
          "Pertimbangkan profesi konsultan, analis bisnis, atau content strategist.";
        createPoint warning
          "Jaga fleksibilitas"
          "Latih melihat sisi positif agar tidak terjebak pada penilaian yang terlalu keras." ];
     alasan :=
      Some
      [ createPoint strength
          "Logika tajam"
          "RPL memfasilitasi pola pikir kritis lewat debugging dan analisis sistem.";
        createPoint opportunity
          "Solusi aplikatif"
          "Setiap kritik bisa diterjemahkan menjadi fitur baru pada aplikasi yang kamu bangun." ];
     langkah :=
      Some
       "Setiap memberi evaluasi, sertakan minimal dua apresiasi dan satu alternatif solusi.";
     kebiasaan :=
      Some
      [ "Latihan menulis opini dengan format sandwich feedback.";
        "Ikuti konten atau buku tentang empati dan komunikasi asertif." ];
     alternatifNotes :=
      Some
      [ ("DKV",
         "Jika ingin mengasah kritik visual, DKV memberimu ruang menilai estetika.");
        ("TKJ",
         "TKJ cocok bila kamu ingin memastikan standar teknis dan keamanan tertata rapi.") ];
     confidenceModifier := None |}.

Definition FALLBACK_TEMPLATES : list (string * FallbackTemplate) :=
  [ ("default", template_default);
    ("neutral", template_neutral);
    ("happiness", template_happiness);
    ("anger", template_anger);
    ("sadness", template_sadness);
    ("surprise", template_surprise);
    ("disgust", template_disgust);
    ("fear", template_fear);
    ("contempt", template_contempt) ].

(** [FALLBACK_TEMPLATES.default], [FALLBACK_AGE_PRESETS.default],
    [EXPRESSION_MAJOR_AFFINITY.default] *)
Definition preset_default : AgePreset :=
  {| preset_range := {| range_min := Some (of_Z 16); range_max := Some (of_Z 19) |};
     preset_estimated := of_Z 17;
     preset_confidence := Finite (17 # 50)%Q;
     preset_label := "16-19" |}.

Definition affinity_default : list MajorCode := [RPL; DKV; TKJ].

(** ** Process-wide state *)

Record CacheEntry : Type := {
  timestamp : Z;
  data : AnalysisPayload
}.

Record State : Type := {
  rateBuckets : gmap string (list Z);
  analysisCache : gmap string CacheEntry
}.

(** ** Rate limiter *)

(** [checkRateLimit(key)], with the reading of [Date.now()] as an argument:
    the new buckets and whether the request is rejected. *)
Definition checkRateLimit (key : string) (now : Z)
    (buckets : gmap string (list Z)) : gmap string (list Z) * bool :=
  let windowStart := (now - RATE_LIMIT_WINDOW_MS)%Z in
  let timestamps := default [] (buckets !! key) in
  let filtered := List.filter (fun ts => (windowStart <? ts)%Z) timestamps in
  if (RATE_LIMIT_MAX <=? length filtered)%nat then
    (<[key := filtered]> buckets, true)
  else
    (<[key := filtered ++ [now]]> buckets, false).

(** The timestamps of a bucket that are still inside the window at [now]. *)
Definition in_window (now : Z) (timestamps : list Z) : list Z :=
  List.filter (fun ts => (now - RATE_LIMIT_WINDOW_MS <? ts)%Z) timestamps.

(** ** Track codes *)

Definition isMajorCode (value : string) : bool :=
  existsb (fun code => String.eqb value (major_key code)) MAJOR_CODES.

(** The code that a key of [MAJOR_LABELS] names. *)
Definition major_of_key (key : string) : option MajorCode :=
  List.find (fun code => String.eqb key (major_key code)) MAJOR_CODES.

(** [normalizeMajorCode] on a string:
    [isMajorCode(upper) ? upper : "RPL"]. *)
Definition normalizeMajorString (value : string) : MajorCode :=
  let upper := trim (toUpperCase value) in
  if isMajorCode upper then default RPL (major_of_key upper) else RPL.

(** [normalizeMajorCode(value)]: [(value ?? "").toUpperCase().trim()] raises
    on whatever is not a string. *)
Definition normalizeMajorCode (value : jsval) : res MajorCode :=
  match coalesce value (JStr "") with
  | JStr s => Ok (normalizeMajorString s)
  | _ => Throw TypeError
  end.

Definition resolveMajorName (code providedName : jsval) : res string :=
  majorCode <- normalizeMajorCode code ;;
  if truthy providedName then
    trimmed <- call_trim providedName ;;
    if negb (String.eqb trimmed "") then call_trim providedName
    else Ok (MAJOR_LABELS majorCode)
  else Ok (MAJOR_LABELS majorCode).

(** ** Age helpers *)

(** [a <= b] on numbers. *)
Definition num_le (a b : jsnum) : bool :=
  match a, b with
  | NaN, _ | _, NaN => false
  | _, _ => negb (num_lt b a)
  end.

Definition describeAgeStage (age : option jsnum) : StageDescriptor :=
  match age with
  | None => DEFAULT_STAGE_DESCRIPTOR
  | Some n =>
      if isNaN n then DEFAULT_STAGE_DESCRIPTOR
      else
        match List.find (fun item => num_le n (stage_max item)) AGE_STAGE_DESCRIPTORS with
        | Some descriptor => descriptor
        | None => List.last AGE_STAGE_DESCRIPTORS DEFAULT_STAGE_DESCRIPTOR
        end
  end.

Definition no_range : AgeRange := {| range_min := None; range_max := None |}.

Definition parseAgeLabelRange (label : string) : AgeRange :=
  if String.eqb label "" then no_range
  else
    let matches := digit_runs label in
    match matches with
    | [] =>
        if includes_char "+" label then
          match List.hd_error (digit_runs label) with
          | Some plusMatch =>
              let base := Number_of_digits plusMatch in
              if isFinite base then {| range_min := Some base; range_max := None |}
              else no_range
          | None => no_range
          end
        else no_range
    | _ =>
        let numbers := List.filter isFinite (List.map Number_of_digits matches) in
        match numbers with
        | [] => no_range
        | [value] =>
            {| range_min := Some value;
               range_max := if includes_char "+" label then None else Some value |}
        | first :: second :: _ =>
            {| range_min := Some (Math_min first second);
               range_max := Some (Math_max first second) |}
        end
    end.

(** [computeEstimatedAge(range, fallback)]; [fallback] is [Some] when it is
    a number. *)
Definition computeEstimatedAge (range : AgeRange) (fallback : option jsnum)
  : option jsnum :=
  match range_min range, range_max range with
  | Some lo, Some hi => Some (Math_round (num_div (num_add lo hi) (of_Z 2)))
  | Some lo, None => Some lo
  | None, Some hi => Some hi
  | None, None =>
      match fallback with
      | Some n => if isFinite n then Some (Math_round n) else None
      | None => None
      end
  end.

Section WithRuntime.
Context `{rt : Runtime}.

Definition formatAgeRangeText (range : AgeRange) (estimated : option jsnum)
  : string :=
  match range_min range, range_max range with
  | Some lo, Some hi =>
      Number_toString lo +:+ "–" +:+ Number_toString hi +:+ " tahun"
  | Some lo, None => Number_toString lo +:+ "+ tahun"
  | None, _ =>
      match estimated with
      | Some e => "sekitar " +:+ Number_toString e +:+ " tahun"
      | None => ""
      end
  end.

Definition buildAgeHeadline (range : AgeRange) (estimated : option jsnum)
  : string :=
  let formatted := formatAgeRangeText range estimated in
  if negb (String.eqb formatted "") then "Perkiraan usia " +:+ formatted
  else "Perkiraan usia belum terbaca".

(** [a ?? b ?? c ?? null] on optional numbers *)
Definition first_number (a b c : option jsnum) : option jsnum :=
  match a with
  | Some _ => a
  | None => match b with Some _ => b | None => c end
  end.

Definition buildAgeNarrative (range : AgeRange) (estimated : option jsnum)
    (confidence : jsnum) : string :=
  let descriptor :=
    describeAgeStage (first_number estimated (range_min range) (range_max range)) in
  let rangeText := formatAgeRangeText range estimated in
  let confidenceText :=
    if num_lt (of_Z 0) confidence then
      "Keyakinan model sekitar "
        +:+ Number_toFixed 0 (num_mul confidence (of_Z 100)) +:+ "%."
    else "Model belum yakin dengan hasil ini." in
  if negb (String.eqb rangeText "") then
    "AI memperkirakan usia visual berada di " +:+ rangeText +:+ ". "
      +:+ stage_narrative descriptor +:+ " " +:+ confidenceText
      +:+ " Ingat, tebakan ini hanya referensi santai dan bukan identitas resmi."
  else
    stage_narrative descriptor +:+ " " +:+ confidenceText
      +:+ " Ulangi foto dengan pencahayaan lebih merata agar AI dapat membaca usia lebih baik.".

(** [buildFallbackAgeInsight(expression)].  When the lowercased label names
    a member of [Object.prototype], [preset] is that member, [preset.range]
    is undefined and reading [.min] from it raises. *)
Definition buildFallbackAgeInsight (expression : option ExpressionInsight)
  : res AgeInsight :=
  let key :=
    match expression with
    | Some e => toLowerCase (ex_label e)
    | None => "default"
    end in
  preset <- match record_get FALLBACK_AGE_PRESETS key with
            | Own p => Ok p
            | Inherited => Throw TypeError
            | Absent => Ok preset_default
            end ;;
  let range :=
    {| range_min := range_min (preset_range preset);
       range_max := range_max (preset_range preset) |} in
  let estimated := Some (preset_estimated preset) in
  let confidence := clamp01 (preset_confidence preset) in
  let headline := buildAgeHeadline range estimated in
  let narrative := buildAgeNarrative range estimated confidence in
  Ok {| age_label := preset_label preset;
        age_confidence := confidence;
        age_estimated := estimated;
        age_range := range;
        age_headline := headline;
        age_narrative := narrative |}.

End WithRuntime.

(** ** Upstream calls

    What the network does with one outgoing request: the [fetch] promise
    rejects, or it resolves to a response whose body read may itself fail. *)
Record HttpResponse : Type := {
  status : Z;
  body_text : res string
}.

Inductive FetchOutcome : Type :=
| Rejected (e : exn)
| Responded (r : HttpResponse).

Definition fetch (call : FetchOutcome) : res HttpResponse :=
  match call with
  | Rejected e => Throw e
  | Responded r => Ok r
  end.

(** [response.ok] *)
Definition response_ok (r : HttpResponse) : bool :=
  (200 <=? status r)%Z && (status r <=? 299)%Z.

(** [Array.prototype.sort(cmp)] as a stable insertion sort.  A comparator
    result that is not negative (NaN included) leaves the later element
    behind; the comparator is called as soon as there are two elements. *)
Fixpoint insert_sorted (cmp : jsval -> jsval -> res jsnum) (x : jsval)
    (sorted : list jsval) : res (list jsval) :=
  match sorted with
  | [] => Ok [x]
  | y :: rest =>
      c <- cmp x y ;;
      if num_lt c (of_Z 0) then Ok (x :: y :: rest)
      else (tail <- insert_sorted cmp x rest ;; Ok (y :: tail))
  end.

Fixpoint sort_onto (cmp : jsval -> jsval -> res jsnum) (items sorted : list jsval)
  : res (list jsval) :=
  match items with
  | [] => Ok sorted
  | x :: rest => s <- insert_sorted cmp x sorted ;; sort_onto cmp rest s
  end.

Definition sort_by (cmp : jsval -> jsval -> res jsnum) (items : list jsval)
  : res (list jsval) :=
  sort_onto cmp items [].

Definition is_number (v : jsval) : bool :=
  match v with JNum _ => true | _ => false end.

(** [v?.[0]] *)
Definition get_first_opt (v : jsval) : jsval :=
  match v with
  | JArr items => List.hd JUndefined items
  | JObj fields => default JUndefined (assoc "0" fields)
  | JStr (String c _) => JStr (String c EmptyString)
  | _ => JUndefined
  end.

(** [s.replace(/```json|```/g, "")] *)
Fixpoint strip_fences_from (s : string) (skip : nat) : string :=
  match s with
  | EmptyString => EmptyString
  | String c rest =>
      match skip with
      | S k => strip_fences_from rest k
      | O =>
          if is_prefix "```json" s then strip_fences_from rest 6
          else if is_prefix "```" s then strip_fences_from rest 2
          else String c (strip_fences_from rest 0)
      end
  end.

Definition strip_fences (s : string) : string := strip_fences_from s 0.

(** [Map.prototype.set] and [.has] on an insertion-ordered map. *)
Fixpoint map_set (code : MajorCode) (note : string)
    (m : list (MajorCode * string)) : list (MajorCode * string) :=
  match m with
  | [] => [(code, note)]
  | (c, n) :: rest =>
      if decide (c = code) then (c, note) :: rest
      else (c, n) :: map_set code note rest
  end.

Definition map_has (code : MajorCode) (m : list (MajorCode * string)) : bool :=
  existsb (fun entry => bool_decide (fst entry = code)) m.

Record AgeCandidate : Type := {
  cand_label : string;
  cand_score : jsnum;
  cand_directAge : option jsnum
}.

Definition opt_string (s : option string) : jsval :=
  match s with Some s => JStr s | None => JUndefined end.

Definition opt_array (l : option (list jsval)) : jsval :=
  match l with Some l => JArr l | None => JUndefined end.

Section Adapters.
Context `{rt : Runtime}.

(** [response.json()] *)
Definition response_json (r : HttpResponse) : res jsval :=
  text <- body_text r ;;
  match JSON_parse text with
  | Some v => Ok v
  | None => Throw SyntaxError
  end.

(** *** Expression classifier *)

Definition default_insight (confidence : Q) : ExpressionInsight :=
  {| ex_narrative := JStr DEFAULT_EXPRESSION;
     ex_confidence := Finite confidence;
     ex_label := "neutral" |}.

(** [(a, b) => b.score - a.score] *)
Definition by_score (a b : jsval) : res jsnum :=
  sb <- get b "score" ;;
  sa <- get a "score" ;;
  nb <- js_Number sb ;;
  na <- js_Number sa ;;
  Ok (num_sub nb na).

(** [detectExpression(token, image)] from the point where [fetch] settles:
    the token and the image only flow into the request, whose outcome is
    [call]. *)
Definition detectExpression (call : FetchOutcome) : res ExpressionInsight :=
  response <- fetch call ;;
  if negb (response_ok response) then
    detail <- body_text response ;;
    Ok (default_insight (42 # 100))
  else
    data <- response_json response ;;
    match data with
    | JArr ((_ :: _) as items) =>
        sorted <- sort_by by_score items ;;
        let top := List.hd JUndefined sorted in
        top_label <- get top "label" ;;
        match top_label with
        | JStr label =>
            let refinedLabel :=
              match record_get EXPRESSION_LABELS (toLowerCase label) with
              | Own sentence => JStr sentence
              | Inherited => JHost
              | Absent => JNull
              end in
            top_score <- get top "score" ;;
            narrative <-
              (if nullish refinedLabel then
                 n <- js_Number top_score ;;
                 Ok (JStr ("Ekspresi dominan: " +:+ label
                             +:+ " dengan tingkat keyakinan "
                             +:+ Number_toFixed 0 (num_mul n (of_Z 100)) +:+ "%."))
               else Ok refinedLabel) ;;
            n <- js_Number top_score ;;
            Ok {| ex_narrative := narrative;
                  ex_confidence := clamp01 n;
                  ex_label := label |}
        | _ => Throw TypeError
        end
    | _ => Ok (default_insight (4 # 10))
    end.

(** *** Age classifier *)

(** [(a, b) => Number(b?.score ?? 0) - Number(a?.score ?? 0)] *)
Definition by_score_opt (a b : jsval) : res jsnum :=
  nb <- js_Number (coalesce (get_opt b "score") (JNum (of_Z 0))) ;;
  na <- js_Number (coalesce (get_opt a "score") (JNum (of_Z 0))) ;;
  Ok (num_sub nb na).

Definition candidate_of_predictions (predictions : jsval)
  : res (option AgeCandidate) :=
  match predictions with
  | JArr items =>
      sorted <- sort_by by_score_opt items ;;
      let top := List.hd JUndefined sorted in
      if truthy top then
        let label :=
          match get_opt top "label" with
          | JStr s => s
          | _ =>
              match get_opt top "age" with
              | JNum n => Number_toString n
              | _ => "unknown"
              end
          end in
        score <- js_Number
                   (coalesce (coalesce (get_opt top "score") (get_opt top "confidence"))
                             (JNum (Finite (3 # 10)))) ;;
        Ok (Some {| cand_label := label; cand_score := score; cand_directAge := None |})
      else Ok None
  | _ => Ok None
  end.

Definition extractCandidate (raw : jsval) : res (option AgeCandidate) :=
  match raw with
  | JArr items =>
      sorted <- sort_by by_score_opt items ;;
      let top := List.hd JUndefined sorted in
      if truthy top then
        top_label <- get top "label" ;;
        label <- js_String (coalesce top_label (JStr "unknown")) ;;
        top_score <- get top "score" ;;
        score <- js_Number (coalesce top_score (JNum (Finite (35 # 100)))) ;;
        Ok (Some {| cand_label := label; cand_score := score; cand_directAge := None |})
      else Ok None
  | JObj _ =>
      from_predictions <- candidate_of_predictions (get_opt raw "age_predictions") ;;
      match from_predictions with
      | Some candidate => Ok (Some candidate)
      | None =>
          match get_opt raw "age" with
          | JNum n =>
              score <- js_Number
                         (coalesce (coalesce (get_opt raw "confidence") (get_opt raw "score"))
                                   (JNum (Finite (55 # 100)))) ;;
              Ok (Some {| cand_label := Number_toString n;
                          cand_score := score;
                          cand_directAge := Some n |})
          | _ =>
              match get_opt raw "label" with
              | JStr s =>
                  score <- js_Number
                             (coalesce (coalesce (get_opt raw "score") (get_opt raw "confidence"))
                                       (JNum (Finite (4 # 10)))) ;;
                  Ok (Some {| cand_label := s; cand_score := score; cand_directAge := None |})
              | _ => Ok None
              end
          end
      end
  | _ => Ok None
  end.

(** [detectAge(token, image, expression)]: the body is one [try] whose
    [catch] block builds the fallback insight. *)
Definition detectAge (call : FetchOutcome) (expression : option ExpressionInsight)
  : res AgeInsight :=
  try_catch
    (response <- fetch call ;;
     if negb (response_ok response) then
       detail <- body_text response ;;
       buildFallbackAgeInsight expression
     else
       raw <- response_json response ;;
       extracted <- extractCandidate raw ;;
       match extracted with
       | None => buildFallbackAgeInsight expression
       | Some candidate =>
           let range := parseAgeLabelRange (cand_label candidate) in
           let estimated := computeEstimatedAge range (cand_directAge candidate) in
           let confidence := clamp01 (cand_score candidate) in
           match range_min range, range_max range, estimated with
           | None, None, None => buildFallbackAgeInsight expression
           | _, _, _ =>
               let headline := buildAgeHeadline range estimated in
               let narrative := buildAgeNarrative range estimated confidence in
               Ok {| age_label := cand_label candidate;
                     age_confidence := confidence;
                     age_estimated := estimated;
                     age_range := range;
                     age_headline := headline;
                     age_narrative := narrative |}
           end
       end)
    (fun error => buildFallbackAgeInsight expression).

End Adapters.

(** ** Fallback template selection *)

(** [FALLBACK_TEMPLATES[label] ?? FALLBACK_TEMPLATES.default].  [None] is a
    member of [Object.prototype] found under that name: every template
    field read from it is undefined. *)
Definition selectTemplate (label : string) : option FallbackTemplate :=
  match record_get FALLBACK_TEMPLATES label with
  | Own template => Some template
  | Inherited => None
  | Absent => Some template_default
  end.

Definition alternative_entry (entry : MajorCode * string) : jsval :=
  JObj [ ("kode", JStr (major_key (fst entry)));
         ("nama", JStr (MAJOR_LABELS (fst entry)));
         ("catatan", JStr (snd entry)) ].

Definition buildFallbackAnalysis (expression : ExpressionInsight) : jsval :=
  let label := toLowerCase (ex_label expression) in
  let template := selectTemplate label in
  let major := default RPL (major <$> template) in
  let notes_of_template :=
    match template ≫= alternatifNotes with
    | Some entries =>
        fold_left
          (fun notes entry =>
             let normalized := normalizeMajorString (fst entry) in
             if negb (String.eqb (snd entry) "") then map_set normalized (snd entry) notes
             else notes)
          entries []
    | None => []
    end in
  let alternatifNotes :=
    fold_left
      (fun notes code =>
         if decide (code = major) then notes
         else if negb (map_has code notes) then map_set code (DEFAULT_MAJOR_NOTES code) notes
         else notes)
      MAJOR_CODES notes_of_template in
  let langkah :=
    match template ≫= langkah with
    | Some s => trim s
    | None => focus_langkah (DEFAULT_MAJOR_FOCUS major)
    end in
  let kebiasaan :=
    match template ≫= kebiasaan with
    | Some ((_ :: _) as entries) =>
        List.filter (fun entry => negb (String.eqb entry "")) (List.map trim entries)
    | _ => focus_kebiasaan (DEFAULT_MAJOR_FOCUS major)
    end in
  let alasan :=
    match template ≫= alasan with
    | Some ((_ :: _) as points) => points
    | _ => DEFAULT_MAJOR_POINTS major
    end in
  let alternatif := List.map alternative_entry alternatifNotes in
  JObj
    [ ("expressionSummary",
       JObj [ ("headline", ex_narrative expression);
              ("energyTone", opt_string (energyTone <$> template));
              ("personalityHighlight", opt_string (personality <$> template));
              ("confidenceModifier",
               JNum (default (Finite (-1 # 10)%Q) (template ≫= confidenceModifier))) ]);
      ("manifesting",
       JObj [ ("pekerjaanKarir", opt_array (karir <$> template));
              ("masaDepan", opt_array (masaDepan <$> template)) ]);
      ("rekomendasiJurusan",
       JObj [ ("utama",
               JObj [ ("kode", JStr (major_key major));
                      ("nama", JStr (MAJOR_LABELS major));
                      ("alasan", JArr alasan);
                      ("langkahFokus", JStr langkah);
                      ("kebiasaanPendukung", JArr (List.map JStr kebiasaan)) ]);
              ("alternatif", JArr alternatif) ]) ].

(** ** Response normalization (the tail of [POST]) *)

Definition normalizePoints (items : jsval) : res (list Point) :=
  receiver <- array_receiver (coalesce items (JArr [])) ;;
  let kept :=
    List.filter
      (fun item => truthy (get_opt item "title") && truthy (get_opt item "description"))
      receiver in
  map_res
    (fun item =>
       item_title <- get item "title" ;;
       t <- call_trim item_title ;;
       item_description <- get item "description" ;;
       d <- call_trim item_description ;;
       item_indicator <- get item "indicator" ;;
       Ok {| title := t;
             description := d;
             indicator := coalesce item_indicator (JStr "opportunity") |})
    kept.

Definition sanitizeStringArray (items : jsval) : res (list string) :=
  receiver <- array_receiver (coalesce items (JArr [])) ;;
  trimmed <- map_res call_trim_opt receiver ;;
  Ok (omap (fun entry =>
              match entry with
              | JStr s => if String.eqb s "" then None else Some s
              | _ => None
              end) trimmed).

(** One entry of [alternatifDariAi]; [None] is the [null] that the
    following [filter] drops. *)
Definition alternative_of_item (item : jsval) : res (option Alternatif) :=
  trimmed <- call_trim_opt (get_opt item "catatan") ;;
  match trimmed with
  | JStr note =>
      if String.eqb note "" then Ok None
      else
        code <- normalizeMajorCode (get_opt item "kode") ;;
        name <- resolveMajorName (get_opt item "kode") (get_opt item "nama") ;;
        Ok (Some {| alt_kode := code; alt_nama := name; catatan := note |})
  | _ => Ok None
  end.

Definition seen (code : MajorCode) (seenCodes : list MajorCode) : bool :=
  existsb (fun c => bool_decide (c = code)) seenCodes.

(** One turn of either loop that fills [alternatif]. *)
Definition push_unseen (acc : list Alternatif * list MajorCode) (alt : Alternatif)
  : list Alternatif * list MajorCode :=
  if seen (alt_kode alt) (snd acc) then acc
  else (fst acc ++ [alt], snd acc ++ [alt_kode alt]).

Definition default_alternative (code : MajorCode) : Alternatif :=
  {| alt_kode := code;
     alt_nama := MAJOR_LABELS code;
     catatan := DEFAULT_MAJOR_NOTES code |}.

Definition collectAlternatives (utamaKode : MajorCode)
    (alternatifDariAi : list Alternatif) : list Alternatif :=
  let from_ai := fold_left push_unseen alternatifDariAi ([], [utamaKode]) in
  let padded :=
    fold_left (fun acc code => push_unseen acc (default_alternative code))
              MAJOR_CODES from_ai in
  fst padded.

(** [Number.isFinite(modifier) ? clamp(confidence + modifier) : confidence] *)
Definition applyConfidenceModifier (confidence : jsnum) (modifier : jsval) : jsnum :=
  match modifier with
  | JNum n => if isFinite n then clamp01 (num_add confidence n) else confidence
  | _ => confidence
  end.

Definition normalizeResult (aiResult : jsval) (expression : ExpressionInsight)
    (ageInsight : AgeInsight) (metaSource : Source) : res AnalysisPayload :=
  result_manifesting <- get aiResult "manifesting" ;;
  manifestingKarir <- normalizePoints (get_opt result_manifesting "pekerjaanKarir") ;;
  manifestingMasaDepan <- normalizePoints (get_opt result_manifesting "masaDepan") ;;
  result_jurusan <- get aiResult "rekomendasiJurusan" ;;
  let jurusanUtamaRaw := coalesce (get_opt result_jurusan "utama") (JObj []) in
  raw_kode <- get jurusanUtamaRaw "kode" ;;
  raw_nama <- get jurusanUtamaRaw "nama" ;;
  utamaKode <- normalizeMajorCode raw_kode ;;
  utamaNama <- resolveMajorName raw_kode raw_nama ;;
  raw_alasan <- get jurusanUtamaRaw "alasan" ;;
  from_ai <- normalizePoints raw_alasan ;;
  alasanJurusan <-
    match from_ai with
    | [] => normalizePoints (JArr (DEFAULT_MAJOR_POINTS utamaKode))
    | _ => Ok from_ai
    end ;;
  raw_langkah <- get jurusanUtamaRaw "langkahFokus" ;;
  trimmed_langkah <- call_trim_opt raw_langkah ;;
  let langkahFokus :=
    match trimmed_langkah with
    | JStr s => s
    | _ => focus_langkah (DEFAULT_MAJOR_FOCUS utamaKode)
    end in
  raw_kebiasaan <- get jurusanUtamaRaw "kebiasaanPendukung" ;;
  sanitized <- sanitizeStringArray raw_kebiasaan ;;
  let kebiasaanPendukung :=
    match sanitized with
    | [] => focus_kebiasaan (DEFAULT_MAJOR_FOCUS utamaKode)
    | _ => sanitized
    end in
  receiver <- array_receiver (coalesce (get_opt result_jurusan "alternatif") (JArr [])) ;;
  mapped <- map_res alternative_of_item receiver ;;
  let alternatifDariAi := omap id mapped in
  let alternatif := collectAlternatives utamaKode alternatifDariAi in
  summary <- get aiResult "expressionSummary" ;;
  let confidenceModifier :=
    coalesce (get_opt summary "confidenceModifier") (JNum (of_Z 0)) in
  let expressionConfidence :=
    applyConfidenceModifier (ex_confidence expression) confidenceModifier in
  Ok {| expression :=
          {| headline := coalesce (get_opt summary "headline") (ex_narrative expression);
             summary_energyTone :=
               coalesce (get_opt summary "energyTone")
                        (JStr "Energi netral, tetap jaga kestabilan emosi.");
             personalityHighlight :=
               coalesce (get_opt summary "personalityHighlight")
                        (JStr "Karakter terlihat seimbang dan responsif.");
             confidence := expressionConfidence;
             baseLabel := ex_label expression;
             baseConfidence := ex_confidence expression |};
        age := ageInsight;
        manifesting :=
          {| pekerjaanKarir := manifestingKarir;
             manifesting_masaDepan := manifestingMasaDepan |};
        rekomendasiJurusan :=
          {| utama :=
               {| kode := utamaKode;
                  nama := utamaNama;
                  utama_alasan := alasanJurusan;
                  langkahFokus := langkahFokus;
                  kebiasaanPendukung := kebiasaanPendukung |};
             alternatif := alternatif |};
        meta := {| source := metaSource; cached := None |} |}.

(** The double-quote and line-feed characters. *)
Definition dq : string := String "034" EmptyString.
Definition newline : string := String "010" EmptyString.

Definition TOGETHER_MODEL : string := "meta-llama/Llama-3.3-70B-Instruct-Turbo-Free".

Definition systemPrompt : string :=
  String.concat " "
    [ "Kamu adalah peramal wajah modern yang komunikatif, fokus pada pengembangan diri.";
      "Gunakan bahasa Indonesia, tone positif, dan hindari klaim medis.";
      "Balas hanya dalam format JSON dengan struktur:";
      "{";
      "  " +:+ dq +:+ "expressionSummary" +:+ dq +:+ ": {";
      "     " +:+ dq +:+ "headline" +:+ dq +:+ ": " +:+ dq +:+ "string singkat" +:+ dq +:+ ",";
      "     " +:+ dq +:+ "energyTone" +:+ dq +:+ ": " +:+ dq +:+ "1 kalimat" +:+ dq +:+ ",";
      "     " +:+ dq +:+ "personalityHighlight" +:+ dq +:+ ": " +:+ dq +:+ "1 kalimat" +:+ dq +:+ ",";
      "     " +:+ dq +:+ "confidenceModifier" +:+ dq +:+ ": 0.0";
      "  },";
      "  " +:+ dq +:+ "manifesting" +:+ dq +:+ ": {";
      "     " +:+ dq +:+ "pekerjaanKarir" +:+ dq +:+ ": [";
      "        {" +:+ dq +:+ "title" +:+ dq +:+ ": " +:+ dq +:+ "string" +:+ dq +:+ ", " +:+ dq +:+ "description" +:+ dq +:+ ": " +:+ dq +:+ "maks 2 kalimat" +:+ dq +:+ ", " +:+ dq +:+ "indicator" +:+ dq +:+ ": " +:+ dq +:+ "strength|opportunity|warning" +:+ dq +:+ "}";
      "     ],";
      "     " +:+ dq +:+ "masaDepan" +:+ dq +:+ ": [";
      "        {" +:+ dq +:+ "title" +:+ dq +:+ ": " +:+ dq +:+ "string" +:+ dq +:+ ", " +:+ dq +:+ "description" +:+ dq +:+ ": " +:+ dq +:+ "maks 2 kalimat" +:+ dq +:+ ", " +:+ dq +:+ "indicator" +:+ dq +:+ ": " +:+ dq +:+ "strength|opportunity|warning" +:+ dq +:+ "}";
      "     ]";
      "  },";
      "  " +:+ dq +:+ "rekomendasiJurusan" +:+ dq +:+ ": {";
      "     " +:+ dq +:+ "utama" +:+ dq +:+ ": {";
      "        " +:+ dq +:+ "kode" +:+ dq +:+ ": " +:+ dq +:+ "RPL atau DKV atau TKJ" +:+ dq +:+ ",";
      "        " +:+ dq +:+ "nama" +:+ dq +:+ ": " +:+ dq +:+ "string" +:+ dq +:+ ",";
      "        " +:+ dq +:+ "alasan" +:+ dq +:+ ": [";
      "           {" +:+ dq +:+ "title" +:+ dq +:+ ": " +:+ dq +:+ "string" +:+ dq +:+ ", " +:+ dq +:+ "description" +:+ dq +:+ ": " +:+ dq +:+ "maks 2 kalimat" +:+ dq +:+ ", " +:+ dq +:+ "indicator" +:+ dq +:+ ": " +:+ dq +:+ "strength|opportunity|warning" +:+ dq +:+ "}";
      "        ],";
      "        " +:+ dq +:+ "langkahFokus" +:+ dq +:+ ": " +:+ dq +:+ "1 kalimat praktis" +:+ dq +:+ ",";
      "        " +:+ dq +:+ "kebiasaanPendukung" +:+ dq +:+ ": [" +:+ dq +:+ "bullet singkat" +:+ dq +:+ ", " +:+ dq +:+ "..." +:+ dq +:+ "]";
      "     },";
      "     " +:+ dq +:+ "alternatif" +:+ dq +:+ ": [";
      "        {" +:+ dq +:+ "kode" +:+ dq +:+ ": " +:+ dq +:+ "RPL|DKV|TKJ" +:+ dq +:+ ", " +:+ dq +:+ "nama" +:+ dq +:+ ": " +:+ dq +:+ "string" +:+ dq +:+ ", " +:+ dq +:+ "catatan" +:+ dq +:+ ": " +:+ dq +:+ "1 kalimat" +:+ dq +:+ "}";
      "     ]";
      "  }";
      "}";
      "Pastikan setiap indikator selaras dengan tone positif, hindari klaim medis.";
      "Batasi kode jurusan hanya pada RPL, DKV, atau TKJ.";
      "Variasikan jurusan utama sesuai konteks ekspresi dan usia, jangan terpaku pada satu jurusan seperti RPL saja.";
      "Berikan wawasan lintas disiplin (contoh: peluang industri, komunitas, proyek kolaboratif) agar insight terasa luas dan tidak monoton." ].

(** [payload?.choices?.[0]?.message?.content] *)
Definition message_content (payload : jsval) : jsval :=
  get_opt (get_opt (get_first_opt (get_opt payload "choices")) "message") "content".

Section Handler.
Context `{rt : Runtime}.

(** ** Narrative generator *)

(** What is sent to the chat-completion endpoint. *)
Record ChatRequest : Type := {
  chat_token : string;
  chat_model : string;
  chat_system : string;
  chat_user : string;
  chat_max_tokens : Z;
  chat_temperature : Q;
  chat_top_p : Q
}.

Definition userPrompt (narrative label confidencePercent imageHint agePromptLine
    formattedAffinity : string) : string :=
  String.concat newline
    [ "Analisis wajah berikut untuk membuat hasil face reading:";
      "- Ekspresi utama: " +:+ narrative +:+ ".";
      "- Label model: " +:+ label +:+ " dengan confidence " +:+ confidencePercent +:+ "%.";
      "- Hash singkat gambar (untuk referensi saja): " +:+ imageHint +:+ ".";
      "- Gunakan ekspresi sebagai dasar untuk menyusun manifesting karier dan masa depan.";
      "- Pertimbangkan gambaran umum face reading modern (potensi, karakter, peluang).";
      "- Fokuskan rekomendasi jurusan pada RPL, DKV, atau TKJ. Pilih satu sebagai jurusan utama dan jadikan dua lainnya sebagai alternatif dengan catatan singkat yang relevan.";
      "- Langkah fokus harus aplikatif untuk pelajar (misal: aktivitas penguatan keterampilan, proyek mini, kebiasaan belajar).";
      "- Kebiasaan pendukung gunakan format bullet pendek yang mendukung jurusan utama.";
      agePromptLine;
      "- Prioritas jurusan yang umum cocok untuk ekspresi ini: " +:+ formattedAffinity
        +:+ ". Gunakan sebagai referensi agar variasi jurusan utama tetap seimbang dan tidak monoton.";
      "Jika informasi ekspresi kurang jelas, buat analisis umum yang tetap relevan dan positif." ].

(** [generateFaceReading(token, { expression, imageHint, age })]; [call] is
    what the endpoint does with a request.  When [affinity] is a member of
    [Object.prototype] it has no [map] and the call raises before anything
    is sent. *)
Definition generateFaceReading (call : ChatRequest -> FetchOutcome) (token : string)
    (expression : ExpressionInsight) (imageHint : string) (age : AgeInsight)
  : res jsval :=
  affinity <- match record_get EXPRESSION_MAJOR_AFFINITY
                      (toLowerCase (ex_label expression)) with
              | Own codes => Ok codes
              | Inherited => Throw TypeError
              | Absent => Ok affinity_default
              end ;;
  let formattedAffinity :=
    String.concat ", "
      (List.map (fun code => major_key code +:+ " (" +:+ MAJOR_LABELS code +:+ ")")
                affinity) in
  let ageInsight := age in
  let ageRangeText :=
    formatAgeRangeText (age_range ageInsight) (age_estimated ageInsight) in
  let ageStage :=
    describeAgeStage
      (first_number (age_estimated ageInsight) (range_min (age_range ageInsight))
                    (range_max (age_range ageInsight))) in
  let ageConfidence :=
    if isFinite (age_confidence ageInsight)
    then Math_round (num_mul (age_confidence ageInsight) (of_Z 100))
    else of_Z 0 in
  let agePromptLine :=
    if negb (String.eqb ageRangeText "") then
      "- Estimasi umur visual: " +:+ ageRangeText +:+ " (keyakinan "
        +:+ Number_toString ageConfidence
        +:+ "%). Tulis rekomendasi yang relevan bagi " +:+ stage_prompt ageStage +:+ "."
    else
      "- Usia visual belum terbaca dengan pasti; gunakan bahasa yang tetap ramah untuk "
        +:+ stage_prompt ageStage +:+ "." in
  narrative <- js_String (ex_narrative expression) ;;
  let user :=
    userPrompt narrative (ex_label expression)
      (Number_toFixed 1 (num_mul (ex_confidence expression) (of_Z 100)))
      imageHint agePromptLine formattedAffinity in
  response <- fetch (call {| chat_token := token;
                             chat_model := TOGETHER_MODEL;
                             chat_system := systemPrompt;
                             chat_user := user;
                             chat_max_tokens := 700;
                             chat_temperature := (7 # 10)%Q;
                             chat_top_p := (9 # 10)%Q |}) ;;
  if negb (response_ok response) then
    let errorMessage :=
      "Together API error (" +:+ Number_toString (of_Z (status response)) +:+ ")" in
    message <-
      try_catch
        (detailText <- body_text response ;;
         match JSON_parse detailText with
         | Some parsed =>
             Ok (coalesce
                   (coalesce (get_opt (get_opt parsed "error") "message")
                             (get_opt parsed "message"))
                   (JStr errorMessage))
         | None =>
             if negb (String.eqb detailText "") then
               Ok (JStr (errorMessage +:+ ": " +:+ slice_to 180 detailText))
             else Ok (JStr errorMessage)
         end)
        (fun fetchErr => Ok (JStr errorMessage)) ;;
    text <- js_String message ;;
    Throw (Error text)
  else
    payload <- response_json response ;;
    rawText <- call_trim_opt (message_content payload) ;;
    match rawText with
    | JStr ((String _ _) as text) =>
        let cleaned := trim (strip_fences text) in
        match JSON_parse cleaned with
        | Some parsed => Ok parsed
        | None => Throw (Error "Gagal memahami hasil AI. Coba ulangi analisis.")
        end
    | _ => Throw (Error "Model tidak mengembalikan hasil.")
    end.

(** ** The handler *)

Record Env : Type := {
  NEXT_PUBLIC_HF_TOKEN : option string;
  HF_TOKEN : option string;
  TOGETHER_API_KEY : option string
}.

Record Request : Type := {
  x_forwarded_for : option string;
  x_real_ip : option string;
  (** [await req.json()] *)
  json : res jsval
}.

(** What the outside world supplies while one request is handled: the
    clock readings, and what each upstream endpoint does with a request (for
    the classifiers, a token and an image). *)
Record World : Type := {
  limiter_now : Z;
  cache_now : Z;
  iso_now : string;
  expression_call : string -> string -> FetchOutcome;
  age_call : string -> string -> FetchOutcome;
  narrative_call : ChatRequest -> FetchOutcome
}.

Inductive Response : Type :=
| Message (code : Z) (message : string)
| Failure (error : exn)
| Analysis (payload : AnalysisPayload) (generatedAt : string).

Definition response_status (r : Response) : Z :=
  match r with
  | Message code _ => code
  | Failure _ => 500
  | Analysis _ _ => 200
  end.

Definition present (token : option string) : bool :=
  match token with
  | Some t => negb (String.eqb t "")
  | None => false
  end.

Definition clientKey (req : Request) : string :=
  let forwarded := default "" (x_forwarded_for req) in
  let first := trim (List.hd "" (split_on "," forwarded)) in
  if negb (String.eqb first "") then first
  else
    match x_real_ip req with
    | Some ip => if negb (String.eqb ip "") then ip else "anonymous"
    | None => "anonymous"
    end.

(** [{ ...entry.data, meta: { ...entry.data.meta, cached: true } }] *)
Definition mark_cached (p : AnalysisPayload) : AnalysisPayload :=
  {| expression := expression p;
     age := age p;
     manifesting := manifesting p;
     rekomendasiJurusan := rekomendasiJurusan p;
     meta := {| source := source (meta p); cached := Some true |} |}.

(** The full pipeline of [POST], from the classifier calls to the
    normalized payload.  [Buffer.from(base64Data, "base64")] accepts any
    string, and the classifiers are sent its result: the image is identified
    here by the payload it is decoded from. *)
Definition analyse (w : World) (hfToken togetherToken base64Data : string)
  : res AnalysisPayload :=
  expression <- detectExpression (expression_call w hfToken base64Data) ;;
  ageInsight <- detectAge (age_call w hfToken base64Data) (Some expression) ;;
  let generated :=
    match generateFaceReading (narrative_call w) togetherToken expression
            (slice_to 64 base64Data) ageInsight with
    | Ok aiResult => (aiResult, ai)
    | Throw err => (buildFallbackAnalysis expression, fallback)
    end in
  normalizeResult (fst generated) expression ageInsight (snd generated).

(** What the handler reads from the request body: [image], and the part
    of it between the first and the second comma. *)
Inductive ImageInput : Type :=
| Unreadable (error : exn)
| Missing
| Malformed
| Payload (base64Data : string).

Definition readImage (req : Request) : ImageInput :=
  match body <- json req ;; get body "image" with
  | Throw error => Unreadable error
  | Ok (JStr ((String _ _) as image)) =>
      match List.nth_error (split_on "," image) 1 with
      | Some ((String _ _) as base64Data) => Payload base64Data
      | _ => Malformed
      end
  | Ok _ => Missing
  end.

(** The cache entry that answers a request at [now], if any. *)
Definition cache_lookup (cache : gmap string CacheEntry) (imageHash : string)
    (now : Z) : option CacheEntry :=
  match cache !! imageHash with
  | Some cachedEntry =>
      if (now - timestamp cachedEntry <? CACHE_TTL_MS)%Z then Some cachedEntry
      else None
  | None => None
  end.

(** [process.env.NEXT_PUBLIC_HF_TOKEN ?? process.env.HF_TOKEN] *)
Definition hfToken (env : Env) : option string :=
  match NEXT_PUBLIC_HF_TOKEN env with
  | Some t => Some t
  | None => HF_TOKEN env
  end.

(** Both credentials are set. *)
Definition configured (env : Env) : Prop :=
  present (hfToken env) = true /\ present (TOGETHER_API_KEY env) = true.

Definition POST (env : Env) (req : Request) (w : World) (s : State)
  : State * Response :=
  let togetherToken := TOGETHER_API_KEY env in
  if negb (present (hfToken env)) || negb (present togetherToken) then
    (s, Message 500
          "Konfigurasi API belum lengkap. Tambahkan NEXT_PUBLIC_HF_TOKEN dan TOGETHER_API_KEY pada environment.")
  else
    let key := clientKey req in
    match readImage req with
    | Unreadable error => (s, Failure error)
    | Missing => (s, Message 400 "Gambar tidak ditemukan di permintaan.")
    | Malformed => (s, Message 400 "Format gambar tidak valid.")
    | Payload base64Data =>
        let checked := checkRateLimit key (limiter_now w) (rateBuckets s) in
        let limited :=
          {| rateBuckets := fst checked; analysisCache := analysisCache s |} in
        if snd checked then
          (limited,
           Message 429
             "Terlalu banyak analisis dalam waktu singkat. Coba lagi dalam beberapa detik.")
        else
          let imageHash := sha256_hex base64Data in
          let now := cache_now w in
          match cache_lookup (analysisCache s) imageHash now with
          | Some cachedEntry =>
              (limited, Analysis (mark_cached (data cachedEntry)) (iso_now w))
          | None =>
              match analyse w (default "" (hfToken env))
                      (default "" (TOGETHER_API_KEY env)) base64Data with
              | Ok basePayload =>
                  ({| rateBuckets := fst checked;
                      analysisCache :=
                        <[imageHash := {| timestamp := now; data := basePayload |}]>
                          (analysisCache s) |},
                   Analysis basePayload (iso_now w))
              | Throw error => (limited, Failure error)
              end
          end
    end.

(** A sequence of requests, each with what the world does meanwhile. *)
Fixpoint serve (env : Env) (requests : list (Request * World)) (s : State)
  : State * list Response :=
  match requests with
  | [] => (s, [])
  | (req, w) :: rest =>
      let step := POST env req w s in
      let later := serve env rest (fst step) in
      (fst later, snd step :: snd later)
  end.

End Handler.

(** ** Vocabulary of the statements *)

Definition rejected (r : Response) : bool := (response_status r =? 429)%Z.

(** A request of the client [key] that passes the image checks. *)
Definition same_client (key : string) (rw : Request * World) : Prop :=
  clientKey (fst rw) = key
  /\ exists base64Data, readImage (fst rw) = Payload base64Data.

(** The ways the generator's answer is unusable: an error status, a body
    without message content, a content that is not JSON. *)
Inductive NarrativeFailure `{rt : Runtime} : FetchOutcome -> Prop :=
| failure_status (r : HttpResponse) :
    response_ok r = false ->
    NarrativeFailure (Responded r)
| failure_empty (r : HttpResponse) (payload : jsval) :
    response_ok r = true ->
    response_json r = Ok payload ->
    call_trim_opt (message_content payload) = Ok JUndefined
    \/ call_trim_opt (message_content payload) = Ok (JStr "") ->
    NarrativeFailure (Responded r)
| failure_unparseable (r : HttpResponse) (payload : jsval) (text : string) :
    response_ok r = true ->
    response_json r = Ok payload ->
    call_trim_opt (message_content payload) = Ok (JStr text) ->
    JSON_parse (trim (strip_fences text)) = None ->
    NarrativeFailure (Responded r).

(** The shape that [AiStructuredResult] declares, read the way the handler
    reads it: a text field is absent, null or a string; a list field is
    absent, null or an array; a value that is not an object has no fields. *)
Definition optional (shape : jsval -> bool) (v : jsval) : bool :=
  nullish v || shape v.

Definition is_string (v : jsval) : bool :=
  match v with JStr _ => true | _ => false end.

Definition array_of (shape : jsval -> bool) (v : jsval) : bool :=
  match v with
  | JArr items => forallb shape items
  | _ => false
  end.

Definition text_field (v : jsval) (k : string) : bool :=
  optional is_string (get_opt v k).

Definition point_shape (v : jsval) : bool :=
  text_field v "title" && text_field v "description".

Definition alternative_shape (v : jsval) : bool :=
  text_field v "kode" && text_field v "nama" && text_field v "catatan".

Definition utama_shape (v : jsval) : bool :=
  text_field v "kode" && text_field v "nama"
  && optional (array_of point_shape) (get_opt v "alasan")
  && text_field v "langkahFokus"
  && optional (array_of (optional is_string)) (get_opt v "kebiasaanPendukung").

Definition result_shape (v : jsval) : bool :=
  negb (nullish v)
  && optional (array_of point_shape) (get_opt (get_opt v "manifesting") "pekerjaanKarir")
  && optional (array_of point_shape) (get_opt (get_opt v "manifesting") "masaDepan")
  && utama_shape (get_opt (get_opt v "rekomendasiJurusan") "utama")
  && optional (array_of alternative_shape)
       (get_opt (get_opt v "rekomendasiJurusan") "alternatif").

(** The codes of a recommendation: the primary one, then the alternatives. *)
Definition recommended_codes (p : AnalysisPayload) : list MajorCode :=
  kode (utama (rekomendasiJurusan p))
    :: List.map alt_kode (alternatif (rekomendasiJurusan p)).

(** [result.rekomendasiJurusan.utama.kode] *)
Definition primary_code (result : jsval) : res jsval :=
  jurusan <- get result "rekomendasiJurusan" ;;
  main <- get jurusan "utama" ;;
  get main "kode".

(** What both loops maintain: [seenCodes] is the primary code followed by
    the codes pushed so far, without repetition. *)
Definition alternatives_inv (utamaKode : MajorCode)
    (acc : list Alternatif * list MajorCode) : Prop :=
  snd acc = utamaKode :: List.map alt_kode (fst acc) /\ NoDup (snd acc).

(** Where the template lookup can end: in one of the templates, or in a
    member of [Object.prototype] ([None]). *)
Definition resolutions : list (option FallbackTemplate) :=
  None :: List.map (fun entry => Some (snd entry)) FALLBACK_TEMPLATES.

(** ** A stand-in runtime and sample inputs for concrete runs

    [sample_runtime] answers like the host on the few texts and numbers the
    runs below use: the JSON texts of its table, integers printed in
    decimal, and the payload itself in place of its digest. *)

Definition quoted (s : string) : string :=
  String "034" EmptyString +:+ s +:+ String "034" EmptyString.

(** [{"choices":[{"message":{"content":"null"}}]}] *)
Definition envelope_null : string :=
  "{" +:+ quoted "choices" +:+ ":[{" +:+ quoted "message" +:+ ":{"
      +:+ quoted "content" +:+ ":" +:+ quoted "null" +:+ "}}]}".

(** [[{"label":"n/a","score":0.9}]] *)
Definition body_age_na : string :=
  "[{" +:+ quoted "label" +:+ ":" +:+ quoted "n/a" +:+ ","
       +:+ quoted "score" +:+ ":0.9}]".

(** [[{"label":"constructor","score":0.9}]] *)
Definition body_label_constructor : string :=
  "[{" +:+ quoted "label" +:+ ":" +:+ quoted "constructor" +:+ ","
       +:+ quoted "score" +:+ ":0.9}]".

Definition sample_parse (text : string) : option jsval :=
  assoc text
    [ ("null", JNull);
      ("[]", JArr []);
      ("{}", JObj []);
      (envelope_null,
       JObj [ ("choices",
               JArr [ JObj [ ("message", JObj [ ("content", JStr "null") ]) ] ]) ]);
      (body_age_na,
       JArr [ JObj [ ("label", JStr "n/a"); ("score", JNum (Finite (9 # 10)%Q)) ] ]);
      (body_label_constructor,
       JArr [ JObj [ ("label", JStr "constructor");
                     ("score", JNum (Finite (9 # 10)%Q)) ] ]) ].

Definition sample_number_text (n : jsnum) : string :=
  match n with
  | Finite q => pretty (Qfloor q)
  | PosInfinity => "Infinity"
  | NegInfinity => "-Infinity"
  | NaN => "NaN"
  end.

Definition sample_runtime : Runtime :=
  {| JSON_parse := sample_parse;
     sha256_hex := fun payload => payload;
     Number_toString := sample_number_text;
     Number_toFixed := fun digits n => sample_number_text (Math_round n);
     StringToNumber := fun _ => NaN;
     ObjectToNumber := fun _ => Ok NaN;
     ObjectToString := fun _ => Ok "[object Object]" |}.

Definition sample_env : Env :=
  {| NEXT_PUBLIC_HF_TOKEN := Some "hf_token";
     HF_TOKEN := None;
     TOGETHER_API_KEY := Some "together_key" |}.

Definition request_with (image : string) : Request :=
  {| x_forwarded_for := Some "203.0.113.7, 10.0.0.1";
     x_real_ip := None;
     json := Ok (JObj [ ("image", JStr image) ]) |}.

Definition sample_request : Request := request_with "data:image/png;base64,AAAA".

(** [{ image: "data:image/png;base64," }]: nothing after the comma. *)
Definition empty_payload_request : Request :=
  request_with "data:image/png;base64,".

Definition http (code : Z) (text : string) : FetchOutcome :=
  Responded {| status := code; body_text := Ok text |}.

(** Both classifiers answer with an error status and the generator is
    unreachable: every stage degrades. *)
Definition degraded_world (now : Z) : World :=
  {| limiter_now := now;
     cache_now := now;
     iso_now := "2025-01-01T00:00:00.000Z";
     expression_call := fun _ _ => http 503 "loading";
     age_call := fun _ _ => http 503 "loading";
     narrative_call := fun _ => Rejected NetworkError |}.

(** The classifiers degrade and the generator answers with an error
    status. *)
Definition failing_generator_world (now : Z) : World :=
  {| limiter_now := now;
     cache_now := now;
     iso_now := "2025-01-01T00:00:00.000Z";
     expression_call := fun _ _ => http 503 "loading";
     age_call := fun _ _ => http 503 "loading";
     narrative_call := fun _ => http 500 "oops" |}.

(** The generator answers 200 and its message content is the JSON text
    [null]. *)
Definition null_content_world (now : Z) : World :=
  {| limiter_now := now;
     cache_now := now;
     iso_now := "2025-01-01T00:00:00.000Z";
     expression_call := fun _ _ => http 200 "[]";
     age_call := fun _ _ => http 503 "loading";
     narrative_call := fun _ => http 200 envelope_null |}.

Definition empty_state : State :=
  {| rateBuckets := ∅; analysisCache := ∅ |}.

Definition sample_expression : ExpressionInsight :=
  {| ex_narrative := JStr "Wajah tampak netral dan tenang.";
     ex_confidence := Finite (9 # 10)%Q;
     ex_label := "neutral" |}.

(** The insight [detectExpression] builds from a classifier whose top label
    is [constructor]. *)
Definition constructor_expression : ExpressionInsight :=
  {| ex_narrative := JHost;
     ex_confidence := Finite (9 # 10)%Q;
     ex_label := "constructor" |}.

(** An insight whose label names a member of [Object.prototype]. *)
Definition inherited_insight (narrative : jsval) (confidence : jsnum)
  : ExpressionInsight :=
  {| ex_narrative := narrative; ex_confidence := confidence; ex_label := "constructor" |}.

Definition sample_age : AgeInsight :=
  {| age_label := "16-20";
     age_confidence := Finite (7 # 20)%Q;
     age_estimated := Some (of_Z 18);
     age_range := {| range_min := Some (of_Z 16); range_max := Some (of_Z 20) |};
     age_headline := "Perkiraan usia 16–20 tahun";
     age_narrative := "" |}.

Definition full_bucket_state : State :=
  {| rateBuckets := {[ "203.0.113.7" := [1; 2; 3; 4; 5; 6]%Z ]};
     analysisCache := ∅ |}.

Definition seven_requests : list (Request * World) :=
  List.map (fun now => (sample_request, degraded_world now)) [1; 2; 3; 4; 5; 6; 7]%Z.

(** What the degraded classifiers lead to: the default expression insight
    of the error-status path and the age preset of its label. *)
Definition degraded_expression : ExpressionInsight := default_insight (42 # 100).

Definition degraded_age : AgeInsight :=
  Eval vm_compute in
    match @buildFallbackAgeInsight sample_runtime (Some degraded_expression) with
    | Ok insight => insight
    | Throw _ => sample_age
    end.

(** A generator result with most fields missing. *)
Definition partial_result : jsval :=
  JObj [ ("rekomendasiJurusan",
          JObj [ ("utama", JObj [ ("kode", JStr "dkv") ]);
                 ("alternatif", JArr [ JNull; JObj [ ("catatan", JStr "ok") ] ]) ]) ].

(** The expression classifier reports the label [constructor] and the age
    classifier answers with an error status. *)
Definition constructor_label_world (now : Z) : World :=
  {| limiter_now := now;
     cache_now := now;
     iso_now := "2025-01-01T00:00:00.000Z";
     expression_call := fun _ _ => http 200 body_label_constructor;
     age_call := fun _ _ => http 503 "loading";
     narrative_call := fun _ => Rejected NetworkError |}.

(** [[{"label":"20-29","score":0.8}]] *)
Definition body_age_adult : string :=
  "[{" +:+ quoted "label" +:+ ":" +:+ quoted "20-29" +:+ ","
       +:+ quoted "score" +:+ ":0.8}]".

(** [sample_runtime] with [body_age_adult] in its table. *)
Definition adult_runtime : Runtime :=
  {| JSON_parse := fun text =>
       if String.eqb text body_age_adult
       then Some (JArr [ JObj [ ("label", JStr "20-29");
                                ("score", JNum (Finite (8 # 10)%Q)) ] ])
       else sample_parse text;
     sha256_hex := fun payload => payload;
     Number_toString := sample_number_text;
     Number_toFixed := fun digits n => sample_number_text (Math_round n);
     StringToNumber := fun _ => NaN;
     ObjectToNumber := fun _ => Ok NaN;
     ObjectToString := fun _ => Ok "[object Object]" |}.

(** The expression classifier reports [constructor] and the age classifier
    answers with a usable label. *)
Definition constructor_label_adult_world (now : Z) : World :=
  {| limiter_now := now;
     cache_now := now;
     iso_now := "2025-01-01T00:00:00.000Z";
     expression_call := fun _ _ => http 200 body_label_constructor;
     age_call := fun _ _ => http 200 body_age_adult;
     narrative_call := fun _ => http 200 envelope_null |}.

(** ** The page: what the client does with a payload

    The pure helpers of the page component: the mood snippet shown for an
    expression label, the upgrade of results stored by an earlier release,
    and the update of the session history. *)

Record MoodSnippet : Type := {
  mood_title : string;
  mood_message : string;
  mood_emoji : string
}.

(** [MOOD_SNIPPETS.unknown] *)
Definition mood_unknown : MoodSnippet :=
  {| mood_title := "Mood Belum Jelas";
     mood_message :=
       "Coba ambil foto lagi dengan pencahayaan lebih terang supaya AI bisa membaca ekspresi dengan jelas.";
     mood_emoji := "*" |}.

Definition MOOD_SNIPPETS : list (string * MoodSnippet) :=
  [ ("happiness",
     {| mood_title := "Mood Bahagia";
        mood_message :=
          "Wih, cerita dong! Energi kamu lagi cerah banget, bagikan kabar baikmu.";
        mood_emoji := ":)" |});
    ("sadness",
     {| mood_title := "Mood Lagi Teduh";
        mood_message :=
          "Semangat ya, tarik napas dalam-dalam. Kamu boleh rehat sebentar, nanti bangkit lagi.";
        mood_emoji := "<3" |});
    ("anger",
     {| mood_title := "Mood Super Fokus";
        mood_message :=
          "Salurkan tegasnya energi ke tugas penting biar hasilnya maksimal.";
        mood_emoji := "!!" |});
    ("surprise",
     {| mood_title := "Mood Penasaran";
        mood_message :=
          "Seru nih! Catat ide-ide baru sebelum menghilang dan eksplor pelan-pelan.";
        mood_emoji := ":o" |});
    ("fear",
     {| mood_title := "Mood Waspada";
        mood_message :=
          "Langkah kecil tetap kemajuan. Kamu aman, ambil satu progres dulu.";
        mood_emoji := "^_^" |});
    ("disgust",
     {| mood_title := "Mood Perfeksionis";
        mood_message :=
          "Standar kamu tinggi banget. Pilih satu hal untuk diperbaiki, sisanya biarkan mengalir.";
        mood_emoji := ":|" |});
    ("contempt",
     {| mood_title := "Mood Kritis Tajam";
        mood_message :=
          "Gunakan insight kamu buat kasih solusi bareng apresiasi ya.";
        mood_emoji := "[]" |});
    ("neutral",
     {| mood_title := "Mood Lagi Santai";
        mood_message :=
          "Tetap jaga energi seimbang, kamu siap adaptasi kapan pun dibutuhkan.";
        mood_emoji := "c:" |});
    ("unknown", mood_unknown) ].

(** [getMoodSnippet(label)].  [None] is the member of [Object.prototype]
    found under the lowercased label. *)
Definition getMoodSnippet (label : option string) : option MoodSnippet :=
  match label with
  | None | Some EmptyString => Some mood_unknown
  | Some label =>
      match record_get MOOD_SNIPPETS (toLowerCase label) with
      | Own snippet => Some snippet
      | Inherited => None
      | Absent => Some mood_unknown
      end
  end.

(** [k in v]: raises on a primitive; the names tested here are own
    properties of parsed objects only. *)
Definition has_property (k : string) (v : jsval) : res bool :=
  match v with
  | JObj fields => Ok (match assoc k fields with Some _ => true | None => false end)
  | JArr _ | JHost => Ok false
  | _ => Throw TypeError
  end.

(** The own enumerable properties that [{ ...v }] copies. *)
Definition own_entries (v : jsval) : list (string * jsval) :=
  match v with
  | JObj fields => fields
  | JArr items => List.combine (List.map pretty (seq 0 (length items))) items
  | _ => []
  end.

(** The stand-in for a missing [rekomendasiSekolah]. *)
Definition LEGACY_DEFAULT : jsval :=
  JObj [ ("tipe", JStr "SMK");
         ("alasan", JArr []);
         ("langkahCepat", JStr "Fokus pada pondasi belajar konsisten.");
         ("kebiasaanPendukung", JArr []) ].

(** [upgradeLegacyResult(result)].  The page's [MAJOR_LABELS] has the three
    entries of the route's. *)
Definition upgradeLegacyResult (result : jsval) : res jsval :=
  current <- has_property "rekomendasiJurusan" result ;;
  if current then Ok result
  else
    let rekomendasiSekolah := get_opt result "rekomendasiSekolah" in
    let rest :=
      List.filter (fun entry => negb (String.eqb (fst entry) "rekomendasiSekolah"))
                  (own_entries result) in
    let fallbackLegacy := coalesce rekomendasiSekolah LEGACY_DEFAULT in
    let mapped :=
      match get_opt fallbackLegacy "tipe" with
      | JStr tipe => if String.eqb tipe "SMK" then TKJ else RPL
      | _ => RPL
      end in
    Ok (JObj
          (rest
           ++ [ ("rekomendasiJurusan",
                 JObj [ ("utama",
                         JObj [ ("kode", JStr (major_key mapped));
                                ("nama", JStr (MAJOR_LABELS mapped));
                                ("alasan", get_opt fallbackLegacy "alasan");
                                ("langkahFokus", get_opt fallbackLegacy "langkahCepat");
                                ("kebiasaanPendukung",
                                 get_opt fallbackLegacy "kebiasaanPendukung") ]);
                        ("alternatif", JArr []) ]) ])).

Record SessionEntry : Type := {
  entry_id : string;
  entry_image : string;
  entry_result : jsval
}.

(** The updater that [requestAnalysis] hands to [setHistory]:
    [[entry, ...prev.filter((item) => item.image !== thumb)].slice(0, 5)]. *)
Definition updateHistory (entry : SessionEntry) (prev : list SessionEntry)
  : list SessionEntry :=
  let withoutDuplicate :=
    List.filter (fun item => negb (String.eqb (entry_image item) (entry_image entry)))
                prev in
  List.firstn 5 (entry :: withoutDuplicate).

(** ** The earlier variants of the route

    The variants without the age classifier answer a degraded expression
    classifier with another sentence, confidence and label; the rest of
    [detectExpression] is the same. *)

Module Legacy.
Section Adapters.
Context `{rt : Runtime}.

Definition DEFAULT_EXPRESSION : string :=
  "Ekspresi wajah dominan tidak terdeteksi dengan jelas. Coba ambil ulang foto dengan pencahayaan lebih terang dan wajah menghadap kamera.".

Definition default_insight : ExpressionInsight :=
  {| ex_narrative := JStr DEFAULT_EXPRESSION;
     ex_confidence := Finite (35 # 100);
     ex_label := "unknown" |}.

Definition detectExpression (call : FetchOutcome) : res ExpressionInsight :=
  response <- fetch call ;;
  if negb (response_ok response) then
    detail <- body_text response ;;
    Ok default_insight
  else
    data <- response_json response ;;
    match data with
    | JArr ((_ :: _) as items) =>
        sorted <- sort_by by_score items ;;
        let top := List.hd JUndefined sorted in
        top_label <- get top "label" ;;
        match top_label with
        | JStr label =>
            let refinedLabel :=
              match record_get EXPRESSION_LABELS (toLowerCase label) with
              | Own sentence => JStr sentence
              | Inherited => JHost
              | Absent => JNull
              end in
            top_score <- get top "score" ;;
            narrative <-
              (if nullish refinedLabel then
                 n <- js_Number top_score ;;
                 Ok (JStr ("Ekspresi dominan: " +:+ label
                             +:+ " dengan tingkat keyakinan "
                             +:+ Number_toFixed 0 (num_mul n (of_Z 100)) +:+ "%."))
               else Ok refinedLabel) ;;
            n <- js_Number top_score ;;
            Ok {| ex_narrative := narrative;
                  ex_confidence := clamp01 n;
                  ex_label := label |}
        | _ => Throw TypeError
        end
    | _ => Ok default_insight
    end.

End Adapters.
End Legacy.

(** ** Further vocabulary *)

(** No bucket holds more timestamps than the limiter lets through in one
    window. *)
Definition bounded_buckets (buckets : gmap string (list Z)) : Prop :=
  forall key bucket,
    buckets !! key = Some bucket -> (length bucket <= RATE_LIMIT_MAX)%nat.

(** Every stored payload recommends each track once. *)
Definition sound_cache (cache : gmap string CacheEntry) : Prop :=
  forall imageHash entry,
    cache !! imageHash = Some entry ->
    Permutation (recommended_codes (data entry)) MAJOR_CODES.

Definition covers_tracks (r : Response) : Prop :=
  match r with
  | Analysis payload _ => Permutation (recommended_codes payload) MAJOR_CODES
  | _ => True
  end.

(** The message of the 500 that a missing credential is answered with. *)
Definition NOT_CONFIGURED : string :=
  "Konfigurasi API belum lengkap. Tambahkan NEXT_PUBLIC_HF_TOKEN dan TOGETHER_API_KEY pada environment.".


Definition named_and_noted (alt : Alternatif) : Prop :=
  alt_nama alt <> "" /\ catatan alt <> "".

(** A probability, or the NaN that arithmetic on a score that is no number
    yields. *)
Definition unit_or_NaN (n : jsnum) : Prop :=
  n = NaN \/ (num_le (of_Z 0) n = true /\ num_le n (of_Z 1) = true).

(** A range with whole, non-negative bounds in order, in which an upper
    bound never comes without a lower one. *)
Definition ordered_range (range : AgeRange) : Prop :=
  match range_min range, range_max range with
  | Some lo, Some hi => exists a b : Z, lo = of_Z a /\ hi = of_Z b /\ (0 <= a <= b)%Z
  | Some lo, None => exists a : Z, lo = of_Z a /\ (0 <= a)%Z
  | None, Some _ => False
  | None, None => True
  end.

(** An entry as the expression classifier's contract has it: a label and a
    finite score. *)
Definition classifier_entry (item : jsval) : bool :=
  is_string (get_opt item "label")
  && match get_opt item "score" with JNum (Finite _) => true | _ => false end.

Definition score_of (item : jsval) : Q :=
  match get_opt item "score" with JNum (Finite q) => q | _ => 0%Q end.

Definition label_of (item : jsval) : string :=
  match get_opt item "label" with JStr s => s | _ => "" end.

(** The head of the list has the greatest score. *)
Definition top_first (items : list jsval) : Prop :=
  match items with
  | [] => True
  | top :: others => Forall (fun item => (score_of item <= score_of top)%Q) others
  end.

(** The Markdown code fence. *)
Definition fence : string := "```".

(** ** Further sample inputs *)

(** An empty [NEXT_PUBLIC_HF_TOKEN] beside a usable [HF_TOKEN]. *)
Definition masked_env : Env :=
  {| NEXT_PUBLIC_HF_TOKEN := Some "";
     HF_TOKEN := Some "hf_token";
     TOGETHER_API_KEY := Some "together_key" |}.

(** A request without [x-forwarded-for] and with an empty [x-real-ip]. *)
Definition direct_request : Request :=
  {| x_forwarded_for := None;
     x_real_ip := Some "";
     json := Ok (JObj [ ("image", JStr "data:image/png;base64,AAAA") ]) |}.

Definition sample_payload : AnalysisPayload :=
  {| expression :=
       {| headline := JStr "Wajah tampak netral dan tenang.";
          summary_energyTone := JStr "Energi netral, tetap jaga kestabilan emosi.";
          personalityHighlight := JStr "Karakter terlihat seimbang dan responsif.";
          confidence := Finite (9 # 10)%Q;
          baseLabel := "neutral";
          baseConfidence := Finite (9 # 10)%Q |};
     age := sample_age;
     manifesting := {| pekerjaanKarir := []; manifesting_masaDepan := [] |};
     rekomendasiJurusan :=
       {| utama :=
            {| kode := RPL;
               nama := MAJOR_LABELS RPL;
               utama_alasan := [];
               langkahFokus := focus_langkah (DEFAULT_MAJOR_FOCUS RPL);
               kebiasaanPendukung := focus_kebiasaan (DEFAULT_MAJOR_FOCUS RPL) |};
          alternatif := [default_alternative DKV; default_alternative TKJ] |};
     meta := {| source := ai; cached := None |} |}.

(** A cache whose only entry was stored at time 0. *)
Definition stale_cache_state : State :=
  {| rateBuckets := ∅;
     analysisCache := {[ "AAAA" := {| timestamp := 0; data := sample_payload |} ]} |}.

(** What the pipeline computes when every upstream service is down. *)
Definition degraded_payload : AnalysisPayload :=
  Eval vm_compute in
    match @analyse sample_runtime (degraded_world 600000) "hf_token" "together_key" "AAAA" with
    | Ok payload => payload
    | Throw _ => sample_payload
    end.

(** An age label of 309 digits: 1 followed by 308 zeros. *)
Definition huge_label : string :=
  String.concat "" ("1" :: List.repeat "0" 308).

(** The alternatives of a generator result: one with a blank note, one with
    a code that names no track, and two for TKJ. *)
Definition noted_items : list jsval :=
  [ JObj [ ("kode", JStr "TKJ"); ("catatan", JStr "  ") ];
    JObj [ ("kode", JStr "XYZ"); ("catatan", JStr " from the generator ") ];
    JObj [ ("kode", JStr "tkj"); ("catatan", JStr "second") ];
    JObj [ ("kode", JStr "TKJ"); ("nama", JStr "Jaringan"); ("catatan", JStr "third") ] ].

Definition noted_result : jsval :=
  JObj [ ("expressionSummary", JObj []);
         ("manifesting", JObj []);
         ("rekomendasiJurusan",
          JObj [ ("utama", JObj [ ("kode", JStr "DKV") ]);
                 ("alternatif", JArr noted_items) ]) ].

(** What [noted_result] normalizes to. *)
Definition noted_payload : AnalysisPayload :=
  Eval vm_compute in
    match normalizeResult noted_result sample_expression sample_age ai with
    | Ok payload => payload
    | Throw _ => sample_payload
    end.

(** [[{"label":"sadness","score":0.2},{"label":"happiness","score":0.7}]] *)
Definition body_two_labels : string :=
  "[{" +:+ quoted "label" +:+ ":" +:+ quoted "sadness" +:+ ","
       +:+ quoted "score" +:+ ":0.2},{"
       +:+ quoted "label" +:+ ":" +:+ quoted "happiness" +:+ ","
       +:+ quoted "score" +:+ ":0.7}]".

Definition two_labels : list jsval :=
  [ JObj [ ("label", JStr "sadness"); ("score", JNum (Finite (2 # 10)%Q)) ];
    JObj [ ("label", JStr "happiness"); ("score", JNum (Finite (7 # 10)%Q)) ] ].

(** [sample_runtime] with one more JSON text in its table. *)
Definition ranking_runtime : Runtime :=
  {| JSON_parse := fun text =>
       if String.eqb text body_two_labels then Some (JArr two_labels)
       else sample_parse text;
     sha256_hex := fun payload => payload;
     Number_toString := sample_number_text;
     Number_toFixed := fun digits n => sample_number_text (Math_round n);
     StringToNumber := fun _ => NaN;
     ObjectToNumber := fun _ => Ok NaN;
     ObjectToString := fun _ => Ok "[object Object]" |}.

(** A result as the release with [rekomendasiSekolah] stored it. *)
Definition legacy_fields : list (string * jsval) :=
  [ ("expression", JObj [ ("baseLabel", JStr "neutral") ]);
    ("rekomendasiSekolah",
     JObj [ ("tipe", JStr "SMA");
            ("alasan", JArr []);
            ("langkahCepat", JStr "Belajar rutin.");
            ("kebiasaanPendukung", JArr [ JStr "Membaca" ]) ]);
    ("generatedAt", JStr "2024-01-01T00:00:00.000Z") ].

Definition legacy_result : jsval := JObj legacy_fields.

Definition session (image : string) : SessionEntry :=
  {| entry_id := image; entry_image := image; entry_result := legacy_result |}.

Definition five_sessions : list SessionEntry :=
  [session "a"; session "b"; session "c"; session "d"; session "e"].

(** * Properties *)

(** ** The tables

    [table.default] is the entry under the key [default]. *)

Lemma default_entries :
  assoc "default" FALLBACK_TEMPLATES = Some template_default
  /\ assoc "default" FALLBACK_AGE_PRESETS = Some preset_default
  /\ assoc "default" EXPRESSION_MAJOR_AFFINITY = Some affinity_default.
Proof. repeat split; reflexivity. Qed.

(** Of the names a plain object inherits, only the all-lowercase ones can
    be the result of [toLowerCase]; none of the tables has an own entry
    under them. *)
Lemma inherited_lowercase_keys :
  List.filter (fun key => String.eqb (toLowerCase key) key) Object_prototype_keys
  = ["constructor"; "__proto__"]
  /\ record_get FALLBACK_TEMPLATES "constructor" = Inherited
  /\ record_get FALLBACK_AGE_PRESETS "constructor" = Inherited
  /\ record_get EXPRESSION_MAJOR_AFFINITY "constructor" = Inherited
  /\ record_get EXPRESSION_LABELS "constructor" = Inherited.
Proof. repeat split; reflexivity. Qed.

(** ** The error monad *)

Lemma bind_Ok {A B : Type} (m : res A) (k : A -> res B) (b : B) :
  bind m k = Ok b -> exists a, m = Ok a /\ k a = Ok b.
Proof. destruct m as [a|e]; simpl; [eauto|discriminate]. Qed.

Lemma bind_returns {A B : Type} (m : res A) (k : A -> res B) :
  returns m -> (forall a, returns (k a)) -> returns (bind m k).
Proof. intros [a ->] Hk. apply Hk. Qed.

Lemma map_res_returns {A B : Type} (f : A -> res B) (l : list A) :
  Forall (fun x => returns (f x)) l -> returns (map_res f l).
Proof.
  induction 1 as [|x rest [y Hy] _ [ys Hys]]; simpl.
  - eexists; reflexivity.
  - rewrite Hy. simpl. rewrite Hys. eexists; reflexivity.
Qed.

(** Peels the binds of a computation known to return. *)
Ltac bind_inv H :=
  repeat first
    [ apply bind_Ok in H as (? & ? & H); cbv beta in H
    | progress cbv zeta in H ].

(** ** Alternatives of a recommendation *)

Lemma seen_In (code : MajorCode) (seenCodes : list MajorCode) :
  seen code seenCodes = true <-> In code seenCodes.
Proof.
  unfold seen. rewrite existsb_exists. split.
  - intros (c & Hc & Heq). apply bool_decide_eq_true in Heq. subst. exact Hc.
  - intros Hin. exists code. split; [exact Hin|]. apply bool_decide_eq_true. reflexivity.
Qed.

Lemma push_unseen_inv (utamaKode : MajorCode) (acc : list Alternatif * list MajorCode)
    (alt : Alternatif) :
  alternatives_inv utamaKode acc ->
  alternatives_inv utamaKode (push_unseen acc alt)
  /\ In (alt_kode alt) (snd (push_unseen acc alt))
  /\ (forall code, In code (snd acc) -> In code (snd (push_unseen acc alt))).
Proof.
  intros [Hcodes Hnodup]. unfold push_unseen.
  destruct (seen (alt_kode alt) (snd acc)) eqn:Hseen.
  - apply seen_In in Hseen. repeat split; auto.
  - assert (Hfresh : ~ In (alt_kode alt) (snd acc)).
    { intros Hin. apply seen_In in Hin. congruence. }
    unfold alternatives_inv. cbn [fst snd]. repeat split.
    + rewrite List.map_app, Hcodes. reflexivity.
    + apply NoDup_app. split; [exact Hnodup|]. split.
      * intros x Hx Hx'. apply list_elem_of_In in Hx, Hx'. simpl in Hx'.
        destruct Hx' as [<-|[]]. contradiction.
      * apply NoDup_singleton.
    + apply in_or_app. right. left. reflexivity.
    + intros code Hin. apply in_or_app. left. exact Hin.
Qed.

Lemma fold_push_unseen_inv (utamaKode : MajorCode) (alts : list Alternatif)
    (acc : list Alternatif * list MajorCode) :
  alternatives_inv utamaKode acc ->
  alternatives_inv utamaKode (fold_left push_unseen alts acc)
  /\ (forall code, In code (snd acc) -> In code (snd (fold_left push_unseen alts acc))).
Proof.
  revert acc. induction alts as [|alt rest IH]; intros acc Hinv; simpl.
  - split; auto.
  - destruct (push_unseen_inv utamaKode acc alt Hinv) as (Hinv' & _ & Hmono).
    destruct (IH _ Hinv') as [Hfinal Hmono']. split; auto.
Qed.

Lemma fold_defaults_inv (utamaKode : MajorCode) (codes : list MajorCode)
    (acc : list Alternatif * list MajorCode) :
  alternatives_inv utamaKode acc ->
  let final :=
    fold_left (fun acc code => push_unseen acc (default_alternative code)) codes acc in
  alternatives_inv utamaKode final
  /\ (forall code, In code (snd acc) \/ In code codes -> In code (snd final)).
Proof.
  revert acc. induction codes as [|c rest IH]; intros acc Hinv; simpl.
  - split; [exact Hinv|]. intros code [H|[]]. exact H.
  - destruct (push_unseen_inv utamaKode acc (default_alternative c) Hinv)
      as (Hinv' & Hin & Hmono).
    destruct (IH _ Hinv') as [Hfinal Hall]. split; [exact Hfinal|].
    intros code [H|[<-|H]]; apply Hall; auto.
Qed.

(** Whatever the generator listed, the primary code and the collected
    alternatives are the three track codes, each once. *)
Lemma collectAlternatives_codes (utamaKode : MajorCode) (alts : list Alternatif) :
  Permutation (utamaKode :: List.map alt_kode (collectAlternatives utamaKode alts))
              MAJOR_CODES.
Proof.
  unfold collectAlternatives.
  assert (Hstart : alternatives_inv utamaKode ([], [utamaKode])).
  { split; [reflexivity|]. apply NoDup_singleton. }
  destruct (fold_push_unseen_inv utamaKode alts _ Hstart) as [Hinv _].
  destruct (fold_defaults_inv utamaKode MAJOR_CODES _ Hinv) as [[Hcodes Hnodup] Hall].
  rewrite <- Hcodes.
  apply NoDup_Permutation.
  - exact Hnodup.
  - unfold MAJOR_CODES. repeat (apply NoDup_cons; split);
      [ rewrite !list_elem_of_In; simpl; intuition discriminate ..
      | apply NoDup_nil_2 ].
  - intros code. rewrite !list_elem_of_In. split; intros _.
    + destruct code; simpl; auto.
    + apply Hall. right. destruct code; simpl; auto.
Qed.

(** The part of the payload that [normalizeResult] fixes by itself. *)
Lemma normalizeResult_recommendation (aiResult : jsval) (expression : ExpressionInsight)
    (ageInsight : AgeInsight) (metaSource : Source) (payload : AnalysisPayload) :
  normalizeResult aiResult expression ageInsight metaSource = Ok payload ->
  meta payload = {| source := metaSource; cached := None |}
  /\ age payload = ageInsight
  /\ exists alts,
       alternatif (rekomendasiJurusan payload)
       = collectAlternatives (kode (utama (rekomendasiJurusan payload))) alts.
Proof.
  unfold normalizeResult. intros H. bind_inv H.
  injection H as <-. cbn. eauto.
Qed.

Lemma normalizeResult_codes (aiResult : jsval) (expression : ExpressionInsight)
    (ageInsight : AgeInsight) (metaSource : Source) (payload : AnalysisPayload) :
  normalizeResult aiResult expression ageInsight metaSource = Ok payload ->
  Permutation (recommended_codes payload) MAJOR_CODES.
Proof.
  intros H. apply normalizeResult_recommendation in H as (_ & _ & alts & Halts).
  unfold recommended_codes. rewrite Halts. apply collectAlternatives_codes.
Qed.

Lemma codes_once (codes : list MajorCode) :
  Permutation codes MAJOR_CODES ->
  length codes = length MAJOR_CODES
  /\ forall code, count_occ MajorCode_eq_dec codes code = 1%nat.
Proof.
  intros Hperm. split.
  - apply Permutation_length. exact Hperm.
  - intros code. rewrite (Permutation_count_occ MajorCode_eq_dec codes MAJOR_CODES) in Hperm.
    rewrite Hperm. destruct code; reflexivity.
Qed.


(** ** Rate limiter *)

Lemma in_window_all (now : Z) (timestamps : list Z) :
  Forall (fun ts => (now - RATE_LIMIT_WINDOW_MS < ts)%Z) timestamps ->
  in_window now timestamps = timestamps.
Proof.
  unfold in_window. induction 1 as [|ts rest Hts _ IH]; simpl; [reflexivity|].
  apply Z.ltb_lt in Hts. rewrite Hts, IH. reflexivity.
Qed.

Lemma checkRateLimit_full (key : string) (now : Z) (buckets : gmap string (list Z)) :
  (RATE_LIMIT_MAX <= length (in_window now (default [] (buckets !! key))))%nat ->
  checkRateLimit key now buckets
  = (<[key := in_window now (default [] (buckets !! key))]> buckets, true).
Proof.
  intros Hfull. unfold checkRateLimit. fold (in_window now (default [] (buckets !! key))).
  apply Nat.leb_le in Hfull. rewrite Hfull. reflexivity.
Qed.

Lemma checkRateLimit_room (key : string) (now : Z) (buckets : gmap string (list Z)) :
  (length (in_window now (default [] (buckets !! key))) < RATE_LIMIT_MAX)%nat ->
  checkRateLimit key now buckets
  = (<[key := in_window now (default [] (buckets !! key)) ++ [now]]> buckets, false).
Proof.
  intros Hroom. unfold checkRateLimit. fold (in_window now (default [] (buckets !! key))).
  apply Nat.leb_gt in Hroom. rewrite Hroom. reflexivity.
Qed.

(** On a request that passes the credential and image checks, the handler
    keeps the buckets of [checkRateLimit], leaves the cache alone unless it
    stores a fresh payload, and answers 429 exactly when the limiter
    rejects. *)
Lemma POST_limiter `{rt : Runtime} (env : Env) (req : Request) (w : World)
    (s : State) (base64Data : string) :
  configured env ->
  readImage req = Payload base64Data ->
  let checked := checkRateLimit (clientKey req) (limiter_now w) (rateBuckets s) in
  rateBuckets (fst (POST env req w s)) = fst checked
  /\ (snd checked = true ->
      POST env req w s
      = ({| rateBuckets := fst checked; analysisCache := analysisCache s |},
         Message 429
           "Terlalu banyak analisis dalam waktu singkat. Coba lagi dalam beberapa detik."))
  /\ (snd checked = false -> response_status (snd (POST env req w s)) <> 429%Z).
Proof.
  intros [Hhf Htg] Himg checked. unfold POST. rewrite Hhf, Htg, Himg. simpl.
  fold checked. destruct (snd checked) eqn:Hdec.
  - split; [reflexivity|split; [intros _; reflexivity|discriminate]].
  - split; [|split; [discriminate|intros _]].
    + destruct (cache_lookup _ _ _); [reflexivity|].
      destruct (analyse w _ _ base64Data); reflexivity.
    + destruct (cache_lookup _ _ _); [simpl; lia|].
      destruct (analyse w _ _ base64Data); simpl; lia.
Qed.

(** Requests of one client whose limiter clock readings all lie within one
    window of each other and of the bucket's timestamps: the bucket fills
    up to the maximum and every later request is rejected. *)
Lemma serve_one_window `{rt : Runtime} (env : Env) (key : string)
    (requests : list (Request * World)) :
  configured env ->
  Forall (same_client key) requests ->
  forall (s : State) (bucket : list Z),
    default [] (rateBuckets s !! key) = bucket ->
    Forall (fun rw => Forall (fun ts => (limiter_now (snd rw) - RATE_LIMIT_WINDOW_MS < ts)%Z)
                        (bucket ++ List.map (fun rw' => limiter_now (snd rw')) requests))
           requests ->
    List.map rejected (snd (serve env requests s))
    = List.map (fun i => (RATE_LIMIT_MAX <=? length bucket + i)%nat)
               (seq 0 (length requests)).
Proof.
  intros Hcfg Hall. induction Hall as [|[req w] rest [Hkey [b64 Himg]] _ IH];
    intros s bucket Hbucket Hwin; [reflexivity|]. subst bucket.
  simpl in Hkey, Himg. simpl serve. cbn [snd fst List.map length seq].
  destruct (POST_limiter env req w s b64 Hcfg Himg) as (Hb & Hrej & Hadm).
  rewrite Hkey in Hb, Hrej, Hadm.
  apply List.Forall_cons_iff in Hwin as [Hnow Hrest]. simpl in Hnow.
  apply Forall_app in Hnow as [Hnow_bucket _].
  assert (Hfilter : in_window (limiter_now w) (default [] (rateBuckets s !! key))
                    = default [] (rateBuckets s !! key))
    by (apply in_window_all; assumption).
  destruct (Nat.leb_spec RATE_LIMIT_MAX (length (default [] (rateBuckets s !! key))))
    as [Hfull|Hroom].
  - (* rejected: the bucket is persisted as it is *)
    rewrite checkRateLimit_full in Hb, Hrej by (rewrite Hfilter; exact Hfull).
    simpl in Hb, Hrej. rewrite Hfilter in Hb, Hrej.
    rewrite (Hrej eq_refl). cbn [snd fst].
    f_equal.
    + rewrite Nat.add_0_r. transitivity true; [reflexivity|].
      symmetry. apply Nat.leb_le. exact Hfull.
    + rewrite (IH _ (default [] (rateBuckets s !! key))).
      * rewrite <- seq_shift, map_map.
        apply map_ext_in. intros i _.
        destruct (Nat.leb_spec RATE_LIMIT_MAX (length (default [] (rateBuckets s !! key)) + i));
          destruct (Nat.leb_spec RATE_LIMIT_MAX (length (default [] (rateBuckets s !! key)) + S i));
          try reflexivity; lia.
      * simpl. rewrite lookup_insert_eq. reflexivity.
      * eapply Forall_impl; [exact Hrest|]. intros rw Hrw. simpl in Hrw.
        apply Forall_app in Hrw as [H1 H2]. apply Forall_app. split; [exact H1|].
        apply List.Forall_cons_iff in H2 as [_ H2]. exact H2.
  - (* let through: the reading is appended *)
    rewrite checkRateLimit_room in Hb, Hadm by (rewrite Hfilter; exact Hroom).
    simpl in Hb, Hadm. rewrite Hfilter in Hb.
    f_equal.
    + unfold rejected. rewrite Nat.add_0_r.
      transitivity false.
      * apply Z.eqb_neq. apply Hadm. reflexivity.
      * symmetry. apply Nat.leb_gt. exact Hroom.
    + rewrite (IH _ (default [] (rateBuckets s !! key) ++ [limiter_now w])).
      * rewrite <- seq_shift, map_map.
        apply map_ext_in. intros i _. rewrite length_app. simpl.
        replace (length (default [] (rateBuckets s !! key)) + 1 + i)%nat
          with (length (default [] (rateBuckets s !! key)) + S i)%nat by lia.
        reflexivity.
      * rewrite Hb. rewrite lookup_insert_eq. reflexivity.
      * eapply Forall_impl; [exact Hrest|]. intros rw Hrw. simpl in Hrw.
        apply Forall_app in Hrw as [H1 H2]. rewrite <- app_assoc. apply Forall_app.
        split; [exact H1|]. exact H2.
Qed.

(** C2.  When the in-window timestamps of a client's bucket number
    [RATE_LIMIT_MAX], its next request is answered 429 and only the pruned
    bucket is stored: nothing is appended and the cache is untouched.  In
    particular, of seven requests of one client whose limiter clock readings
    lie within one window of each other, starting from no bucket, the first
    six pass the limiter and the seventh is rejected. *)
Theorem rate_limit_rejects_beyond_max `{rt : Runtime} :
  (forall (env : Env) (req : Request) (w : World) (s : State) (base64Data : string),
      configured env ->
      readImage req = Payload base64Data ->
      length (in_window (limiter_now w) (default [] (rateBuckets s !! clientKey req)))
      = RATE_LIMIT_MAX ->
      response_status (snd (POST env req w s)) = 429%Z
      /\ fst (POST env req w s)
         = {| rateBuckets :=
                <[clientKey req :=
                    in_window (limiter_now w) (default [] (rateBuckets s !! clientKey req))]>
                  (rateBuckets s);
              analysisCache := analysisCache s |})
  /\ (forall (env : Env) (key : string) (requests : list (Request * World)) (s : State),
      configured env ->
      Forall (same_client key) requests ->
      length requests = 7%nat ->
      rateBuckets s !! key = None ->
      Forall (fun rw =>
                Forall (fun rw' =>
                          (limiter_now (snd rw) - RATE_LIMIT_WINDOW_MS < limiter_now (snd rw'))%Z)
                       requests)
             requests ->
      List.map rejected (snd (serve env requests s))
      = [false; false; false; false; false; false; true]).
Proof.
  split.
  - intros env req w s b64 Hcfg Himg Hlen.
    destruct (POST_limiter env req w s b64 Hcfg Himg) as (_ & Hrej & _).
    rewrite checkRateLimit_full in Hrej by (rewrite Hlen; apply Nat.le_refl).
    rewrite (Hrej eq_refl). split; reflexivity.
  - intros env key requests s Hcfg Hall Hlen Hnone Hwin.
    rewrite (serve_one_window env key requests Hcfg Hall s []).
    + rewrite Hlen. reflexivity.
    + rewrite Hnone. reflexivity.
    + simpl. eapply Forall_impl; [exact Hwin|]. intros rw Hrw.
      apply Forall_map. exact Hrw.
Qed.

Lemma rate_limit_rejects_beyond_max_witness :
  (response_status
     (snd (@POST sample_runtime sample_env sample_request (degraded_world 7) full_bucket_state))
   = 429%Z
   /\ fst (@POST sample_runtime sample_env sample_request (degraded_world 7) full_bucket_state)
      = {| rateBuckets :=
             <[clientKey sample_request :=
                 in_window 7 (default [] (rateBuckets full_bucket_state !! clientKey sample_request))]>
               (rateBuckets full_bucket_state);
           analysisCache := analysisCache full_bucket_state |})
  /\ List.map rejected (snd (@serve sample_runtime sample_env seven_requests empty_state))
     = [false; false; false; false; false; false; true].
Proof.
  split.
  - apply (proj1 (@rate_limit_rejects_beyond_max sample_runtime)
             sample_env sample_request (degraded_world 7) full_bucket_state "AAAA").
    + split; reflexivity.
    + reflexivity.
    + reflexivity.
  - apply (proj2 (@rate_limit_rejects_beyond_max sample_runtime)
             sample_env "203.0.113.7" seven_requests empty_state).
    + split; reflexivity.
    + repeat constructor; exists "AAAA"; reflexivity.
    + reflexivity.
    + reflexivity.
    + repeat (apply Forall_cons; split); try apply Forall_nil; reflexivity.
Defined.

(** C10.  A request answered 400 leaves both maps as they were: the image
    checks come before the limiter and the cache. *)
Theorem bad_request_leaves_state `{rt : Runtime} (env : Env) (req : Request)
    (w : World) (s : State) :
  response_status (snd (POST env req w s)) = 400%Z ->
  fst (POST env req w s) = s.
Proof.
  unfold POST.
  destruct (negb (present (hfToken env)) || negb (present (TOGETHER_API_KEY env)));
    [reflexivity|].
  destruct (readImage req); try reflexivity.
  destruct (snd (checkRateLimit _ _ _)); [simpl; discriminate|].
  destruct (cache_lookup _ _ _); [simpl; discriminate|].
  destruct (analyse w _ _ base64Data); simpl; discriminate.
Qed.

Lemma bad_request_leaves_state_witness :
  response_status
    (snd (@POST sample_runtime sample_env empty_payload_request (degraded_world 7)
            full_bucket_state)) = 400%Z
  /\ fst (@POST sample_runtime sample_env empty_payload_request (degraded_world 7)
            full_bucket_state) = full_bucket_state.
Proof.
  split.
  - reflexivity.
  - apply (@bad_request_leaves_state sample_runtime). reflexivity.
Defined.

(** ** Fallback templates *)

(** The lookup ends in one of the nine templates or, for a name inherited
    from [Object.prototype], in the runtime object. *)
Lemma selectTemplate_cases (label : string) :
  In (selectTemplate label) resolutions.
Proof.
  unfold selectTemplate, record_get, resolutions, FALLBACK_TEMPLATES.
  cbn [assoc List.map snd].
  repeat match goal with
         | |- context [String.eqb label ?k] => destruct (String.eqb label k)
         end;
    cbn [In]; try tauto.
  match goal with
  | |- context [existsb ?f ?l] => destruct (existsb f l)
  end; cbn [In]; tauto.
Qed.


(** ** Normalizing what the fallback builds *)

Lemma fallback_returns (expression : ExpressionInsight) (ageInsight : AgeInsight)
    (metaSource : Source) :
  returns (normalizeResult (buildFallbackAnalysis expression) expression
             ageInsight metaSource).
Proof.
  unfold buildFallbackAnalysis.
  pose proof (selectTemplate_cases (toLowerCase (ex_label expression))) as Hcases.
  set (template := selectTemplate (toLowerCase (ex_label expression))) in *.
  clearbody template.
  unfold resolutions, FALLBACK_TEMPLATES in Hcases. cbn [In List.map snd] in Hcases.
  repeat (destruct Hcases as [<-|Hcases]); [ .. | contradiction ];
    (eexists; vm_compute; reflexivity).
Qed.

(** For a label that names no member of [Object.prototype] the lookup ends
    in a template: the label's own entry, or else the default one. *)
Lemma selectTemplate_own_or_default (label : string) :
  record_get FALLBACK_TEMPLATES label <> Inherited ->
  selectTemplate label
  = Some (default template_default (assoc label FALLBACK_TEMPLATES)).
Proof.
  unfold selectTemplate, record_get.
  destruct (assoc label FALLBACK_TEMPLATES) as [template|]; [reflexivity|].
  destruct (existsb (String.eqb label) Object_prototype_keys);
    [intros H; contradiction H|]; reflexivity.
Qed.

(** C8.  The label [constructor] resolves to no template: it names a member
    of [Object.prototype], which the lookup in [FALLBACK_TEMPLATES] finds, so
    that [?? FALLBACK_TEMPLATES.default] does not apply.  On such an insight
    the generator call raises, whatever the service answers, and the handler
    takes the fallback analysis.  [buildFallbackAnalysis] returns it with the
    primary code RPL, but with the tone, the personality and both
    manifesting lists undefined, and the payload normalized from it has no
    manifesting point at all, where every template of the table has points
    for both lists.  A label that names nothing, such as [mystery], gets the
    default template. *)
Theorem buildFallbackAnalysis_inherited_label_has_no_template `{rt : Runtime}
    (narrative : jsval) (confidence : jsnum) (ageInsight : AgeInsight)
    (call : ChatRequest -> FetchOutcome) (token imageHint : string) :
  selectTemplate (toLowerCase (ex_label (inherited_insight narrative confidence))) = None
  /\ selectTemplate (toLowerCase "mystery") = Some template_default
  /\ Forall (fun entry => karir (snd entry) <> [] /\ masaDepan (snd entry) <> [])
            FALLBACK_TEMPLATES
  /\ generateFaceReading call token (inherited_insight narrative confidence)
       imageHint ageInsight = Throw TypeError
  /\ primary_code (buildFallbackAnalysis (inherited_insight narrative confidence))
     = Ok (JStr "RPL")
  /\ get_opt (get_opt (buildFallbackAnalysis (inherited_insight narrative confidence))
                "expressionSummary") "energyTone" = JUndefined
  /\ get_opt (get_opt (buildFallbackAnalysis (inherited_insight narrative confidence))
                "expressionSummary") "personalityHighlight" = JUndefined
  /\ get_opt (get_opt (buildFallbackAnalysis (inherited_insight narrative confidence))
                "manifesting") "pekerjaanKarir" = JUndefined
  /\ get_opt (get_opt (buildFallbackAnalysis (inherited_insight narrative confidence))
                "manifesting") "masaDepan" = JUndefined
  /\ exists payload,
       normalizeResult (buildFallbackAnalysis (inherited_insight narrative confidence))
         (inherited_insight narrative confidence) ageInsight fallback = Ok payload
       /\ pekerjaanKarir (manifesting payload) = []
       /\ manifesting_masaDepan (manifesting payload) = [].
Proof.
  split; [reflexivity|]. split; [reflexivity|].
  split.
  { unfold FALLBACK_TEMPLATES. repeat (constructor; [split; discriminate|]). constructor. }
  split; [reflexivity|]. split; [reflexivity|].
  split; [reflexivity|]. split; [reflexivity|].
  split; [reflexivity|]. split; [reflexivity|].
  eexists. split; [vm_compute; reflexivity|]. split; reflexivity.
Qed.

(** The same end to end: the expression classifier reports [constructor],
    the age classifier answers, and the request is served with status 200
    from the fallback analysis, without any manifesting point. *)
Example constructor_label_request_served :
  exists payload,
    snd (@POST adult_runtime sample_env sample_request
           (constructor_label_adult_world 1000) empty_state)
    = Analysis payload (iso_now (constructor_label_adult_world 1000))
    /\ baseLabel (expression payload) = "constructor"
    /\ source (meta payload) = fallback
    /\ pekerjaanKarir (manifesting payload) = []
    /\ manifesting_masaDepan (manifesting payload) = [].
Proof. eexists. split; [vm_compute; reflexivity|]. repeat split; reflexivity. Qed.

(** C9.  Normalizing the output of [buildFallbackAnalysis] succeeds and
    gives one primary track with exactly two alternatives, every track code
    occurring once among the three. *)
Theorem fallback_roundtrip_codes (expression : ExpressionInsight)
    (ageInsight : AgeInsight) (metaSource : Source) :
  exists payload,
    normalizeResult (buildFallbackAnalysis expression) expression ageInsight metaSource
    = Ok payload
    /\ length (alternatif (rekomendasiJurusan payload)) = (length MAJOR_CODES - 1)%nat
    /\ forall code,
         count_occ MajorCode_eq_dec (recommended_codes payload) code = 1%nat.
Proof.
  destruct (fallback_returns expression ageInsight metaSource) as [payload Hp].
  exists payload. split; [exact Hp|].
  destruct (codes_once _ (normalizeResult_codes _ _ _ _ _ Hp)) as [Hlen Hocc].
  split; [|exact Hocc].
  unfold recommended_codes in Hlen. simpl in Hlen. rewrite length_map in Hlen.
  simpl. lia.
Qed.

(** ** The handler on the full pipeline *)

Lemma POST_pipeline `{rt : Runtime} (env : Env) (req : Request) (w : World)
    (s : State) (base64Data : string) :
  configured env ->
  readImage req = Payload base64Data ->
  snd (checkRateLimit (clientKey req) (limiter_now w) (rateBuckets s)) = false ->
  cache_lookup (analysisCache s) (sha256_hex base64Data) (cache_now w) = None ->
  POST env req w s
  = match analyse w (default "" (hfToken env)) (default "" (TOGETHER_API_KEY env))
            base64Data with
    | Ok basePayload =>
        ({| rateBuckets :=
              fst (checkRateLimit (clientKey req) (limiter_now w) (rateBuckets s));
            analysisCache :=
              <[sha256_hex base64Data :=
                  {| timestamp := cache_now w; data := basePayload |}]>
                (analysisCache s) |},
         Analysis basePayload (iso_now w))
    | Throw error =>
        ({| rateBuckets :=
              fst (checkRateLimit (clientKey req) (limiter_now w) (rateBuckets s));
            analysisCache := analysisCache s |},
         Failure error)
    end.
Proof.
  intros [Hhf Htg] Himg Hpass Hmiss. unfold POST.
  rewrite Hhf, Htg, Himg. cbn [negb orb]. rewrite Hpass, Hmiss. reflexivity.
Qed.

Lemma analyse_meta `{rt : Runtime} (w : World) (hf tg base64Data : string)
    (payload : AnalysisPayload) :
  analyse w hf tg base64Data = Ok payload -> cached (meta payload) = None.
Proof.
  unfold analyse. intros H.
  apply bind_Ok in H as (expression & _ & H).
  apply bind_Ok in H as (ageInsight & _ & H).
  apply normalizeResult_recommendation in H as (Hmeta & _). rewrite Hmeta. reflexivity.
Qed.

(** ** Narrative generator *)

Lemma narrative_failure_throws `{rt : Runtime} (call : ChatRequest -> FetchOutcome)
    (token : string) (expression : ExpressionInsight) (imageHint : string)
    (ageInsight : AgeInsight) :
  (forall request, NarrativeFailure (call request)) ->
  throws (generateFaceReading call token expression imageHint ageInsight).
Proof.
  intros Hfail. unfold generateFaceReading.
  destruct (record_get EXPRESSION_MAJOR_AFFINITY _); cbn [bind];
    try (eexists; reflexivity).
  all: cbv zeta; destruct (js_String (ex_narrative expression)) as [narrative|];
    cbn [bind]; try (eexists; reflexivity).
  all: match goal with
       | |- context [fetch (_ ?request)] =>
           destruct (Hfail request)
             as [r Hok | r payload Hok Hjson Hempty | r payload text Hok Hjson Htext Hparse]
       end;
    cbn [fetch bind]; rewrite Hok; cbn [negb].
  all: try (match goal with
            | |- throws (bind (try_catch ?m ?h) _) =>
                destruct (try_catch m h) as [message|] eqn:Htry;
                [ cbn [bind]; destruct (js_String message); cbn [bind]; eexists; reflexivity
                | cbn [bind]; eexists; reflexivity ]
            end).
  all: rewrite Hjson; cbn [bind].
  all: try (destruct Hempty as [-> | ->]; cbn [bind]; eexists; reflexivity).
  all: rewrite Htext; cbn [bind]; destruct text; [eexists; reflexivity|];
    rewrite Hparse; eexists; reflexivity.
Qed.

(** Whatever makes the adapter raise, the handler answers 200 from the
    fallback template. *)
Lemma POST_fallback_on_throw `{rt : Runtime} (env : Env) (req : Request) (w : World)
    (s : State) (base64Data : string) (expression : ExpressionInsight)
    (ageInsight : AgeInsight) :
  configured env ->
  readImage req = Payload base64Data ->
  snd (checkRateLimit (clientKey req) (limiter_now w) (rateBuckets s)) = false ->
  cache_lookup (analysisCache s) (sha256_hex base64Data) (cache_now w) = None ->
  detectExpression (expression_call w (default "" (hfToken env)) base64Data)
  = Ok expression ->
  detectAge (age_call w (default "" (hfToken env)) base64Data) (Some expression)
  = Ok ageInsight ->
  throws (generateFaceReading (narrative_call w) (default "" (TOGETHER_API_KEY env))
            expression (slice_to 64 base64Data) ageInsight) ->
  exists payload,
    normalizeResult (buildFallbackAnalysis expression) expression ageInsight fallback
    = Ok payload
    /\ snd (POST env req w s) = Analysis payload (iso_now w)
    /\ source (meta payload) = fallback.
Proof.
  intros Hcfg Himg Hpass Hmiss Hexpr Hage [err Hthrow].
  destruct (fallback_returns expression ageInsight fallback) as [payload Hp].
  exists payload. split; [exact Hp|].
  rewrite (POST_pipeline env req w s base64Data Hcfg Himg Hpass Hmiss).
  unfold analyse. rewrite Hexpr. cbn [bind]. rewrite Hage. cbn [bind].
  rewrite Hthrow. cbn [fst snd]. rewrite Hp. split; [reflexivity|].
  apply normalizeResult_recommendation in Hp as (Hmeta & _). rewrite Hmeta. reflexivity.
Qed.

(** C6.  On a request that reaches the full pipeline, when the generator
    answers whatever it is sent with an error status, with no message
    content or with a content that is not JSON, the adapter raises (it
    substitutes nothing itself) and the handler normalizes the fallback
    template instead: the response is a 200 whose [meta.source] is
    [fallback]. *)
Theorem narrative_failure_falls_back `{rt : Runtime} (env : Env) (req : Request)
    (w : World) (s : State) (base64Data : string) (expression : ExpressionInsight)
    (ageInsight : AgeInsight) :
  configured env ->
  readImage req = Payload base64Data ->
  snd (checkRateLimit (clientKey req) (limiter_now w) (rateBuckets s)) = false ->
  cache_lookup (analysisCache s) (sha256_hex base64Data) (cache_now w) = None ->
  detectExpression (expression_call w (default "" (hfToken env)) base64Data)
  = Ok expression ->
  detectAge (age_call w (default "" (hfToken env)) base64Data) (Some expression)
  = Ok ageInsight ->
  (forall request, NarrativeFailure (narrative_call w request)) ->
  throws (generateFaceReading (narrative_call w) (default "" (TOGETHER_API_KEY env))
            expression (slice_to 64 base64Data) ageInsight)
  /\ exists payload,
       normalizeResult (buildFallbackAnalysis expression) expression ageInsight fallback
       = Ok payload
       /\ snd (POST env req w s) = Analysis payload (iso_now w)
       /\ response_status (snd (POST env req w s)) = 200%Z
       /\ source (meta payload) = fallback.
Proof.
  intros Hcfg Himg Hpass Hmiss Hexpr Hage Hfail.
  pose proof (narrative_failure_throws _ (default "" (TOGETHER_API_KEY env)) expression
                (slice_to 64 base64Data) ageInsight Hfail) as Hthrow.
  split; [exact Hthrow|].
  destruct (POST_fallback_on_throw env req w s base64Data expression ageInsight
              Hcfg Himg Hpass Hmiss Hexpr Hage Hthrow) as (payload & Hp & Hresp & Hsrc).
  exists payload. rewrite Hresp. repeat split; assumption.
Qed.

Lemma narrative_failure_falls_back_witness :
  throws (@generateFaceReading sample_runtime
            (narrative_call (failing_generator_world 1000)) "together_key"
            degraded_expression (slice_to 64 "AAAA") degraded_age)
  /\ exists payload,
       normalizeResult (buildFallbackAnalysis degraded_expression) degraded_expression
         degraded_age fallback = Ok payload
       /\ snd (@POST sample_runtime sample_env sample_request
                 (failing_generator_world 1000) empty_state)
          = Analysis payload (iso_now (failing_generator_world 1000))
       /\ response_status
            (snd (@POST sample_runtime sample_env sample_request
                    (failing_generator_world 1000) empty_state)) = 200%Z
       /\ source (meta payload) = fallback.
Proof.
  apply (@narrative_failure_falls_back sample_runtime sample_env sample_request
           (failing_generator_world 1000) empty_state "AAAA"
           degraded_expression degraded_age).
  - split; reflexivity.
  - reflexivity.
  - reflexivity.
  - reflexivity.
  - reflexivity.
  - reflexivity.
  - intros request. apply failure_status. reflexivity.
Defined.

(** ** Cache replay *)

(** C3.  Two requests with the same image payload: the first runs the full
    pipeline and is answered 200; the second comes while the stored entry
    is younger than the TTL and is not rate-limited.  Then the second
    response carries the first payload field for field, with [meta.cached]
    set (it is unset in the first) and its own [generatedAt], and the
    replay leaves the cache, the stored entry included, as it was. *)
Theorem cache_replay `{rt : Runtime} (env : Env) (req1 req2 : Request)
    (w1 w2 : World) (s s2 : State) (base64Data : string) :
  configured env ->
  readImage req1 = Payload base64Data ->
  readImage req2 = Payload base64Data ->
  cache_lookup (analysisCache s) (sha256_hex base64Data) (cache_now w1) = None ->
  response_status (snd (POST env req1 w1 s)) = 200%Z ->
  analysisCache s2 = analysisCache (fst (POST env req1 w1 s)) ->
  (cache_now w2 - cache_now w1 < CACHE_TTL_MS)%Z ->
  response_status (snd (POST env req2 w2 s2)) <> 429%Z ->
  exists payload replayed,
    snd (POST env req1 w1 s) = Analysis payload (iso_now w1)
    /\ snd (POST env req2 w2 s2) = Analysis replayed (iso_now w2)
    /\ expression replayed = expression payload
    /\ age replayed = age payload
    /\ manifesting replayed = manifesting payload
    /\ rekomendasiJurusan replayed = rekomendasiJurusan payload
    /\ source (meta replayed) = source (meta payload)
    /\ cached (meta payload) = None
    /\ cached (meta replayed) = Some true
    /\ analysisCache s2 !! sha256_hex base64Data
       = Some {| timestamp := cache_now w1; data := payload |}
    /\ analysisCache (fst (POST env req2 w2 s2)) = analysisCache s2.
Proof.
  intros Hcfg Himg1 Himg2 Hmiss H200 Hcache Hfresh Hnot429.
  (* the first request *)
  destruct (POST_limiter env req1 w1 s base64Data Hcfg Himg1) as (_ & Hrej1 & _).
  destruct (snd (checkRateLimit (clientKey req1) (limiter_now w1) (rateBuckets s)))
    eqn:Hpass1.
  { rewrite (Hrej1 eq_refl) in H200. discriminate H200. }
  rewrite (POST_pipeline env req1 w1 s base64Data Hcfg Himg1 Hpass1 Hmiss) in *.
  destruct (analyse w1 _ _ base64Data) as [payload|err] eqn:Hanalyse;
    [|discriminate H200].
  cbn [fst snd analysisCache] in Hcache.
  (* the second request *)
  destruct (POST_limiter env req2 w2 s2 base64Data Hcfg Himg2) as (_ & Hrej2 & _).
  destruct (snd (checkRateLimit (clientKey req2) (limiter_now w2) (rateBuckets s2)))
    eqn:Hpass2.
  { rewrite (Hrej2 eq_refl) in Hnot429. contradiction Hnot429. reflexivity. }
  assert (Hentry : analysisCache s2 !! sha256_hex base64Data
                   = Some {| timestamp := cache_now w1; data := payload |}).
  { rewrite Hcache. apply lookup_insert_eq. }
  assert (Hhit : cache_lookup (analysisCache s2) (sha256_hex base64Data) (cache_now w2)
                 = Some {| timestamp := cache_now w1; data := payload |}).
  { unfold cache_lookup. rewrite Hentry. cbn [timestamp].
    apply Z.ltb_lt in Hfresh. rewrite Hfresh. reflexivity. }
  assert (Hsecond : POST env req2 w2 s2
                    = ({| rateBuckets :=
                            fst (checkRateLimit (clientKey req2) (limiter_now w2)
                                   (rateBuckets s2));
                          analysisCache := analysisCache s2 |},
                       Analysis (mark_cached payload) (iso_now w2))).
  { destruct Hcfg as [Hhf Htg]. unfold POST.
    rewrite Hhf, Htg, Himg2. cbn [negb orb]. rewrite Hpass2, Hhit. reflexivity. }
  exists payload, (mark_cached payload). rewrite Hsecond. cbn [fst snd].
  repeat split; try reflexivity.
  - eapply analyse_meta. exact Hanalyse.
  - exact Hentry.
Qed.

Lemma cache_replay_witness :
  exists payload replayed,
    snd (@POST sample_runtime sample_env sample_request (degraded_world 1000) empty_state)
    = Analysis payload (iso_now (degraded_world 1000))
    /\ snd (@POST sample_runtime sample_env sample_request (degraded_world 2000)
              (fst (@POST sample_runtime sample_env sample_request (degraded_world 1000)
                      empty_state)))
       = Analysis replayed (iso_now (degraded_world 2000))
    /\ expression replayed = expression payload
    /\ age replayed = age payload
    /\ manifesting replayed = manifesting payload
    /\ rekomendasiJurusan replayed = rekomendasiJurusan payload
    /\ source (meta replayed) = source (meta payload)
    /\ cached (meta payload) = None
    /\ cached (meta replayed) = Some true
    /\ analysisCache
         (fst (@POST sample_runtime sample_env sample_request (degraded_world 1000)
                 empty_state)) !! @sha256_hex sample_runtime "AAAA"
       = Some {| timestamp := cache_now (degraded_world 1000); data := payload |}
    /\ analysisCache
         (fst (@POST sample_runtime sample_env sample_request (degraded_world 2000)
                 (fst (@POST sample_runtime sample_env sample_request
                         (degraded_world 1000) empty_state))))
       = analysisCache
           (fst (@POST sample_runtime sample_env sample_request (degraded_world 1000)
                   empty_state)).
Proof.
  apply (@cache_replay sample_runtime sample_env sample_request sample_request
           (degraded_world 1000) (degraded_world 2000) empty_state
           (fst (@POST sample_runtime sample_env sample_request (degraded_world 1000)
                   empty_state)) "AAAA").
  - split; reflexivity.
  - reflexivity.
  - reflexivity.
  - reflexivity.
  - reflexivity.
  - reflexivity.
  - reflexivity.
  - vm_compute. discriminate.
Defined.

(** ** Totality of the normalization on well-shaped results *)

Lemma get_defined (v : jsval) (k : string) :
  nullish v = false -> get v k = Ok (get_opt v k).
Proof. destruct v; simpl; intros H; try reflexivity; discriminate H. Qed.

Lemma truthy_field_object (v : jsval) (k : string) :
  truthy (get_opt v k) = true -> nullish v = false.
Proof. destruct v; simpl; intros H; try reflexivity; discriminate H. Qed.

Lemma optional_string_cases (v : jsval) :
  optional is_string v = true -> nullish v = true \/ exists s, v = JStr s.
Proof.
  unfold optional. destruct v; simpl; intros H; try discriminate H; eauto.
Qed.

Lemma call_trim_opt_returns (v : jsval) :
  optional is_string v = true ->
  call_trim_opt v = Ok JUndefined \/ exists s, call_trim_opt v = Ok (JStr s).
Proof.
  intros H. apply optional_string_cases in H as [Hnull | [s ->]].
  - left. unfold call_trim_opt. rewrite Hnull. reflexivity.
  - right. eexists. reflexivity.
Qed.

Lemma normalizeMajorCode_returns (v : jsval) :
  optional is_string v = true -> returns (normalizeMajorCode v).
Proof.
  intros H. apply optional_string_cases in H as [Hnull | [s ->]].
  - unfold normalizeMajorCode, coalesce. rewrite Hnull. eexists; reflexivity.
  - eexists; reflexivity.
Qed.

Lemma resolveMajorName_returns (code providedName : jsval) :
  optional is_string code = true ->
  optional is_string providedName = true ->
  returns (resolveMajorName code providedName).
Proof.
  intros Hcode Hname. unfold resolveMajorName.
  destruct (normalizeMajorCode_returns code Hcode) as [majorCode ->]. cbn [bind].
  apply optional_string_cases in Hname as [Hnull | [s ->]].
  - destruct providedName; try discriminate Hnull; eexists; reflexivity.
  - destruct (truthy (JStr s)); [|eexists; reflexivity].
    cbn [call_trim bind]. destruct (negb _); eexists; reflexivity.
Qed.

Lemma normalizePoints_returns (items : jsval) :
  optional (array_of point_shape) items = true -> returns (normalizePoints items).
Proof.
  intros Hshape. unfold normalizePoints.
  assert (Hitems : exists l, coalesce items (JArr []) = JArr l
                             /\ forallb point_shape l = true).
  { unfold optional in Hshape. unfold coalesce.
    destruct (nullish items) eqn:Hnull; [exists []; split; reflexivity|].
    destruct items; try discriminate Hshape. eauto. }
  destruct Hitems as (l & -> & Hl). cbn [array_receiver bind].
  apply map_res_returns. apply List.Forall_forall. intros item Hin.
  apply List.filter_In in Hin as [Hin Hkept].
  apply andb_prop in Hkept as [Htitle Hdescription].
  rewrite forallb_forall in Hl. specialize (Hl item Hin).
  apply andb_prop in Hl as [Ht Hd]. unfold text_field in Ht, Hd.
  rewrite !(get_defined item) by (eapply truthy_field_object; exact Htitle).
  cbn [bind].
  apply optional_string_cases in Ht as [Hnull | [t Ht]];
    [destruct (get_opt item "title"); discriminate|].
  apply optional_string_cases in Hd as [Hnull | [d Hd]];
    [destruct (get_opt item "description"); discriminate|].
  rewrite Ht, Hd. eexists; reflexivity.
Qed.

Lemma sanitizeStringArray_returns (items : jsval) :
  optional (array_of (optional is_string)) items = true ->
  returns (sanitizeStringArray items).
Proof.
  intros Hshape. unfold sanitizeStringArray.
  assert (Hitems : exists l, coalesce items (JArr []) = JArr l
                             /\ forallb (optional is_string) l = true).
  { unfold optional in Hshape at 1. unfold coalesce.
    destruct (nullish items) eqn:Hnull; [exists []; split; reflexivity|].
    destruct items; try discriminate Hshape. eauto. }
  destruct Hitems as (l & -> & Hl). cbn [array_receiver bind].
  assert (Hmap : returns (map_res call_trim_opt l)).
  { apply map_res_returns. apply List.Forall_forall. intros entry Hin.
    rewrite forallb_forall in Hl.
    destruct (call_trim_opt_returns entry (Hl entry Hin)) as [-> | [s ->]];
      eexists; reflexivity. }
  destruct Hmap as [trimmed ->]. eexists; reflexivity.
Qed.

Lemma alternative_of_item_returns (item : jsval) :
  alternative_shape item = true -> returns (alternative_of_item item).
Proof.
  intros Hshape. unfold alternative_shape, text_field in Hshape.
  apply andb_prop in Hshape as [Hshape Hnote].
  apply andb_prop in Hshape as [Hcode Hname].
  unfold alternative_of_item.
  destruct (call_trim_opt_returns _ Hnote) as [-> | [note ->]]; cbn [bind];
    [eexists; reflexivity|].
  destruct (String.eqb note ""); [eexists; reflexivity|].
  destruct (normalizeMajorCode_returns _ Hcode) as [code ->]. cbn [bind].
  destruct (resolveMajorName_returns _ _ Hcode Hname) as [name ->].
  eexists; reflexivity.
Qed.

Lemma default_points_normalize (code : MajorCode) :
  returns (normalizePoints (JArr (DEFAULT_MAJOR_POINTS code))).
Proof. destruct code; eexists; reflexivity. Qed.

Lemma utama_shape_coalesce (u : jsval) :
  utama_shape u = true ->
  nullish (coalesce u (JObj [])) = false
  /\ utama_shape (coalesce u (JObj [])) = true.
Proof.
  intros H. unfold coalesce. destruct (nullish u) eqn:Hnull.
  - split; reflexivity.
  - split; assumption.
Qed.

Lemma normalizeResult_returns (aiResult : jsval) (expression : ExpressionInsight)
    (ageInsight : AgeInsight) (metaSource : Source) :
  result_shape aiResult = true ->
  returns (normalizeResult aiResult expression ageInsight metaSource).
Proof.
  unfold result_shape. intros Hshape.
  apply andb_prop in Hshape as [Hshape Halternatif].
  apply andb_prop in Hshape as [Hshape Hutama].
  apply andb_prop in Hshape as [Hshape HmasaDepan].
  apply andb_prop in Hshape as [Hdefined Hkarir].
  apply negb_true_iff in Hdefined.
  apply utama_shape_coalesce in Hutama as [Hraw Hutama].
  unfold utama_shape, text_field in Hutama.
  apply andb_prop in Hutama as [Hutama Hkebiasaan].
  apply andb_prop in Hutama as [Hutama Hlangkah].
  apply andb_prop in Hutama as [Hutama Halasan].
  apply andb_prop in Hutama as [Hkode Hnama].
  unfold normalizeResult.
  rewrite !(get_defined aiResult) by exact Hdefined. cbn [bind].
  destruct (normalizePoints_returns _ Hkarir) as [karir ->]. cbn [bind].
  destruct (normalizePoints_returns _ HmasaDepan) as [masa ->]. cbn [bind].
  cbv zeta.
  set (raw := coalesce (get_opt (get_opt aiResult "rekomendasiJurusan") "utama") (JObj [])) in *.
  rewrite !(get_defined raw) by exact Hraw. cbn [bind].
  destruct (normalizeMajorCode_returns _ Hkode) as [utamaKode ->]. cbn [bind].
  destruct (resolveMajorName_returns _ _ Hkode Hnama) as [utamaNama ->]. cbn [bind].
  destruct (normalizePoints_returns _ Halasan) as [from_ai ->]. cbn [bind].
  assert (Hreasons : returns (match from_ai with
                              | [] => normalizePoints (JArr (DEFAULT_MAJOR_POINTS utamaKode))
                              | _ :: _ => Ok from_ai
                              end)).
  { destruct from_ai; [apply default_points_normalize|eexists; reflexivity]. }
  destruct Hreasons as [alasanJurusan ->]. cbn [bind].
  assert (Hsteps : returns (call_trim_opt (get_opt raw "langkahFokus"))).
  { destruct (call_trim_opt_returns _ Hlangkah) as [-> | [step ->]]; eexists; reflexivity. }
  destruct Hsteps as [trimmed ->]. cbn [bind].
  destruct (sanitizeStringArray_returns _ Hkebiasaan) as [sanitized ->]. cbn [bind].
  assert (Hitems : exists l,
             coalesce (get_opt (get_opt aiResult "rekomendasiJurusan") "alternatif") (JArr [])
             = JArr l /\ forallb alternative_shape l = true).
  { unfold optional in Halternatif. unfold coalesce.
    destruct (get_opt (get_opt aiResult "rekomendasiJurusan") "alternatif") as [| | | | |l| |];
      try discriminate Halternatif; [exists []; split; reflexivity ..|].
    exists l. split; [reflexivity|exact Halternatif]. }
  destruct Hitems as (l & -> & Hl). cbn [array_receiver bind].
  assert (Hmapped : returns (map_res alternative_of_item l)).
  { apply map_res_returns. apply List.Forall_forall. intros item Hin.
    rewrite forallb_forall in Hl. apply alternative_of_item_returns. auto. }
  destruct Hmapped as [mapped ->]. cbn [bind].
  eexists; reflexivity.
Qed.

(** C1 (as amended).  The normalization returns on every result other
    than null whose text fields are absent, null or strings and whose list
    fields are absent, null or arrays, and on everything the fallback path
    builds. *)
Theorem normalization_total_on_declared_shape :
  (forall (aiResult : jsval) (expression : ExpressionInsight)
          (ageInsight : AgeInsight) (metaSource : Source),
      result_shape aiResult = true ->
      returns (normalizeResult aiResult expression ageInsight metaSource))
  /\ (forall (expression : ExpressionInsight) (ageInsight : AgeInsight)
             (metaSource : Source),
      returns (normalizeResult (buildFallbackAnalysis expression) expression
                 ageInsight metaSource)).
Proof.
  split.
  - apply normalizeResult_returns.
  - apply fallback_returns.
Qed.

Lemma normalization_total_on_declared_shape_witness :
  returns (normalizeResult partial_result sample_expression sample_age ai).
Proof.
  apply (proj1 normalization_total_on_declared_shape partial_result
           sample_expression sample_age ai).
  reflexivity.
Defined.

(** C1 as stated fails: the generator can hand over [null] (its message
    content is the JSON text [null]), a text in place of a list, a number in
    place of a text; each makes the normalization raise, and the handler
    answers 500. *)
Lemma normalization_throws_on_ill_typed_result :
  @generateFaceReading sample_runtime (fun _ => http 200 envelope_null) "together_key"
    (default_insight (4 # 10)) (slice_to 64 "AAAA") degraded_age = Ok JNull
  /\ normalizeResult JNull (default_insight (4 # 10)) degraded_age ai = Throw TypeError
  /\ snd (@POST sample_runtime sample_env sample_request (null_content_world 1000)
            empty_state) = Failure TypeError
  /\ normalizeResult
       (JObj [ ("manifesting", JObj [ ("pekerjaanKarir", JStr "none") ]) ])
       sample_expression sample_age ai = Throw TypeError
  /\ normalizeResult
       (JObj [ ("rekomendasiJurusan", JObj [ ("utama", JObj [ ("kode", JNum (of_Z 1)) ]) ]) ])
       sample_expression sample_age ai = Throw TypeError.
Proof. repeat split; reflexivity. Qed.

(** ** Expression classifier *)

(** The two degraded answers of [detectExpression]: the default sentence
    under the label [neutral], with confidence 0.42 after an error status and
    0.4 after a body that is an empty array or no array. *)
Lemma detectExpression_defaults `{rt : Runtime} (r : HttpResponse) :
  (forall detail,
      response_ok r = false -> body_text r = Ok detail ->
      detectExpression (Responded r) = Ok (default_insight (42 # 100)))
  /\ (forall data,
      response_ok r = true -> response_json r = Ok data ->
      isArray data = false \/ data = JArr [] ->
      detectExpression (Responded r) = Ok (default_insight (4 # 10))).
Proof.
  split.
  - intros detail Hok Hbody. unfold detectExpression. cbn [fetch bind].
    rewrite Hok. cbn [negb]. rewrite Hbody. reflexivity.
  - intros data Hok Hjson Hdata. unfold detectExpression. cbn [fetch bind].
    rewrite Hok. cbn [negb]. rewrite Hjson. cbn [bind].
    destruct Hdata as [Hnot | ->]; [|reflexivity].
    destruct data; try reflexivity. discriminate Hnot.
Qed.

(** C4 fails on a transport failure: a rejected [fetch] is not caught in
    [detectExpression] and reaches its caller, and so does a body that is
    not JSON. *)
Theorem detectExpression_propagates_transport_failure `{rt : Runtime} :
  (forall e : exn, detectExpression (Rejected e) = Throw e)
  /\ (forall code : Z,
        detectExpression (Responded {| status := code; body_text := Throw NetworkError |})
        = Throw NetworkError)
  /\ @detectExpression sample_runtime (http 200 "") = Throw SyntaxError.
Proof.
  split; [|split].
  - intros e. reflexivity.
  - intros code. unfold detectExpression. cbn [fetch bind].
    destruct (negb _); reflexivity.
  - reflexivity.
Qed.

(** ** Age classifier *)

Lemma detectAge_is_fallback `{rt : Runtime} (m : res AgeInsight)
    (expression : option ExpressionInsight) :
  m = buildFallbackAgeInsight expression ->
  try_catch m (fun _ => buildFallbackAgeInsight expression)
  = buildFallbackAgeInsight expression.
Proof. intros ->. destruct (buildFallbackAgeInsight expression); reflexivity. Qed.

(** What the fallback insight is made of: the preset stored under the
    lowercased label, or the default preset when there is none. *)
Lemma buildFallbackAgeInsight_preset `{rt : Runtime} (expression : ExpressionInsight) :
  record_get FALLBACK_AGE_PRESETS (toLowerCase (ex_label expression)) <> Inherited ->
  exists preset insight,
    preset = default preset_default
               (assoc (toLowerCase (ex_label expression)) FALLBACK_AGE_PRESETS)
    /\ buildFallbackAgeInsight (Some expression) = Ok insight
    /\ age_label insight = preset_label preset
    /\ age_range insight = preset_range preset
    /\ age_estimated insight = Some (preset_estimated preset)
    /\ age_confidence insight = clamp01 (preset_confidence preset).
Proof.
  intros Hown. unfold buildFallbackAgeInsight.
  revert Hown. unfold record_get.
  destruct (assoc (toLowerCase (ex_label expression)) FALLBACK_AGE_PRESETS)
    as [preset|].
  - intros _. exists preset. cbn [bind]. eexists.
    split; [reflexivity|]. split; [reflexivity|].
    cbn [age_label age_range age_estimated age_confidence].
    repeat split; try reflexivity.
    destruct (preset_range preset); reflexivity.
  - destruct (existsb _ _); intros Hown; [contradiction|].
    exists preset_default. cbn [bind]. eexists.
    split; [reflexivity|]. split; [reflexivity|]. repeat split; reflexivity.
Qed.

Example neutral_fallback_age :
  @buildFallbackAgeInsight sample_runtime (Some sample_expression) = Ok degraded_age
  /\ age_label degraded_age = "16-20"
  /\ age_range degraded_age
     = {| range_min := Some (of_Z 16); range_max := Some (of_Z 20) |}
  /\ age_estimated degraded_age = Some (of_Z 18).
Proof. repeat split; reflexivity. Qed.

(** As long as the lowercased label is not a name inherited from
    [Object.prototype], [detectAge] returns whatever the endpoint does. *)
Lemma detectAge_returns `{rt : Runtime} (call : FetchOutcome)
    (expression : ExpressionInsight) :
  record_get FALLBACK_AGE_PRESETS (toLowerCase (ex_label expression)) <> Inherited ->
  returns (detectAge call (Some expression)).
Proof.
  intros Hown.
  assert (Hfallback : returns (buildFallbackAgeInsight (Some expression))).
  { unfold buildFallbackAgeInsight.
    destruct (record_get FALLBACK_AGE_PRESETS _); [| contradiction |];
      eexists; reflexivity. }
  unfold detectAge.
  match goal with |- returns (try_catch ?m _) => destruct m end.
  - eexists; reflexivity.
  - exact Hfallback.
Qed.

(** C5 fails when the expression label is [constructor] (or, in any
    case, [__proto__]): the preset lookup finds the member of
    [Object.prototype], reading [preset.range.min] raises, and it raises
    again in the [catch] block, past [detectAge]. *)
Theorem detectAge_raises_on_inherited_label `{rt : Runtime} (e : exn)
    (narrative : jsval) (confidence : jsnum) :
  detectAge (Rejected e)
    (Some {| ex_narrative := narrative; ex_confidence := confidence;
             ex_label := "constructor" |})
  = Throw TypeError
  /\ detectAge (http 503 "loading")
       (Some {| ex_narrative := narrative; ex_confidence := confidence;
                ex_label := "constructor" |})
     = Throw TypeError
  /\ detectAge (Rejected e)
       (Some {| ex_narrative := narrative; ex_confidence := confidence;
                ex_label := "__PROTO__" |})
     = Throw TypeError.
Proof. repeat split; reflexivity. Qed.

(** The same end to end: the expression classifier reports [constructor],
    the age classifier is down, and the request ends in a 500. *)
Example constructor_label_request_fails :
  @detectExpression sample_runtime
    (expression_call (constructor_label_world 1000) "hf_token" "AAAA")
  = Ok constructor_expression
  /\ snd (@POST sample_runtime sample_env sample_request (constructor_label_world 1000)
            empty_state) = Failure TypeError.
Proof. split; reflexivity. Qed.

(** C7.  ["25-32"] parses to 25..32 with estimate 29, ["60+"] to 60 and up
    with estimate 60, ["n/a"] to no range at all; and a candidate labelled
    ["n/a"] without a direct age makes [detectAge] answer exactly what
    [buildFallbackAgeInsight] gives for the expression. *)
Theorem age_label_examples :
  parseAgeLabelRange "25-32"
  = {| range_min := Some (of_Z 25); range_max := Some (of_Z 32) |}
  /\ computeEstimatedAge (parseAgeLabelRange "25-32") None = Some (of_Z 29)
  /\ parseAgeLabelRange "60+" = {| range_min := Some (of_Z 60); range_max := None |}
  /\ computeEstimatedAge (parseAgeLabelRange "60+") None = Some (of_Z 60)
  /\ parseAgeLabelRange "n/a" = {| range_min := None; range_max := None |}
  /\ forall (rt : Runtime) (r : HttpResponse) (raw : jsval) (score : jsnum)
            (expression : option ExpressionInsight),
       response_ok r = true ->
       response_json r = Ok raw ->
       extractCandidate raw
       = Ok (Some {| cand_label := "n/a"; cand_score := score; cand_directAge := None |}) ->
       detectAge (Responded r) expression = buildFallbackAgeInsight expression.
Proof.
  repeat split; try reflexivity.
  intros rt r raw score expression Hok Hjson Hcandidate.
  unfold detectAge. apply detectAge_is_fallback.
  cbn [fetch bind]. rewrite Hok. cbn [negb]. rewrite Hjson. cbn [bind].
  rewrite Hcandidate. reflexivity.
Qed.

Lemma age_label_examples_witness :
  @detectAge sample_runtime (http 200 body_age_na) (Some sample_expression)
  = @buildFallbackAgeInsight sample_runtime (Some sample_expression).
Proof.
  apply (proj2 (proj2 (proj2 (proj2 (proj2 age_label_examples)))) sample_runtime
           {| status := 200; body_text := Ok body_age_na |}
           (JArr [ JObj [ ("label", JStr "n/a"); ("score", JNum (Finite (9 # 10)%Q)) ] ])
           (Finite (9 # 10)%Q) (Some sample_expression)).
  - reflexivity.
  - reflexivity.
  - reflexivity.
Defined.

(** * Further properties of the code *)

(** ** Rate limiter: isolation, bounds, recovery *)

Lemma POST_buckets `{rt : Runtime} (env : Env) (req : Request) (w : World) (s : State) :
  rateBuckets (fst (POST env req w s)) = rateBuckets s
  \/ rateBuckets (fst (POST env req w s))
     = fst (checkRateLimit (clientKey req) (limiter_now w) (rateBuckets s)).
Proof.
  unfold POST.
  destruct (negb (present (hfToken env)) || negb (present (TOGETHER_API_KEY env)));
    [left; reflexivity|].
  destruct (readImage req); try (left; reflexivity).
  right. destruct (snd (checkRateLimit _ _ _)); [reflexivity|].
  destruct (cache_lookup _ _ _); [reflexivity|].
  destruct (analyse w _ _ base64Data); reflexivity.
Qed.

Lemma checkRateLimit_frame (key other : string) (now : Z) (buckets : gmap string (list Z)) :
  other <> key ->
  fst (checkRateLimit key now buckets) !! other = buckets !! other.
Proof.
  intros Hne. unfold checkRateLimit.
  destruct (RATE_LIMIT_MAX <=? _)%nat; cbn [fst]; apply lookup_insert_ne; congruence.
Qed.

Lemma checkRateLimit_bounded (key : string) (now : Z) (buckets : gmap string (list Z)) :
  bounded_buckets buckets -> bounded_buckets (fst (checkRateLimit key now buckets)).
Proof.
  intros Hb other bucket. unfold checkRateLimit.
  set (filtered := List.filter _ _).
  assert (Hlen : (length filtered <= RATE_LIMIT_MAX)%nat).
  { subst filtered. etransitivity; [apply List.filter_length_le|].
    destruct (buckets !! key) as [timestamps|] eqn:Hk; simpl.
    - eapply Hb; eassumption.
    - unfold RATE_LIMIT_MAX. lia. }
  destruct (Nat.leb_spec RATE_LIMIT_MAX (length filtered)) as [Hfull|Hroom]; cbn [fst];
    (destruct (decide (other = key)) as [->|Hne];
     [ rewrite lookup_insert_eq; intros [= <-]
     | rewrite lookup_insert_ne by congruence; apply Hb ]).
  - exact Hlen.
  - rewrite length_app. simpl. lia.
Qed.

(** X1.  A request never touches the bucket of another client: whatever the
    handler answers, the timestamps stored under every key other than the
    request's client key are what they were. *)
Theorem request_leaves_other_buckets `{rt : Runtime} (env : Env) (req : Request)
    (w : World) (s : State) (other : string) :
  String.eqb other (clientKey req) = false ->
  rateBuckets (fst (POST env req w s)) !! other = rateBuckets s !! other.
Proof.
  intros Hne. apply String.eqb_neq in Hne.
  destruct (POST_buckets env req w s) as [-> | ->]; [reflexivity|].
  apply checkRateLimit_frame. exact Hne.
Qed.

Lemma request_leaves_other_buckets_witness :
  rateBuckets (fst (@POST sample_runtime sample_env sample_request (degraded_world 7)
                      full_bucket_state)) !! "198.51.100.2"
  = rateBuckets full_bucket_state !! "198.51.100.2".
Proof.
  apply (@request_leaves_other_buckets sample_runtime). reflexivity.
Defined.

(** X2.  The buckets stay bounded: when no bucket holds more than
    [RATE_LIMIT_MAX] timestamps, none does after any sequence of requests,
    whatever the clients, the clock readings and the upstream services. *)
Theorem serve_keeps_buckets_bounded `{rt : Runtime} (env : Env)
    (requests : list (Request * World)) (s : State) :
  bounded_buckets (rateBuckets s) ->
  bounded_buckets (rateBuckets (fst (serve env requests s))).
Proof.
  revert s. induction requests as [|[req w] rest IH]; intros s Hb; [exact Hb|].
  simpl. apply IH.
  destruct (POST_buckets env req w s) as [-> | ->]; [exact Hb|].
  apply checkRateLimit_bounded. exact Hb.
Qed.

Lemma serve_keeps_buckets_bounded_witness :
  bounded_buckets
    (rateBuckets (fst (@serve sample_runtime sample_env seven_requests empty_state))).
Proof.
  apply (@serve_keeps_buckets_bounded sample_runtime).
  intros key bucket Hkey. simpl in Hkey. rewrite lookup_empty in Hkey. discriminate Hkey.
Defined.

(** X3.  A request that passes the credential and image checks is answered
    429 exactly when at least [RATE_LIMIT_MAX] timestamps of its client lie
    strictly inside the window that ends at the limiter's clock reading. *)
Theorem rejection_criterion `{rt : Runtime} (env : Env) (req : Request) (w : World)
    (s : State) (base64Data : string) :
  configured env ->
  readImage req = Payload base64Data ->
  response_status (snd (POST env req w s)) = 429%Z
  <-> (RATE_LIMIT_MAX
       <= length (in_window (limiter_now w) (default [] (rateBuckets s !! clientKey req))))%nat.
Proof.
  intros Hcfg Himg.
  destruct (POST_limiter env req w s base64Data Hcfg Himg) as (_ & Hrej & Hpass).
  destruct (Nat.leb_spec RATE_LIMIT_MAX
              (length (in_window (limiter_now w)
                         (default [] (rateBuckets s !! clientKey req))))) as [Hfull|Hroom].
  - rewrite checkRateLimit_full in Hrej by exact Hfull.
    rewrite (Hrej eq_refl). split; [intros _; exact Hfull|reflexivity].
  - rewrite checkRateLimit_room in Hpass by exact Hroom.
    split; [intros H429; destruct (Hpass eq_refl H429)|lia].
Qed.

Lemma rejection_criterion_witness :
  response_status
    (snd (@POST sample_runtime sample_env sample_request (degraded_world 7) full_bucket_state))
  = 429%Z
  <-> (RATE_LIMIT_MAX
       <= length (in_window (limiter_now (degraded_world 7))
                    (default [] (rateBuckets full_bucket_state !! clientKey sample_request))))%nat.
Proof.
  apply (@rejection_criterion sample_runtime sample_env sample_request (degraded_world 7)
           full_bucket_state "AAAA").
  - split; reflexivity.
  - reflexivity.
Defined.

(** X4.  The limiter forgets: once every timestamp of a client is a full
    window old, its next request passes the limiter and the bucket is
    reset to that request's clock reading alone. *)
Theorem limiter_forgets_expired_requests `{rt : Runtime} (env : Env) (req : Request)
    (w : World) (s : State) (base64Data : string) :
  configured env ->
  readImage req = Payload base64Data ->
  Forall (fun ts => (ts <= limiter_now w - RATE_LIMIT_WINDOW_MS)%Z)
         (default [] (rateBuckets s !! clientKey req)) ->
  rejected (snd (POST env req w s)) = false
  /\ rateBuckets (fst (POST env req w s)) !! clientKey req = Some [limiter_now w].
Proof.
  intros Hcfg Himg Hold.
  assert (Hnone : in_window (limiter_now w) (default [] (rateBuckets s !! clientKey req)) = []).
  { unfold in_window. induction Hold as [|ts rest Hts _ IH]; [reflexivity|].
    simpl. apply Z.ltb_ge in Hts. rewrite Hts. exact IH. }
  destruct (POST_limiter env req w s base64Data Hcfg Himg) as (Hb & _ & Hpass).
  rewrite checkRateLimit_room in Hb, Hpass by (rewrite Hnone; unfold RATE_LIMIT_MAX; simpl; lia).
  rewrite Hnone in Hb. cbn [fst snd app] in Hb, Hpass. split.
  - unfold rejected. apply Z.eqb_neq. apply Hpass. reflexivity.
  - rewrite Hb. apply lookup_insert_eq.
Qed.

Lemma limiter_forgets_expired_requests_witness :
  rejected (snd (@POST sample_runtime sample_env sample_request (degraded_world 70000)
                   full_bucket_state)) = false
  /\ rateBuckets (fst (@POST sample_runtime sample_env sample_request (degraded_world 70000)
                         full_bucket_state)) !! clientKey sample_request
     = Some [limiter_now (degraded_world 70000)].
Proof.
  apply (@limiter_forgets_expired_requests sample_runtime sample_env sample_request
           (degraded_world 70000) full_bucket_state "AAAA").
  - split; reflexivity.
  - reflexivity.
  - vm_compute. repeat constructor; discriminate.
Defined.

(** ** Cache: what is written, and when an entry is too old *)

Lemma analyse_codes `{rt : Runtime} (w : World) (hf tg base64Data : string)
    (payload : AnalysisPayload) :
  analyse w hf tg base64Data = Ok payload ->
  Permutation (recommended_codes payload) MAJOR_CODES.
Proof.
  unfold analyse. intros H.
  apply bind_Ok in H as (detected & _ & H).
  apply bind_Ok in H as (ageInsight & _ & H).
  eapply normalizeResult_codes. exact H.
Qed.

(** X5.  The cache is written in one case only: a request either leaves it
    as it was, or it ran the full pipeline, is answered 200 with that
    payload ([meta.cached] unset), and the payload was inserted under the
    hash of the request's image data with the cache clock reading. *)
Theorem cache_written_only_on_fresh_success `{rt : Runtime} (env : Env) (req : Request)
    (w : World) (s : State) :
  analysisCache (fst (POST env req w s)) = analysisCache s
  \/ exists base64Data payload,
       readImage req = Payload base64Data
       /\ analyse w (default "" (hfToken env)) (default "" (TOGETHER_API_KEY env)) base64Data
          = Ok payload
       /\ snd (POST env req w s) = Analysis payload (iso_now w)
       /\ cached (meta payload) = None
       /\ analysisCache (fst (POST env req w s))
          = <[sha256_hex base64Data := {| timestamp := cache_now w; data := payload |}]>
              (analysisCache s).
Proof.
  unfold POST.
  destruct (negb (present (hfToken env)) || negb (present (TOGETHER_API_KEY env)));
    [left; reflexivity|].
  destruct (readImage req) as [| | |base64Data]; try (left; reflexivity).
  destruct (snd (checkRateLimit _ _ _)); [left; reflexivity|].
  destruct (cache_lookup _ _ _); [left; reflexivity|].
  destruct (analyse w _ _ base64Data) as [payload|] eqn:Hanalyse; [|left; reflexivity].
  right. exists base64Data, payload. cbn [fst snd analysisCache].
  split; [reflexivity|]. split; [exact Hanalyse|]. split; [reflexivity|].
  split; [|reflexivity]. eapply analyse_meta. exact Hanalyse.
Qed.

(** X6.  An entry that is [CACHE_TTL_MS] old or older is not replayed: the
    request runs the full pipeline, is answered with the fresh payload, and
    the entry is replaced by that payload with the new clock reading. *)
Theorem stale_entry_is_recomputed `{rt : Runtime} (env : Env) (req : Request) (w : World)
    (s : State) (base64Data : string) (entry : CacheEntry) (payload : AnalysisPayload) :
  configured env ->
  readImage req = Payload base64Data ->
  snd (checkRateLimit (clientKey req) (limiter_now w) (rateBuckets s)) = false ->
  analysisCache s !! sha256_hex base64Data = Some entry ->
  (CACHE_TTL_MS <= cache_now w - timestamp entry)%Z ->
  analyse w (default "" (hfToken env)) (default "" (TOGETHER_API_KEY env)) base64Data
  = Ok payload ->
  snd (POST env req w s) = Analysis payload (iso_now w)
  /\ cached (meta payload) = None
  /\ analysisCache (fst (POST env req w s)) !! sha256_hex base64Data
     = Some {| timestamp := cache_now w; data := payload |}.
Proof.
  intros Hcfg Himg Hpass Hentry Hstale Hanalyse.
  assert (Hmiss : cache_lookup (analysisCache s) (sha256_hex base64Data) (cache_now w) = None).
  { unfold cache_lookup. rewrite Hentry. apply Z.ltb_ge in Hstale. rewrite Hstale. reflexivity. }
  rewrite (POST_pipeline env req w s base64Data Hcfg Himg Hpass Hmiss), Hanalyse.
  cbn [fst snd analysisCache]. split; [reflexivity|]. split.
  - eapply analyse_meta. exact Hanalyse.
  - apply lookup_insert_eq.
Qed.

Lemma stale_entry_is_recomputed_witness :
  snd (@POST sample_runtime sample_env sample_request (degraded_world 600000) stale_cache_state)
  = Analysis degraded_payload (iso_now (degraded_world 600000))
  /\ cached (meta degraded_payload) = None
  /\ analysisCache
       (fst (@POST sample_runtime sample_env sample_request (degraded_world 600000)
               stale_cache_state)) !! @sha256_hex sample_runtime "AAAA"
     = Some {| timestamp := cache_now (degraded_world 600000); data := degraded_payload |}.
Proof.
  apply (@stale_entry_is_recomputed sample_runtime sample_env sample_request
           (degraded_world 600000) stale_cache_state "AAAA"
           {| timestamp := 0; data := sample_payload |} degraded_payload).
  - split; reflexivity.
  - reflexivity.
  - reflexivity.
  - reflexivity.
  - vm_compute. discriminate.
  - reflexivity.
Defined.

(** X7.  Without both credentials the handler answers 500 with the
    configuration message before it reads the request, and changes
    nothing.  A credential that is set but empty counts as missing, and an
    empty [NEXT_PUBLIC_HF_TOKEN] hides [HF_TOKEN], since [??] only skips
    what is undefined. *)
Theorem unconfigured_handler_answers_500 `{rt : Runtime} (env : Env) (req : Request)
    (w : World) (s : State) :
  NEXT_PUBLIC_HF_TOKEN env = Some ""
  \/ (NEXT_PUBLIC_HF_TOKEN env = None /\ present (HF_TOKEN env) = false)
  \/ present (TOGETHER_API_KEY env) = false ->
  POST env req w s = (s, Message 500 NOT_CONFIGURED).
Proof.
  intros Hmissing. unfold POST, hfToken.
  destruct Hmissing as [-> | [[-> ->] | ->]]; [reflexivity|reflexivity|].
  rewrite orb_true_r. reflexivity.
Qed.

Lemma unconfigured_handler_answers_500_witness :
  @POST sample_runtime masked_env sample_request (degraded_world 7) full_bucket_state
  = (full_bucket_state, Message 500 NOT_CONFIGURED).
Proof.
  apply (@unconfigured_handler_answers_500 sample_runtime masked_env).
  left. reflexivity.
Defined.

Lemma POST_sound `{rt : Runtime} (env : Env) (req : Request) (w : World) (s : State) :
  sound_cache (analysisCache s) ->
  covers_tracks (snd (POST env req w s))
  /\ sound_cache (analysisCache (fst (POST env req w s))).
Proof.
  intros Hsound. unfold POST.
  destruct (negb (present (hfToken env)) || negb (present (TOGETHER_API_KEY env)));
    [split; [exact I|exact Hsound]|].
  destruct (readImage req) as [| | |base64Data]; try (split; [exact I|exact Hsound]).
  destruct (snd (checkRateLimit _ _ _)); [split; [exact I|exact Hsound]|].
  destruct (cache_lookup _ _ _) as [cachedEntry|] eqn:Hhit.
  - split; [|exact Hsound]. cbn [snd covers_tracks].
    unfold cache_lookup in Hhit.
    destruct (analysisCache s !! sha256_hex base64Data) as [entry|] eqn:Hentry;
      [|discriminate Hhit].
    destruct (_ <? _)%Z; [|discriminate Hhit]. injection Hhit as <-.
    exact (Hsound _ _ Hentry).
  - destruct (analyse w _ _ base64Data) as [payload|] eqn:Hanalyse;
      [|split; [exact I|exact Hsound]].
    apply analyse_codes in Hanalyse. split; [exact Hanalyse|].
    cbn [fst analysisCache]. intros imageHash entry.
    destruct (decide (imageHash = sha256_hex base64Data)) as [->|Hne].
    + rewrite lookup_insert_eq. intros [= <-]. exact Hanalyse.
    + rewrite lookup_insert_ne by congruence. apply Hsound.
Qed.

(** X8.  End to end: starting from a cache whose payloads each recommend
    every track once, every 200 answer in any sequence of requests, computed
    or replayed from the cache, names the three tracks once each as the
    primary track and its alternatives, whatever the upstream services
    return. *)
Theorem served_recommendations_cover_tracks `{rt : Runtime} (env : Env)
    (requests : list (Request * World)) (s : State) :
  sound_cache (analysisCache s) ->
  Forall covers_tracks (snd (serve env requests s)).
Proof.
  revert s. induction requests as [|[req w] rest IH]; intros s Hsound; [constructor|].
  destruct (POST_sound env req w s Hsound) as [Hresp Hnext].
  simpl. constructor; [exact Hresp|]. apply IH. exact Hnext.
Qed.

Lemma served_recommendations_cover_tracks_witness :
  Forall covers_tracks
    (snd (@serve sample_runtime sample_env
            [ (sample_request, degraded_world 1000); (sample_request, degraded_world 2000) ]
            stale_cache_state)).
Proof.
  apply (@served_recommendations_cover_tracks sample_runtime).
  intros imageHash entry Hentry. simpl in Hentry.
  apply lookup_singleton_Some in Hentry as [_ <-].
  apply perm_skip. apply Permutation_refl.
Defined.

(** ** The client key *)

Lemma append_cons (c : ascii) (s tail : string) :
  String c s +:+ tail = String c (s +:+ tail).
Proof. reflexivity. Qed.

Lemma append_nil_l (s : string) : "" +:+ s = s.
Proof. reflexivity. Qed.

Lemma append_empty (s : string) : s +:+ "" = s.
Proof.
  induction s as [|c rest IH]; [reflexivity|]. rewrite append_cons, IH. reflexivity.
Qed.

Lemma split_on_head (sep : ascii) (first rest : string) :
  includes_char sep first = false ->
  List.hd "" (split_on sep (first +:+ String sep rest)) = first.
Proof.
  induction first as [|c more IH]; intros Hplain.
  - change ("" +:+ String sep rest) with (String sep rest).
    cbn [split_on]. rewrite Ascii.eqb_refl. reflexivity.
  - cbn [includes_char] in Hplain. apply orb_false_elim in Hplain as [Hc Hmore].
    rewrite append_cons. cbn [split_on]. rewrite Hc. specialize (IH Hmore).
    destruct (split_on sep (more +:+ String sep rest)) as [|seg segs];
      cbn [List.hd] in IH |- *; rewrite IH; reflexivity.
Qed.

(** X9.  Of an [x-forwarded-for] header only the first address counts: when
    the text before the first comma is not blank, the client key is that
    text trimmed, whatever follows and whatever [x-real-ip] says. *)
Theorem clientKey_is_first_forwarded_address (req : Request) (first rest : string) :
  x_forwarded_for req = Some (first +:+ "," +:+ rest) ->
  includes_char "," first = false ->
  trim first <> "" ->
  clientKey req = trim first.
Proof.
  intros Hforwarded Hplain Hsome. unfold clientKey. rewrite Hforwarded.
  change (default "" (Some (first +:+ "," +:+ rest))) with (first +:+ String "," rest).
  cbv zeta. rewrite (split_on_head "," first rest Hplain).
  apply String.eqb_neq in Hsome. rewrite Hsome. reflexivity.
Qed.

Lemma clientKey_is_first_forwarded_address_witness :
  clientKey sample_request = trim "203.0.113.7".
Proof.
  apply (clientKey_is_first_forwarded_address sample_request "203.0.113.7" " 10.0.0.1").
  - reflexivity.
  - reflexivity.
  - vm_compute. discriminate.
Defined.

(** X10.  The client key is never the empty string; without an
    [x-forwarded-for] header it is the [x-real-ip] header when that is not
    empty, and [anonymous] otherwise. *)
Theorem clientKey_never_empty (req : Request) :
  String.eqb (clientKey req) "" = false
  /\ (x_forwarded_for req = None ->
      clientKey req
      = match x_real_ip req with
        | Some (String c ip) => String c ip
        | _ => "anonymous"
        end).
Proof.
  unfold clientKey. split.
  - destruct (String.eqb (trim _) "") eqn:Hfirst; cbn [negb]; [|exact Hfirst].
    destruct (x_real_ip req) as [[|c ip]|]; reflexivity.
  - intros ->. cbn. destruct (x_real_ip req) as [[|c ip]|]; reflexivity.
Qed.

Lemma clientKey_never_empty_witness :
  String.eqb (clientKey direct_request) "" = false
  /\ clientKey direct_request = "anonymous".
Proof.
  split.
  - apply (proj1 (clientKey_never_empty direct_request)).
  - apply (proj2 (clientKey_never_empty direct_request)). reflexivity.
Defined.

(** ** Normalization: whose notes are kept, and what is never left empty *)





Lemma fold_defaults_as_alternatives (codes : list MajorCode)
    (acc : list Alternatif * list MajorCode) :
  fold_left (fun acc code => push_unseen acc (default_alternative code)) codes acc
  = fold_left push_unseen (List.map default_alternative codes) acc.
Proof.
  revert acc. induction codes as [|code rest IH]; intros acc; simpl; [reflexivity|apply IH].
Qed.

Lemma collectAlternatives_Forall (P : Alternatif -> Prop) (utamaKode : MajorCode)
    (alts : list Alternatif) :
  Forall P alts ->
  (forall code, P (default_alternative code)) ->
  Forall P (collectAlternatives utamaKode alts).
Proof.
  intros Halts Hdefaults. unfold collectAlternatives. rewrite fold_defaults_as_alternatives.
  rewrite <- fold_left_app.
  assert (Hall : Forall P (alts ++ List.map default_alternative MAJOR_CODES)).
  { apply Forall_app. split; [exact Halts|]. apply Forall_map.
    apply List.Forall_forall. intros code _. apply Hdefaults. }
  revert Hall. generalize (alts ++ List.map default_alternative MAJOR_CODES).
  assert (Hstart : Forall P (fst (([] : list Alternatif), [utamaKode]))) by constructor.
  revert Hstart. generalize (([] : list Alternatif), [utamaKode]).
  intros acc Hacc l. revert acc Hacc. induction l as [|alt rest IH]; intros acc Hacc Hl; simpl.
  - exact Hacc.
  - apply List.Forall_cons_iff in Hl as [Halt Hrest]. apply IH; [|exact Hrest].
    unfold push_unseen. destruct (seen _ _); [exact Hacc|]. cbn [fst].
    apply Forall_app. split; [exact Hacc|]. constructor; [exact Halt|constructor].
Qed.






(** On [noted_result], whose primary track is DKV: the item with a blank
    note is dropped although it comes first, the item with the code [XYZ]
    is read as RPL, and of the two remaining items for TKJ the earlier one
    is listed. *)
Example noted_result_alternatives :
  map_res alternative_of_item noted_items
  = Ok [ None;
         Some {| alt_kode := RPL; alt_nama := MAJOR_LABELS RPL;
                 catatan := "from the generator" |};
         Some {| alt_kode := TKJ; alt_nama := MAJOR_LABELS TKJ; catatan := "second" |};
         Some {| alt_kode := TKJ; alt_nama := "Jaringan"; catatan := "third" |} ]
  /\ alternatif (rekomendasiJurusan noted_payload)
     = [ {| alt_kode := RPL; alt_nama := MAJOR_LABELS RPL;
            catatan := "from the generator" |};
         {| alt_kode := TKJ; alt_nama := MAJOR_LABELS TKJ; catatan := "second" |} ].
Proof. split; vm_compute; reflexivity. Qed.

Lemma map_res_Forall {A B : Type} (f : A -> res B) (l : list A) (ys : list B) :
  map_res f l = Ok ys ->
  Forall (fun y => exists x, In x l /\ f x = Ok y) ys.
Proof.
  revert ys. induction l as [|x rest IH]; intros ys H; simpl in H.
  - injection H as <-. constructor.
  - apply bind_Ok in H as (y & Hy & H). apply bind_Ok in H as (ys' & Hys & H).
    injection H as <-. constructor.
    + exists x. split; [left; reflexivity|exact Hy].
    + eapply Forall_impl; [exact (IH _ Hys)|].
      intros y' (x' & Hin & Hx'). exists x'. split; [right; exact Hin|exact Hx'].
Qed.

Lemma resolveMajorName_nonempty (code providedName : jsval) (name : string) :
  resolveMajorName code providedName = Ok name -> name <> "".
Proof.
  unfold resolveMajorName. intros H.
  apply bind_Ok in H as (majorCode & _ & H).
  assert (Hlabel : MAJOR_LABELS majorCode <> "") by (destruct majorCode; discriminate).
  destruct (truthy providedName); [|injection H as <-; exact Hlabel].
  apply bind_Ok in H as (trimmed & Htrim & H).
  destruct (String.eqb trimmed "") eqn:Hempty; cbn [negb] in H.
  - injection H as <-. exact Hlabel.
  - rewrite Htrim in H. injection H as <-. apply String.eqb_neq. exact Hempty.
Qed.

Lemma alternative_of_item_nonempty (item : jsval) (alt : Alternatif) :
  alternative_of_item item = Ok (Some alt) -> named_and_noted alt.
Proof.
  unfold alternative_of_item. intros H.
  apply bind_Ok in H as (trimmed & _ & H).
  destruct trimmed as [| | | |note| | |]; try discriminate H.
  destruct (String.eqb note "") eqn:Hnote; [discriminate H|].
  apply bind_Ok in H as (code & _ & H). apply bind_Ok in H as (name & Hname & H).
  injection H as <-. split; cbn [alt_nama catatan].
  - eapply resolveMajorName_nonempty. exact Hname.
  - apply String.eqb_neq. exact Hnote.
Qed.

Lemma sanitizeStringArray_nonempty (items : jsval) (entries : list string) :
  sanitizeStringArray items = Ok entries -> Forall (fun entry => entry <> "") entries.
Proof.
  unfold sanitizeStringArray. intros H.
  apply bind_Ok in H as (receiver & _ & H). apply bind_Ok in H as (trimmed & _ & H).
  injection H as <-. clear. induction trimmed as [|entry rest IH]; [constructor|].
  destruct entry as [| | | |s| | |]; try exact IH.
  simpl. destruct (String.eqb s "") eqn:Hs; [exact IH|].
  constructor; [apply String.eqb_neq; exact Hs|exact IH].
Qed.

(** X12.  Whatever result is normalized, the recommendation comes out
    filled: the primary track has a name, at least one reason and at least
    one supporting habit, no habit is the empty string, and every
    alternative has a name and a note.  (Only [langkahFokus] can stay
    empty: it is defaulted with [??].) *)
Theorem normalized_recommendation_is_filled (aiResult : jsval)
    (insight : ExpressionInsight) (ageInsight : AgeInsight) (metaSource : Source)
    (payload : AnalysisPayload) :
  normalizeResult aiResult insight ageInsight metaSource = Ok payload ->
  nama (utama (rekomendasiJurusan payload)) <> ""
  /\ utama_alasan (utama (rekomendasiJurusan payload)) <> []
  /\ kebiasaanPendukung (utama (rekomendasiJurusan payload)) <> []
  /\ Forall (fun habit => habit <> "") (kebiasaanPendukung (utama (rekomendasiJurusan payload)))
  /\ Forall named_and_noted (alternatif (rekomendasiJurusan payload)).
Proof.
  unfold normalizeResult. intros H.
  apply bind_Ok in H as (result_manifesting & _ & H).
  apply bind_Ok in H as (manifestingKarir & _ & H).
  apply bind_Ok in H as (manifestingMasaDepan & _ & H).
  apply bind_Ok in H as (result_jurusan & _ & H). cbv zeta in H.
  apply bind_Ok in H as (raw_kode & _ & H).
  apply bind_Ok in H as (raw_nama & _ & H).
  apply bind_Ok in H as (utamaKode & _ & H).
  apply bind_Ok in H as (utamaNama & Hnama & H).
  apply bind_Ok in H as (raw_alasan & _ & H).
  apply bind_Ok in H as (from_ai & _ & H).
  apply bind_Ok in H as (alasanJurusan & Halasan & H).
  apply bind_Ok in H as (raw_langkah & _ & H).
  apply bind_Ok in H as (trimmed_langkah & _ & H).
  apply bind_Ok in H as (raw_kebiasaan & _ & H).
  apply bind_Ok in H as (sanitized & Hsanitized & H).
  apply bind_Ok in H as (receiver & _ & H).
  apply bind_Ok in H as (mapped & Hmapped & H).
  apply bind_Ok in H as (summary & _ & H).
  injection H as <-. cbn.
  split; [eapply resolveMajorName_nonempty; exact Hnama|].
  split.
  { destruct from_ai; [|injection Halasan as <-; discriminate].
    destruct utamaKode; vm_compute in Halasan; injection Halasan as <-; discriminate. }
  apply sanitizeStringArray_nonempty in Hsanitized.
  split; [|split].
  - destruct sanitized; [destruct utamaKode|]; discriminate.
  - destruct sanitized; [|exact Hsanitized].
    destruct utamaKode; repeat constructor; discriminate.
  - apply collectAlternatives_Forall.
    + apply map_res_Forall in Hmapped. clear -Hmapped.
      induction Hmapped as [|entry rest (item & _ & Hitem) _ IH]; [constructor|].
      destruct entry as [alt|]; [|exact IH]. simpl.
      constructor; [|exact IH]. eapply alternative_of_item_nonempty. exact Hitem.
    + intros code. split; destruct code; discriminate.
Qed.

Lemma normalized_recommendation_is_filled_witness :
  exists payload,
    normalizeResult partial_result sample_expression sample_age ai = Ok payload
    /\ nama (utama (rekomendasiJurusan payload)) <> ""
    /\ utama_alasan (utama (rekomendasiJurusan payload)) <> []
    /\ kebiasaanPendukung (utama (rekomendasiJurusan payload)) <> []
    /\ Forall (fun habit => habit <> "") (kebiasaanPendukung (utama (rekomendasiJurusan payload)))
    /\ Forall named_and_noted (alternatif (rekomendasiJurusan payload)).
Proof.
  eexists. split; [vm_compute; reflexivity|].
  apply (normalized_recommendation_is_filled partial_result sample_expression sample_age ai).
  vm_compute. reflexivity.
Defined.

(** ** Confidences *)

Lemma num_lt_Finite (x y : Q) : num_lt (Finite x) (Finite y) = true <-> (x < y)%Q.
Proof.
  unfold num_lt. rewrite Qlt_alt. destruct (x ?= y)%Q; split; congruence.
Qed.

Lemma num_lt_Finite_false (x y : Q) : num_lt (Finite x) (Finite y) = false <-> (y <= x)%Q.
Proof.
  rewrite <- not_true_iff_false, num_lt_Finite. split; [apply Qnot_lt_le|apply Qle_not_lt].
Qed.

Lemma num_le_Finite (x y : Q) : num_le (Finite x) (Finite y) = true <-> (x <= y)%Q.
Proof.
  unfold num_le. rewrite negb_true_iff. apply num_lt_Finite_false.
Qed.

Lemma clamp01_unit (n : jsnum) : unit_or_NaN (clamp01 n).
Proof.
  destruct n as [q| | |]; [|right; split; reflexivity ..|left; reflexivity].
  right. unfold clamp01, Math_min, Math_max, of_Z.
  destruct (num_lt (Finite q) (Finite (inject_Z 1))) eqn:H1.
  - destruct (num_lt (Finite (inject_Z 0)) (Finite q)) eqn:H0.
    + apply num_lt_Finite in H1, H0. rewrite !num_le_Finite. split; lra.
    + rewrite !num_le_Finite. split; [lra|]. unfold inject_Z. lra.
  - split; reflexivity.
Qed.

Lemma detectExpression_confidence `{rt : Runtime} (call : FetchOutcome)
    (insight : ExpressionInsight) :
  detectExpression call = Ok insight -> unit_or_NaN (ex_confidence insight).
Proof.
  unfold detectExpression. intros H.
  apply bind_Ok in H as (response & _ & H).
  destruct (negb (response_ok response)).
  - apply bind_Ok in H as (detail & _ & H). injection H as <-.
    right. split; reflexivity.
  - apply bind_Ok in H as (data0 & _ & H).
    destruct data0 as [| | | | |[|first rest]| |];
      try (injection H as <-; right; split; reflexivity).
    apply bind_Ok in H as (sorted & _ & H). cbv zeta in H.
    apply bind_Ok in H as (top_label & _ & H).
    destruct top_label as [| | | |label| | |]; try discriminate H.
    apply bind_Ok in H as (top_score & _ & H).
    apply bind_Ok in H as (narrative & _ & H).
    apply bind_Ok in H as (n & _ & H).
    injection H as <-. apply clamp01_unit.
Qed.

Lemma buildFallbackAgeInsight_confidence `{rt : Runtime}
    (insight : option ExpressionInsight) (ageInsight : AgeInsight) :
  buildFallbackAgeInsight insight = Ok ageInsight ->
  unit_or_NaN (age_confidence ageInsight).
Proof.
  unfold buildFallbackAgeInsight. intros H.
  apply bind_Ok in H as (preset & _ & H). cbv zeta in H.
  injection H as <-. apply clamp01_unit.
Qed.

Lemma detectAge_confidence `{rt : Runtime} (call : FetchOutcome)
    (insight : option ExpressionInsight) (ageInsight : AgeInsight) :
  detectAge call insight = Ok ageInsight -> unit_or_NaN (age_confidence ageInsight).
Proof.
  unfold detectAge, try_catch.
  match goal with |- match ?m with _ => _ end = _ -> _ => destruct m as [built|] eqn:Htry end;
    [|apply buildFallbackAgeInsight_confidence].
  intros [= <-].
  apply bind_Ok in Htry as (response & _ & H).
  destruct (negb (response_ok response)).
  - apply bind_Ok in H as (detail & _ & H).
    eapply buildFallbackAgeInsight_confidence. exact H.
  - apply bind_Ok in H as (raw & _ & H). apply bind_Ok in H as (extracted & _ & H).
    destruct extracted as [candidate|];
      [|eapply buildFallbackAgeInsight_confidence; exact H].
    cbv zeta in H.
    destruct (range_min (parseAgeLabelRange (cand_label candidate))),
             (range_max (parseAgeLabelRange (cand_label candidate))),
             (computeEstimatedAge (parseAgeLabelRange (cand_label candidate))
                (cand_directAge candidate));
      first [ injection H as <-; apply clamp01_unit
            | eapply buildFallbackAgeInsight_confidence; exact H ].
Qed.

Lemma applyConfidenceModifier_cases (confidence : jsnum) (modifier : jsval) :
  applyConfidenceModifier confidence modifier = confidence
  \/ exists n, applyConfidenceModifier confidence modifier = clamp01 n.
Proof.
  unfold applyConfidenceModifier.
  destruct modifier as [| | |[q| | |]| | | |]; cbn [isFinite]; eauto.
Qed.

Lemma normalizeResult_confidence (aiResult : jsval) (insight : ExpressionInsight)
    (ageInsight : AgeInsight) (metaSource : Source) (payload : AnalysisPayload) :
  normalizeResult aiResult insight ageInsight metaSource = Ok payload ->
  baseConfidence (expression payload) = ex_confidence insight
  /\ exists modifier,
       confidence (expression payload)
       = applyConfidenceModifier (ex_confidence insight) modifier.
Proof.
  unfold normalizeResult. intros H. bind_inv H. injection H as <-.
  cbn [expression baseConfidence confidence]. eauto.
Qed.

(** X13.  Every confidence of a computed payload (the classifier's, the
    one adjusted by the generator's modifier, and the age classifier's) lies
    between 0 and 1, or is NaN when a score was no number; it is never
    negative, above 1 or infinite. *)
Theorem analysed_confidences_are_probabilities `{rt : Runtime} (w : World)
    (hf tg base64Data : string) (payload : AnalysisPayload) :
  analyse w hf tg base64Data = Ok payload ->
  unit_or_NaN (baseConfidence (expression payload))
  /\ unit_or_NaN (confidence (expression payload))
  /\ unit_or_NaN (age_confidence (age payload)).
Proof.
  unfold analyse. intros H.
  apply bind_Ok in H as (detected & Hexpression & H).
  apply bind_Ok in H as (ageInsight & Hage & H).
  apply detectExpression_confidence in Hexpression.
  apply detectAge_confidence in Hage.
  pose proof (normalizeResult_recommendation _ _ _ _ _ H) as (_ & -> & _).
  apply normalizeResult_confidence in H as (-> & modifier & ->).
  split; [exact Hexpression|]. split; [|exact Hage].
  destruct (applyConfidenceModifier_cases (ex_confidence detected) modifier) as [-> | [n ->]];
    [exact Hexpression|apply clamp01_unit].
Qed.

Lemma analysed_confidences_are_probabilities_witness :
  unit_or_NaN (baseConfidence (expression degraded_payload))
  /\ unit_or_NaN (confidence (expression degraded_payload))
  /\ unit_or_NaN (age_confidence (age degraded_payload)).
Proof.
  apply (@analysed_confidences_are_probabilities sample_runtime (degraded_world 600000)
           "hf_token" "together_key" "AAAA" degraded_payload).
  reflexivity.
Defined.

(** ** Age labels, estimates and stages *)

Lemma decimal_value_nonneg (s : string) (acc : Z) :
  (0 <= acc)%Z -> (0 <= decimal_value s acc)%Z.
Proof.
  revert acc. induction s as [|c rest IH]; intros acc Hacc; simpl; [exact Hacc|].
  destruct (Ascii.is_nat c); [|exact Hacc]. apply IH. lia.
Qed.

Lemma Number_of_digits_cases (s : string) :
  Number_of_digits s = PosInfinity
  \/ exists z : Z, Number_of_digits s = of_Z z /\ (0 <= z)%Z.
Proof.
  unfold Number_of_digits. cbv zeta. destruct (_ <? _)%Z; [right|left; reflexivity].
  eexists. split; [reflexivity|]. apply decimal_value_nonneg. lia.
Qed.

Lemma finite_numbers (matches : list string) :
  Forall (fun n => exists z : Z, n = of_Z z /\ (0 <= z)%Z)
         (List.filter isFinite (List.map Number_of_digits matches)).
Proof.
  induction matches as [|s rest IH]; simpl; [constructor|].
  destruct (Number_of_digits_cases s) as [-> | (z & -> & Hz)]; cbn [isFinite of_Z];
    [exact IH|].
  constructor; [|exact IH]. exists z. split; [reflexivity|exact Hz].
Qed.

Lemma num_lt_of_Z (a b : Z) : num_lt (of_Z a) (of_Z b) = (a <? b)%Z.
Proof.
  unfold num_lt, of_Z, Qcompare, inject_Z. cbn [Qnum Qden].
  rewrite !Z.mul_1_r. unfold Z.ltb. destruct (a ?= b)%Z; reflexivity.
Qed.

Lemma Math_min_of_Z (a b : Z) : Math_min (of_Z a) (of_Z b) = of_Z (Z.min a b).
Proof.
  change (Math_min (of_Z a) (of_Z b))
    with (if num_lt (of_Z b) (of_Z a) then of_Z b else of_Z a).
  rewrite num_lt_of_Z. destruct (Z.ltb_spec b a); f_equal; lia.
Qed.

Lemma Math_max_of_Z (a b : Z) : Math_max (of_Z a) (of_Z b) = of_Z (Z.max a b).
Proof.
  change (Math_max (of_Z a) (of_Z b))
    with (if num_lt (of_Z a) (of_Z b) then of_Z b else of_Z a).
  rewrite num_lt_of_Z. destruct (Z.ltb_spec a b); f_equal; lia.
Qed.

Lemma parseAgeLabelRange_ordered (label : string) :
  ordered_range (parseAgeLabelRange label).
Proof.
  unfold parseAgeLabelRange, ordered_range.
  destruct (String.eqb label ""); [exact I|].
  destruct (digit_runs label) as [|first_run more] eqn:Hruns.
  - destruct (includes_char "+" label); exact I.
  - pose proof (finite_numbers (first_run :: more)) as Hfinite.
    destruct (List.filter isFinite _) as [|value [|second rest]]; [exact I| |].
    + apply List.Forall_cons_iff in Hfinite as [(a & -> & Ha) _].
      destruct (includes_char "+" label); cbn [range_min range_max].
      * exists a. auto.
      * exists a, a. split; [reflexivity|]. split; [reflexivity|lia].
    + apply List.Forall_cons_iff in Hfinite as [(a & -> & Ha) Hfinite].
      apply List.Forall_cons_iff in Hfinite as [(b & -> & Hb) _].
      cbn [range_min range_max]. rewrite Math_min_of_Z, Math_max_of_Z.
      exists (Z.min a b), (Z.max a b). split; [reflexivity|]. split; [reflexivity|lia].
Qed.

(** X14.  Whatever the label, the parsed range has whole, non-negative
    bounds with the lower one first (the first two numbers of the label are
    put in order), and never an upper bound without a lower one; a label
    without any digit gives no range at all, plus sign or not. *)
Theorem parsed_range_is_ordered (label : string) :
  ordered_range (parseAgeLabelRange label)
  /\ (digit_runs label = [] -> parseAgeLabelRange label = no_range).
Proof.
  split; [apply parseAgeLabelRange_ordered|].
  intros Hnone. unfold parseAgeLabelRange. rewrite Hnone.
  destruct (String.eqb label ""); [reflexivity|].
  destruct (includes_char "+" label); reflexivity.
Qed.

Lemma parsed_range_is_ordered_witness :
  ordered_range (parseAgeLabelRange "n/a+")
  /\ parseAgeLabelRange "n/a+" = no_range.
Proof.
  split.
  - apply (proj1 (parsed_range_is_ordered "n/a+")).
  - apply (proj2 (parsed_range_is_ordered "n/a+")). reflexivity.
Defined.

Lemma finite_result_within (q : Q) :
  (- inject_Z overflow_bound < q)%Q ->
  (q < inject_Z overflow_bound)%Q ->
  finite_result q = Finite q.
Proof.
  unfold finite_result, Qlt, inject_Z. cbn [Qnum Qden Qopp]. intros Hlow Hhigh.
  destruct (Z.leb_spec (Zpos (Qden q) * overflow_bound) (Qnum q)) as [Hover|_]; [lia|].
  destruct (Z.leb_spec (Qnum q) (- (Zpos (Qden q) * overflow_bound))) as [Hunder|_]; [lia|].
  reflexivity.
Qed.

(** Below [2^52] the sum of two whole numbers, its half and the rounding
    of the half are exact in binary64 as well. *)
Lemma midpoint_of_Z (a b : Z) :
  (0 <= a)%Z ->
  (a <= b)%Z ->
  (b <= 2 ^ 52)%Z ->
  exists z : Z,
    Math_round (num_div (num_add (of_Z a) (of_Z b)) (of_Z 2)) = of_Z z
    /\ (a <= z <= b)%Z.
Proof.
  intros Ha Hab Hb.
  assert (Hqa : (0 <= inject_Z a)%Q) by (change 0%Q with (inject_Z 0); rewrite <- Zle_Qle; exact Ha).
  assert (Hq : (inject_Z a <= inject_Z b)%Q) by (rewrite <- Zle_Qle; exact Hab).
  assert (Hqb : (inject_Z b <= inject_Z (2 ^ 52))%Q) by (rewrite <- Zle_Qle; exact Hb).
  assert (Hroom : (inject_Z (2 ^ 52) + inject_Z (2 ^ 52) < inject_Z overflow_bound)%Q).
  { rewrite <- inject_Z_plus, <- Zlt_Qlt. reflexivity. }
  remember (inject_Z overflow_bound) as bound eqn:Hbound.
  remember (inject_Z (2 ^ 52)) as safe eqn:Hsafe.
  assert (Hsum : num_add (of_Z a) (of_Z b) = Finite (inject_Z a + inject_Z b)).
  { apply finite_result_within; rewrite <- Hbound; lra. }
  assert (Hhalf : num_div (Finite (inject_Z a + inject_Z b)) (of_Z 2)
                  = Finite ((inject_Z a + inject_Z b) * (1 # 2))).
  { change (num_div (Finite (inject_Z a + inject_Z b)) (of_Z 2))
      with (finite_result ((inject_Z a + inject_Z b) * (1 # 2))).
    apply finite_result_within; rewrite <- Hbound; lra. }
  rewrite Hsum, Hhalf. eexists. split; [reflexivity|].
  set (x := ((inject_Z a + inject_Z b) * (1 # 2) + (1 # 2))%Q).
  assert (Hx : (inject_Z a <= x /\ x < inject_Z b + 1)%Q) by (subst x; split; lra).
  destruct Hx as [Hlo Hhi]. split.
  - rewrite <- (Qfloor_Z a). apply Qfloor_resp_le. exact Hlo.
  - assert (Hfloor : (inject_Z (Qfloor x) < inject_Z (b + 1))%Q).
    { eapply Qle_lt_trans; [apply Qfloor_le|]. rewrite inject_Z_plus. exact Hhi. }
    rewrite <- Zlt_Qlt in Hfloor. lia.
Qed.

(** X15.  When a label parses to a range with both bounds and the upper
    one is at most [2^52], the estimated age is given and lies between the
    bounds, whatever fallback age is passed.  (Far beyond that, the sum of
    the bounds overflows: see [estimate_overflows].) *)
Theorem estimate_lies_in_parsed_range (label : string) (fallback : option jsnum)
    (lo hi : jsnum) :
  range_min (parseAgeLabelRange label) = Some lo ->
  range_max (parseAgeLabelRange label) = Some hi ->
  num_le hi (of_Z (2 ^ 52)) = true ->
  exists estimated,
    computeEstimatedAge (parseAgeLabelRange label) fallback = Some estimated
    /\ num_le lo estimated = true
    /\ num_le estimated hi = true.
Proof.
  intros Hlo Hhi Hsafe. pose proof (parseAgeLabelRange_ordered label) as Hrange.
  unfold ordered_range, computeEstimatedAge in *. rewrite Hlo, Hhi in *.
  destruct Hrange as (a & b & -> & -> & Ha & Hab).
  unfold of_Z in Hsafe. rewrite num_le_Finite, <- Zle_Qle in Hsafe.
  destruct (midpoint_of_Z a b Ha Hab Hsafe) as (z & -> & Hz).
  exists (of_Z z). split; [reflexivity|].
  unfold of_Z. rewrite !num_le_Finite, <- !Zle_Qle. lia.
Qed.

Lemma estimate_lies_in_parsed_range_witness :
  exists estimated,
    computeEstimatedAge (parseAgeLabelRange "32-25 tahun") None = Some estimated
    /\ num_le (of_Z 25) estimated = true
    /\ num_le estimated (of_Z 32) = true.
Proof.
  apply (estimate_lies_in_parsed_range "32-25 tahun" None (of_Z 25) (of_Z 32));
    reflexivity.
Defined.

(** Without the bound the estimate can leave the range: for the label made
    of 1 and 308 zeros both bounds are that number, their sum overflows and
    the estimate is [Infinity]. *)
Example estimate_overflows :
  range_max (parseAgeLabelRange huge_label) = Some (of_Z (10 ^ 308))
  /\ computeEstimatedAge (parseAgeLabelRange huge_label) None = Some PosInfinity.
Proof. split; vm_compute; reflexivity. Qed.

Lemma find_first {A : Type} (f : A -> bool) (l : list A) (x : A) :
  List.find f l = Some x ->
  exists before after,
    l = before ++ x :: after /\ f x = true /\ Forall (fun y => f y = false) before.
Proof.
  induction l as [|y rest IH]; simpl; [discriminate|].
  destruct (f y) eqn:Hy.
  - intros [= <-]. exists [], rest. split; [reflexivity|]. split; [exact Hy|constructor].
  - intros Hfind. destruct (IH Hfind) as (before & after & -> & Hx & Hbefore).
    exists (y :: before), after. split; [reflexivity|]. split; [exact Hx|].
    constructor; assumption.
Qed.

(** X16.  Every age that is a number falls into a stage of the table: the
    descriptor chosen is the first one whose upper bound is not below the
    age, so the default descriptor is kept for a missing or NaN age only. *)
Theorem age_stage_is_first_fitting_bracket (age : jsnum) :
  isNaN age = false ->
  exists before after,
    AGE_STAGE_DESCRIPTORS = before ++ describeAgeStage (Some age) :: after
    /\ num_le age (stage_max (describeAgeStage (Some age))) = true
    /\ Forall (fun item => num_le age (stage_max item) = false) before.
Proof.
  intros Hnumber. unfold describeAgeStage. rewrite Hnumber.
  destruct (List.find _ AGE_STAGE_DESCRIPTORS) as [descriptor|] eqn:Hfind.
  - apply find_first in Hfind as (before & after & Hsplit & Hfits & Hbefore).
    exists before, after. auto.
  - exfalso. eapply List.find_none in Hfind; [|do 6 right; left; reflexivity].
    cbn [stage_max] in Hfind. destruct age; discriminate.
Qed.

Lemma age_stage_is_first_fitting_bracket_witness :
  exists before after,
    AGE_STAGE_DESCRIPTORS = before ++ describeAgeStage (Some (of_Z 17)) :: after
    /\ num_le (of_Z 17) (stage_max (describeAgeStage (Some (of_Z 17)))) = true
    /\ Forall (fun item => num_le (of_Z 17) (stage_max item) = false) before.
Proof.
  apply (age_stage_is_first_fitting_bracket (of_Z 17)). reflexivity.
Defined.

(** ** The age classifier *)

Lemma try_fallback `{rt : Runtime} (m : res AgeInsight)
    (insight : option ExpressionInsight) :
  m = buildFallbackAgeInsight insight \/ throws m ->
  try_catch m (fun _ => buildFallbackAgeInsight insight)
  = buildFallbackAgeInsight insight.
Proof.
  intros [-> | [e ->]]; [|reflexivity].
  destruct (buildFallbackAgeInsight insight); reflexivity.
Qed.

(** X17.  On every failure of the age endpoint, [detectAge] does exactly
    what [buildFallbackAgeInsight] does for the expression: when the request
    is rejected, on an error status (body readable or not), on a body that
    is not JSON, and when no candidate can be read from the answer. *)
Theorem detectAge_failure_is_fallback `{rt : Runtime}
    (insight : option ExpressionInsight) :
  (forall e, detectAge (Rejected e) insight = buildFallbackAgeInsight insight)
  /\ (forall r,
        response_ok r = false ->
        detectAge (Responded r) insight = buildFallbackAgeInsight insight)
  /\ (forall r,
        response_ok r = true ->
        throws (response_json r) ->
        detectAge (Responded r) insight = buildFallbackAgeInsight insight)
  /\ (forall r raw,
        response_ok r = true ->
        response_json r = Ok raw ->
        extractCandidate raw = Ok None \/ throws (extractCandidate raw) ->
        detectAge (Responded r) insight = buildFallbackAgeInsight insight).
Proof.
  split; [|split; [|split]].
  - intros e. reflexivity.
  - intros r Hok. unfold detectAge. apply try_fallback. cbn [fetch bind].
    rewrite Hok. cbn [negb]. destruct (body_text r); [left|right; eexists]; reflexivity.
  - intros r Hok [e Hjson]. unfold detectAge. apply try_fallback. cbn [fetch bind].
    rewrite Hok. cbn [negb]. rewrite Hjson. right. eexists. reflexivity.
  - intros r raw Hok Hjson Hnone. unfold detectAge. apply try_fallback. cbn [fetch bind].
    rewrite Hok. cbn [negb]. rewrite Hjson. cbn [bind].
    destruct Hnone as [-> | [e ->]]; [left|right; eexists]; reflexivity.
Qed.

Lemma detectAge_failure_is_fallback_witness :
  @detectAge sample_runtime (http 503 "loading") (Some sample_expression)
  = @buildFallbackAgeInsight sample_runtime (Some sample_expression)
  /\ @detectAge sample_runtime (http 200 "not json") (Some sample_expression)
     = @buildFallbackAgeInsight sample_runtime (Some sample_expression)
  /\ @detectAge sample_runtime (http 200 "{}") (Some sample_expression)
     = @buildFallbackAgeInsight sample_runtime (Some sample_expression).
Proof.
  pose proof (@detectAge_failure_is_fallback sample_runtime (Some sample_expression))
    as (_ & Hstatus & Hbody & Hcandidate).
  split; [|split].
  - apply Hstatus. reflexivity.
  - apply Hbody; [reflexivity|]. exists SyntaxError. reflexivity.
  - apply (Hcandidate _ (JObj [])); [reflexivity|reflexivity|]. left. reflexivity.
Defined.

Lemma presets_ordered :
  Forall (fun entry => ordered_range (preset_range (snd entry))) FALLBACK_AGE_PRESETS.
Proof.
  repeat constructor;
    (eexists; eexists; split; [reflexivity|]; split; [reflexivity|]; lia).
Qed.

Lemma assoc_In {A : Type} (k : string) (l : list (string * A)) (a : A) :
  assoc k l = Some a -> In (k, a) l.
Proof.
  induction l as [|[k' a'] rest IH]; simpl; [discriminate|].
  destruct (String.eqb_spec k k') as [->|]; [intros [= ->]; left; reflexivity|].
  intros H. right. apply IH. exact H.
Qed.

Lemma buildFallbackAgeInsight_estimates `{rt : Runtime}
    (insight : option ExpressionInsight) (ageInsight : AgeInsight) :
  buildFallbackAgeInsight insight = Ok ageInsight ->
  ordered_range (age_range ageInsight)
  /\ exists estimated, age_estimated ageInsight = Some estimated.
Proof.
  unfold buildFallbackAgeInsight. intros H.
  apply bind_Ok in H as (preset & Hpreset & H). cbv zeta in H. injection H as <-.
  cbn [age_range age_estimated]. split; [|eauto].
  assert (Hordered : ordered_range (preset_range preset)).
  { unfold record_get in Hpreset.
    destruct (assoc _ FALLBACK_AGE_PRESETS) as [p|] eqn:Hassoc.
    - injection Hpreset as <-. apply assoc_In in Hassoc.
      pose proof presets_ordered as Hall. rewrite List.Forall_forall in Hall.
      exact (Hall _ Hassoc).
    - destruct (existsb _ _); [discriminate Hpreset|]. injection Hpreset as <-.
      exists 16%Z, 19%Z. split; [reflexivity|]. split; [reflexivity|lia]. }
  exact Hordered.
Qed.

(** X18.  Every insight [detectAge] returns carries an estimated age and a
    range with whole, ordered, non-negative bounds, whether it was read from
    the classifier's answer or taken from a preset: an answer from which
    neither a range nor an age can be read is replaced by the preset. *)
Theorem detectAge_always_estimates `{rt : Runtime} (call : FetchOutcome)
    (insight : option ExpressionInsight) (ageInsight : AgeInsight) :
  detectAge call insight = Ok ageInsight ->
  ordered_range (age_range ageInsight)
  /\ exists estimated, age_estimated ageInsight = Some estimated.
Proof.
  unfold detectAge, try_catch.
  match goal with |- match ?m with _ => _ end = _ -> _ => destruct m as [built|] eqn:Htry end;
    [|apply buildFallbackAgeInsight_estimates].
  intros [= <-].
  apply bind_Ok in Htry as (response & _ & H).
  destruct (negb (response_ok response)).
  - apply bind_Ok in H as (detail & _ & H).
    eapply buildFallbackAgeInsight_estimates. exact H.
  - apply bind_Ok in H as (raw & _ & H). apply bind_Ok in H as (extracted & _ & H).
    destruct extracted as [candidate|];
      [|eapply buildFallbackAgeInsight_estimates; exact H].
    cbv zeta in H.
    pose proof (parseAgeLabelRange_ordered (cand_label candidate)) as Hordered.
    unfold computeEstimatedAge in H.
    destruct (range_min (parseAgeLabelRange (cand_label candidate))) as [lo|] eqn:Hlo,
             (range_max (parseAgeLabelRange (cand_label candidate))) as [hi|] eqn:Hhi.
    + injection H as <-. cbn [age_range age_estimated]. split; [exact Hordered|eauto].
    + injection H as <-. cbn [age_range age_estimated]. split; [exact Hordered|eauto].
    + unfold ordered_range in Hordered. rewrite Hlo, Hhi in Hordered. contradiction.
    + destruct (cand_directAge candidate) as [direct|];
        [destruct (isFinite direct)|];
        first [ injection H as <-; cbn [age_range age_estimated];
                split; [exact Hordered|eauto]
              | eapply buildFallbackAgeInsight_estimates; exact H ].
Qed.

Lemma detectAge_always_estimates_witness :
  ordered_range (age_range degraded_age)
  /\ exists estimated, age_estimated degraded_age = Some estimated.
Proof.
  apply (@detectAge_always_estimates sample_runtime (http 503 "loading")
           (Some degraded_expression) degraded_age).
  reflexivity.
Defined.

(** ** The expression classifier *)

Lemma classifier_entry_fields (item : jsval) :
  classifier_entry item = true ->
  nullish item = false
  /\ get_opt item "label" = JStr (label_of item)
  /\ get_opt item "score" = JNum (Finite (score_of item)).
Proof.
  unfold classifier_entry, label_of, score_of. intros H.
  apply andb_prop in H as [Hlabel Hscore]. split.
  - destruct item; try reflexivity; discriminate Hlabel.
  - destruct (get_opt item "label"); try discriminate Hlabel.
    destruct (get_opt item "score") as [| | |[q| | |]| | | |]; try discriminate Hscore.
    split; reflexivity.
Qed.

(** Overflow keeps the sign of a difference. *)
Lemma finite_result_negative (q : Q) :
  num_lt (finite_result q) (of_Z 0) = true <-> (q < 0)%Q.
Proof.
  assert (Hbound : (0 < overflow_bound)%Z) by reflexivity.
  unfold finite_result.
  destruct (Z.leb_spec (Zpos (Qden q) * overflow_bound) (Qnum q)) as [Hover|_].
  - split; [discriminate|]. unfold Qlt. cbn [Qnum Qden]. nia.
  - destruct (Z.leb_spec (Qnum q) (- (Zpos (Qden q) * overflow_bound))) as [Hunder|_].
    + split; [|reflexivity]. intros _. unfold Qlt. cbn [Qnum Qden]. nia.
    + apply num_lt_Finite.
Qed.

Lemma finite_result_not_negative (q : Q) :
  num_lt (finite_result q) (of_Z 0) = false <-> (0 <= q)%Q.
Proof.
  rewrite <- not_true_iff_false, finite_result_negative.
  split; [apply Qnot_lt_le|apply Qle_not_lt].
Qed.

Lemma by_score_entries `{rt : Runtime} (a b : jsval) :
  classifier_entry a = true ->
  classifier_entry b = true ->
  by_score a b = Ok (finite_result (score_of b + - score_of a)%Q).
Proof.
  intros Ha Hb.
  apply classifier_entry_fields in Ha as (Hna & _ & Hsa).
  apply classifier_entry_fields in Hb as (Hnb & _ & Hsb).
  unfold by_score. rewrite (get_defined b "score" Hnb), (get_defined a "score" Hna).
  rewrite Hsa, Hsb. reflexivity.
Qed.

Lemma In_cons_flip {A : Type} (x item : A) (l : list A) :
  In item (x :: l) <-> item = x \/ In item l.
Proof. simpl. split; (intros [H|H]; [left; congruence|right; exact H]). Qed.

Lemma insert_sorted_entries `{rt : Runtime} (x : jsval) (sorted : list jsval) :
  classifier_entry x = true ->
  Forall (fun item => classifier_entry item = true) sorted ->
  exists result,
    insert_sorted by_score x sorted = Ok result
    /\ Forall (fun item => classifier_entry item = true) result
    /\ (forall item, In item result <-> item = x \/ In item sorted)
    /\ (top_first sorted -> top_first result).
Proof.
  intros Hx. induction 1 as [|y rest Hy Hrest IH]; cbn [insert_sorted].
  - exists [x]. split; [reflexivity|]. split; [repeat constructor; exact Hx|].
    split; [|intros _; constructor]. intros item. apply In_cons_flip.
  - rewrite (by_score_entries x y Hx Hy). cbn [bind].
    destruct (num_lt _ _) eqn:Hlt.
    + exists (x :: y :: rest). split; [reflexivity|].
      split; [repeat constructor; assumption|]. split; [intros item; apply In_cons_flip|].
      cbn [top_first]. intros Htop. apply finite_result_negative in Hlt.
      constructor; [lra|]. eapply Forall_impl; [exact Htop|].
      intros item Hitem. cbv beta in Hitem. lra.
    + destruct IH as (tail & -> & Htail & Hin & _). cbn [bind].
      exists (y :: tail). split; [reflexivity|]. split; [constructor; assumption|].
      split; [intros item; rewrite !In_cons_flip, Hin; tauto|].
      cbn [top_first]. intros Htop. apply finite_result_not_negative in Hlt.
      apply List.Forall_forall. intros item Hitem. apply Hin in Hitem as [-> | Hitem]; [lra|].
      rewrite List.Forall_forall in Htop. apply Htop. exact Hitem.
Qed.

Lemma sort_onto_entries `{rt : Runtime} (items sorted : list jsval) :
  Forall (fun item => classifier_entry item = true) items ->
  Forall (fun item => classifier_entry item = true) sorted ->
  top_first sorted ->
  exists result,
    sort_onto by_score items sorted = Ok result
    /\ Forall (fun item => classifier_entry item = true) result
    /\ (forall item, In item result <-> In item items \/ In item sorted)
    /\ top_first result.
Proof.
  intros Hitems. revert sorted.
  induction Hitems as [|x rest Hx _ IH]; intros sorted Hsorted Htop; cbn [sort_onto].
  - exists sorted. split; [reflexivity|]. split; [exact Hsorted|].
    split; [intros item; cbn [In]; tauto|exact Htop].
  - destruct (insert_sorted_entries x sorted Hx Hsorted) as (s & -> & Hs & Hin & Htop').
    cbn [bind]. destruct (IH s Hs (Htop' Htop)) as (result & -> & Hresult & Hin' & Hfinal).
    exists result. split; [reflexivity|]. split; [exact Hresult|]. split; [|exact Hfinal].
    intros item. rewrite Hin', Hin, In_cons_flip. tauto.
Qed.

(** X19.  When the classifier answers with a non-empty array of entries
    that each carry a label and a finite score, [detectExpression] reports
    an entry of greatest score: its label as it stands, and its score
    clamped to the unit interval as the confidence. *)
Theorem detectExpression_reports_top_entry `{rt : Runtime} (r : HttpResponse)
    (items : list jsval) :
  response_ok r = true ->
  response_json r = Ok (JArr items) ->
  items <> [] ->
  forallb classifier_entry items = true ->
  exists top insight,
    In top items
    /\ Forall (fun item => (score_of item <= score_of top)%Q) items
    /\ detectExpression (Responded r) = Ok insight
    /\ ex_label insight = label_of top
    /\ ex_confidence insight = clamp01 (Finite (score_of top)).
Proof.
  intros Hok Hjson Hsome Hentries.
  rewrite forallb_forall in Hentries. apply List.Forall_forall in Hentries.
  destruct (sort_onto_entries items [] Hentries (List.Forall_nil _) I)
    as (sorted & Hsort & Hsorted & Hin & Htop).
  destruct sorted as [|top others].
  { destruct items as [|first rest]; [congruence|].
    exfalso. apply (proj2 (Hin first)). left. left. reflexivity. }
  assert (Hmember : In top items).
  { destruct (proj1 (Hin top) (or_introl eq_refl)) as [H|[]]. exact H. }
  assert (Hmax : Forall (fun item => (score_of item <= score_of top)%Q) items).
  { apply List.Forall_forall. intros item Hitem.
    destruct (proj2 (Hin item) (or_introl Hitem)) as [<- | Hother]; [lra|].
    cbn [top_first] in Htop. rewrite List.Forall_forall in Htop. apply Htop. exact Hother. }
  exists top.
  apply List.Forall_cons_iff in Hsorted as [Hentry _].
  apply classifier_entry_fields in Hentry as (Hdefined & Hlabel & Hscore).
  unfold detectExpression. cbn [fetch bind]. rewrite Hok. cbn [negb]. rewrite Hjson.
  cbn [bind]. destruct items as [|first rest]; [congruence|].
  unfold sort_by. rewrite Hsort. cbn [bind List.hd].
  rewrite !(get_defined top) by exact Hdefined. rewrite Hlabel, Hscore. cbn [bind js_Number].
  destruct (record_get EXPRESSION_LABELS (toLowerCase (label_of top)));
    cbn [nullish bind];
    (eexists; split; [exact Hmember|]; split; [exact Hmax|];
     split; [reflexivity|split; reflexivity]).
Qed.

Lemma detectExpression_reports_top_entry_witness :
  exists top insight,
    In top two_labels
    /\ Forall (fun item => (score_of item <= score_of top)%Q) two_labels
    /\ @detectExpression ranking_runtime (http 200 body_two_labels) = Ok insight
    /\ ex_label insight = label_of top
    /\ ex_confidence insight = clamp01 (Finite (score_of top)).
Proof.
  apply (@detectExpression_reports_top_entry ranking_runtime
           {| status := 200; body_text := Ok body_two_labels |} two_labels).
  - reflexivity.
  - reflexivity.
  - discriminate.
  - reflexivity.
Defined.

Lemma neutral_is_own :
  record_get FALLBACK_AGE_PRESETS (toLowerCase (ex_label (default_insight (42 # 100))))
  <> Inherited.
Proof. discriminate. Qed.

(** X20.  An outage of the expression classifier does not fail the request:
    when that endpoint answers with an error status whose body can be read,
    a request that reaches the pipeline is answered 200 under the label
    [neutral], whatever the age endpoint and the generator do; the one
    exception is a generator result that is not of the declared shape. *)
Theorem expression_outage_is_survivable `{rt : Runtime} (env : Env) (req : Request)
    (w : World) (s : State) (base64Data : string) (r : HttpResponse) :
  configured env ->
  readImage req = Payload base64Data ->
  snd (checkRateLimit (clientKey req) (limiter_now w) (rateBuckets s)) = false ->
  cache_lookup (analysisCache s) (sha256_hex base64Data) (cache_now w) = None ->
  expression_call w (default "" (hfToken env)) base64Data = Responded r ->
  response_ok r = false ->
  returns (body_text r) ->
  (exists payload,
     snd (POST env req w s) = Analysis payload (iso_now w)
     /\ baseLabel (expression payload) = "neutral")
  \/ exists ageInsight aiResult,
       generateFaceReading (narrative_call w) (default "" (TOGETHER_API_KEY env))
         (default_insight (42 # 100)) (slice_to 64 base64Data) ageInsight = Ok aiResult
       /\ result_shape aiResult = false.
Proof.
  intros Hcfg Himg Hpass Hmiss Hcall Hok [detail Hbody].
  rewrite (POST_pipeline env req w s base64Data Hcfg Himg Hpass Hmiss).
  unfold analyse. rewrite Hcall.
  rewrite (proj1 (detectExpression_defaults r) detail Hok Hbody). cbn [bind].
  destruct (detectAge_returns (age_call w (default "" (hfToken env)) base64Data)
              (default_insight (42 # 100)) neutral_is_own) as [ageInsight ->].
  cbn [bind].
  destruct (generateFaceReading _ _ _ _ ageInsight) as [aiResult|err] eqn:Hgenerated;
    cbn [fst snd].
  - destruct (result_shape aiResult) eqn:Hshape; [left|right; eauto].
    destruct (normalizeResult_returns aiResult (default_insight (42 # 100)) ageInsight ai
                Hshape) as [payload Hpayload].
    rewrite Hpayload. exists payload. split; [reflexivity|].
    unfold normalizeResult in Hpayload. bind_inv Hpayload. injection Hpayload as <-.
    reflexivity.
  - left.
    destruct (fallback_returns (default_insight (42 # 100)) ageInsight fallback)
      as [payload Hpayload].
    rewrite Hpayload. exists payload. split; [reflexivity|].
    unfold normalizeResult in Hpayload. bind_inv Hpayload. injection Hpayload as <-.
    reflexivity.
Qed.

Lemma expression_outage_is_survivable_witness :
  (exists payload,
     snd (@POST sample_runtime sample_env sample_request (degraded_world 1000) empty_state)
     = Analysis payload (iso_now (degraded_world 1000))
     /\ baseLabel (expression payload) = "neutral")
  \/ exists ageInsight aiResult,
       @generateFaceReading sample_runtime (narrative_call (degraded_world 1000))
         (default "" (TOGETHER_API_KEY sample_env))
         (default_insight (42 # 100)) (slice_to 64 "AAAA") ageInsight = Ok aiResult
       /\ result_shape aiResult = false.
Proof.
  apply (@expression_outage_is_survivable sample_runtime sample_env sample_request
           (degraded_world 1000) empty_state "AAAA"
           {| status := 503; body_text := Ok "loading" |}).
  - split; reflexivity.
  - reflexivity.
  - reflexivity.
  - reflexivity.
  - reflexivity.
  - reflexivity.
  - eexists. reflexivity.
Defined.

(** X21.  The earlier variants of [detectExpression] and the current one
    differ in the degraded answer only: they raise alike on a rejected
    request and return the same insight for every non-empty array, while
    on an error status, an empty array or a body that is no array the
    earlier ones answer [unknown] with confidence 0.35 where the current one
    answers its [neutral] default. *)
Theorem variants_differ_only_in_default `{rt : Runtime} :
  (forall e, Legacy.detectExpression (Rejected e) = detectExpression (Rejected e))
  /\ (forall r first rest,
        response_ok r = true ->
        response_json r = Ok (JArr (first :: rest)) ->
        Legacy.detectExpression (Responded r) = detectExpression (Responded r))
  /\ (forall r,
        returns (detectExpression (Responded r)) ->
        response_ok r = false
        \/ (exists data, response_json r = Ok data /\ (isArray data = false \/ data = JArr [])) ->
        Legacy.detectExpression (Responded r) = Ok Legacy.default_insight
        /\ exists confidence,
             detectExpression (Responded r) = Ok (default_insight confidence)).
Proof.
  split; [|split].
  - intros e. reflexivity.
  - intros r first rest Hok Hjson. unfold Legacy.detectExpression, detectExpression.
    cbn [fetch bind]. rewrite Hok. cbn [negb]. rewrite Hjson. reflexivity.
  - intros r [insight Hinsight] Hdegraded.
    unfold Legacy.detectExpression, detectExpression in *. cbn [fetch bind] in *.
    destruct (response_ok r) eqn:Hok; cbn [negb] in *.
    + destruct Hdegraded as [Hdown | (data & Hjson & Hdata)]; [discriminate Hdown|].
      rewrite Hjson. cbn [bind].
      destruct Hdata as [Hnot | ->]; [|split; [reflexivity|eexists; reflexivity]].
      destruct data; try discriminate Hnot; split; try reflexivity; eexists; reflexivity.
    + destruct (body_text r); [|discriminate Hinsight].
      split; [reflexivity|eexists; reflexivity].
Qed.

Lemma variants_differ_only_in_default_witness :
  @Legacy.detectExpression sample_runtime (http 503 "loading") = Ok Legacy.default_insight
  /\ exists confidence,
       @detectExpression sample_runtime (http 503 "loading")
       = Ok (default_insight confidence).
Proof.
  apply (proj2 (proj2 (@variants_differ_only_in_default sample_runtime))
           {| status := 503; body_text := Ok "loading" |}).
  - eexists. reflexivity.
  - left. reflexivity.
Defined.

(** ** What the generator returns *)

(** X22.  [generateFaceReading] returns nothing of its own: a result is
    always the JSON value parsed from the non-empty message content of a
    2xx answer, code fences removed and trimmed, to a request that carries
    the given token, the fixed model name and the system prompt. *)
Theorem generateFaceReading_returns_model_content `{rt : Runtime}
    (call : ChatRequest -> FetchOutcome) (token : string) (insight : ExpressionInsight)
    (imageHint : string) (ageInsight : AgeInsight) (result : jsval) :
  generateFaceReading call token insight imageHint ageInsight = Ok result ->
  exists request r payload text,
    chat_token request = token
    /\ chat_model request = TOGETHER_MODEL
    /\ chat_system request = systemPrompt
    /\ call request = Responded r
    /\ response_ok r = true
    /\ response_json r = Ok payload
    /\ call_trim_opt (message_content payload) = Ok (JStr text)
    /\ text <> ""
    /\ JSON_parse (trim (strip_fences text)) = Some result.
Proof.
  unfold generateFaceReading. intros H.
  apply bind_Ok in H as (affinity & _ & H). cbv zeta in H.
  apply bind_Ok in H as (narrative & _ & H).
  apply bind_Ok in H as (response & Hfetch & H).
  match type of Hfetch with fetch (call ?request) = _ => exists request end.
  exists response.
  destruct (response_ok response) eqn:Hok; cbn [negb] in H.
  - apply bind_Ok in H as (payload & Hjson & H).
    apply bind_Ok in H as (rawText & Htext & H).
    destruct rawText as [| | | |[|c text]| | |]; try discriminate H.
    destruct (JSON_parse _) as [parsed|] eqn:Hparse; [|discriminate H].
    injection H as <-. exists payload, (String c text).
    repeat (split; [reflexivity|]).
    split; [destruct (call _); [discriminate Hfetch|injection Hfetch as <-; reflexivity]|].
    split; [reflexivity|]. split; [exact Hjson|]. split; [exact Htext|].
    split; [discriminate|exact Hparse].
  - apply bind_Ok in H as (message & _ & H). apply bind_Ok in H as (text & _ & H).
    discriminate H.
Qed.

Lemma generateFaceReading_returns_model_content_witness :
  exists request r payload text,
    chat_token request = "together_key"
    /\ chat_model request = TOGETHER_MODEL
    /\ chat_system request = systemPrompt
    /\ http 200 envelope_null = Responded r
    /\ response_ok r = true
    /\ @response_json sample_runtime r = Ok payload
    /\ call_trim_opt (message_content payload) = Ok (JStr text)
    /\ text <> ""
    /\ @JSON_parse sample_runtime (trim (strip_fences text)) = Some JNull.
Proof.
  apply (@generateFaceReading_returns_model_content sample_runtime
           (fun _ => http 200 envelope_null) "together_key" (default_insight (4 # 10))
           (slice_to 64 "AAAA") degraded_age JNull).
  reflexivity.
Defined.

Lemma strip_fences_plain (s tail : string) :
  includes_char "`" s = false ->
  strip_fences_from (s +:+ tail) 0 = s +:+ strip_fences_from tail 0.
Proof.
  induction s as [|c rest IH]; intros Hplain; [reflexivity|].
  cbn [includes_char] in Hplain. apply orb_false_elim in Hplain as [Hc Hrest].
  rewrite append_cons. cbn [strip_fences_from is_prefix].
  rewrite Ascii.eqb_sym, Hc. cbn [andb].
  rewrite (IH Hrest). reflexivity.
Qed.

(** X23.  Removing the code fences leaves a text without backticks as it
    is, and gives it back from between a [json] fence and a closing
    fence. *)
Theorem strip_fences_unwraps_plain_text (s : string) :
  includes_char "`" s = false ->
  strip_fences s = s
  /\ strip_fences (fence +:+ "json" +:+ s +:+ fence) = s.
Proof.
  intros Hplain. unfold strip_fences, fence. split.
  - rewrite <- (append_empty s) at 1.
    rewrite (strip_fences_plain s "" Hplain). cbn [strip_fences_from].
    apply append_empty.
  - rewrite !append_cons, !append_nil_l.
    cbn [strip_fences_from is_prefix Ascii.eqb Bool.eqb andb].
    rewrite (strip_fences_plain s "```" Hplain).
    cbn [strip_fences_from is_prefix Ascii.eqb Bool.eqb andb].
    apply append_empty.
Qed.

Lemma strip_fences_unwraps_plain_text_witness :
  strip_fences "{}" = "{}"
  /\ strip_fences (fence +:+ "json" +:+ "{}" +:+ fence) = "{}".
Proof.
  apply (strip_fences_unwraps_plain_text "{}"). reflexivity.
Defined.

(** ** The page *)

(** X24.  Every label for which the route has a sentence has a mood
    snippet of its own on the page, in any letter case: the page never
    shows the [unknown] snippet for an expression the route knows. *)
Theorem known_labels_have_their_snippet (label : string) :
  In (toLowerCase label) (List.map fst EXPRESSION_LABELS) ->
  exists snippet,
    getMoodSnippet (Some label) = Some snippet
    /\ assoc (toLowerCase label) MOOD_SNIPPETS = Some snippet
    /\ snippet <> mood_unknown.
Proof.
  intros Hknown. unfold getMoodSnippet, record_get.
  destruct label as [|c label]; [cbn in Hknown; intuition discriminate|].
  cbn [List.map fst EXPRESSION_LABELS In] in Hknown.
  repeat (destruct Hknown as [<- | Hknown];
          [eexists; split; [reflexivity|]; split; [reflexivity|discriminate]|]).
  contradiction.
Qed.

Lemma known_labels_have_their_snippet_witness :
  exists snippet,
    getMoodSnippet (Some "Happiness") = Some snippet
    /\ assoc (toLowerCase "Happiness") MOOD_SNIPPETS = Some snippet
    /\ snippet <> mood_unknown.
Proof.
  apply (known_labels_have_their_snippet "Happiness"). vm_compute. tauto.
Defined.

Lemma assoc_app_fresh {A : Type} (k : string) (l : list (string * A)) (a : A) :
  assoc k l = None -> assoc k (l ++ [(k, a)]) = Some a.
Proof.
  induction l as [|[k' a'] rest IH]; simpl.
  - intros _. rewrite String.eqb_refl. reflexivity.
  - destruct (String.eqb k k'); [discriminate|exact IH].
Qed.

Lemma assoc_app_other {A : Type} (k k' : string) (l : list (string * A)) (a : A) :
  k <> k' -> assoc k (l ++ [(k', a)]) = assoc k l.
Proof.
  intros Hne. induction l as [|[k'' a''] rest IH]; simpl.
  - apply String.eqb_neq in Hne. rewrite Hne. reflexivity.
  - destruct (String.eqb k k''); [reflexivity|exact IH].
Qed.

Lemma assoc_app_present {A : Type} (k : string) (l : list (string * A)) (a : A) :
  exists found, assoc k (l ++ [(k, a)]) = Some found.
Proof.
  induction l as [|[k' a'] rest IH]; simpl.
  - rewrite String.eqb_refl. eauto.
  - destruct (String.eqb k k'); [eauto|exact IH].
Qed.

Lemma assoc_filter_other {A : Type} (k dropped : string) (l : list (string * A)) :
  k <> dropped ->
  assoc k (List.filter (fun entry => negb (String.eqb (fst entry) dropped)) l) = assoc k l.
Proof.
  intros Hne. induction l as [|[k' a'] rest IH]; simpl; [reflexivity|].
  destruct (String.eqb_spec k' dropped) as [->|Hk']; cbn [negb].
  - apply String.eqb_neq in Hne. rewrite Hne. exact IH.
  - simpl. destruct (String.eqb k k'); [reflexivity|exact IH].
Qed.

Lemma assoc_filter_dropped {A : Type} (dropped : string) (l : list (string * A)) :
  assoc dropped (List.filter (fun entry => negb (String.eqb (fst entry) dropped)) l) = None.
Proof.
  induction l as [|[k' a'] rest IH]; simpl; [reflexivity|].
  destruct (String.eqb_spec k' dropped) as [->|Hk']; cbn [negb]; [exact IH|].
  simpl. destruct (String.eqb_spec dropped k') as [->|]; [contradiction|exact IH].
Qed.

(** X25.  Upgrading is idempotent: whatever [upgradeLegacyResult] returns
    is a result it returns unchanged, so a stored history can be upgraded
    at every load. *)
Theorem upgradeLegacyResult_is_idempotent (result upgraded : jsval) :
  upgradeLegacyResult result = Ok upgraded ->
  upgradeLegacyResult upgraded = Ok upgraded.
Proof.
  unfold upgradeLegacyResult at 1. intros H.
  apply bind_Ok in H as (current & Hcurrent & H). destruct current.
  - injection H as <-. unfold upgradeLegacyResult. rewrite Hcurrent. reflexivity.
  - cbv zeta in H. injection H as <-. unfold upgradeLegacyResult. cbn [has_property bind].
    match goal with
    | |- context [assoc ?k (?l ++ [(?k, ?a)])] =>
        destruct (assoc_app_present k l a) as [found ->]
    end.
    reflexivity.
Qed.

Lemma upgradeLegacyResult_is_idempotent_witness :
  exists upgraded,
    upgradeLegacyResult legacy_result = Ok upgraded
    /\ upgradeLegacyResult upgraded = Ok upgraded.
Proof.
  eexists. split; [reflexivity|].
  apply (upgradeLegacyResult_is_idempotent legacy_result). reflexivity.
Defined.

(** X26.  A stored result without [rekomendasiJurusan] is upgraded to one
    that has it: every other field is kept except [rekomendasiSekolah], no
    alternative is listed, and the primary track is TKJ for the school type
    SMK or a missing school recommendation and RPL for every other type,
    never DKV. *)
Theorem upgradeLegacyResult_maps_school_to_track (fields : list (string * jsval)) :
  assoc "rekomendasiJurusan" fields = None ->
  exists upgraded code,
    upgradeLegacyResult (JObj fields) = Ok upgraded
    /\ (forall k,
          String.eqb k "rekomendasiSekolah" || String.eqb k "rekomendasiJurusan" = false ->
          get_opt upgraded k = get_opt (JObj fields) k)
    /\ get_opt upgraded "rekomendasiSekolah" = JUndefined
    /\ primary_code upgraded = Ok (JStr (major_key code))
    /\ get_opt (get_opt upgraded "rekomendasiJurusan") "alternatif" = JArr []
    /\ (code = TKJ \/ code = RPL)
    /\ (nullish (get_opt (JObj fields) "rekomendasiSekolah") = true -> code = TKJ)
    /\ (forall tipe,
          get_opt (get_opt (JObj fields) "rekomendasiSekolah") "tipe" = JStr tipe ->
          code = if String.eqb tipe "SMK" then TKJ else RPL).
Proof.
  intros Hlegacy. unfold upgradeLegacyResult. cbn [has_property bind]. rewrite Hlegacy.
  cbv zeta. cbn [own_entries].
  set (sekolah := get_opt (JObj fields) "rekomendasiSekolah").
  set (fallbackLegacy := coalesce sekolah LEGACY_DEFAULT).
  set (mapped := match get_opt fallbackLegacy "tipe" with
                 | JStr tipe => if String.eqb tipe "SMK" then TKJ else RPL
                 | _ => RPL
                 end).
  set (rest := List.filter _ fields).
  assert (Hrest : assoc "rekomendasiJurusan" rest = None).
  { subst rest. rewrite assoc_filter_other by discriminate. exact Hlegacy. }
  eexists. exists mapped. split; [reflexivity|].
  split.
  { intros k Hk. apply orb_false_elim in Hk as [Hs Hj].
    apply String.eqb_neq in Hs, Hj. cbn [get_opt].
    rewrite assoc_app_other by exact Hj. subst rest.
    rewrite assoc_filter_other by exact Hs. reflexivity. }
  split.
  { cbn [get_opt]. rewrite assoc_app_other by discriminate. subst rest.
    rewrite assoc_filter_dropped. reflexivity. }
  split.
  { unfold primary_code. cbn [get bind]. rewrite (assoc_app_fresh _ _ _ Hrest). reflexivity. }
  split.
  { cbn [get_opt]. rewrite (assoc_app_fresh _ _ _ Hrest). reflexivity. }
  split; [|split].
  - subst mapped. destruct (get_opt fallbackLegacy "tipe"); auto.
    destruct (String.eqb _ _); auto.
  - intros Hnull. subst mapped fallbackLegacy. unfold coalesce. rewrite Hnull. reflexivity.
  - intros tipe Htipe. subst mapped fallbackLegacy. unfold coalesce.
    destruct (nullish sekolah) eqn:Hnull.
    + destruct sekolah; try discriminate Hnull; discriminate Htipe.
    + rewrite Htipe. reflexivity.
Qed.

Lemma upgradeLegacyResult_maps_school_to_track_witness :
  exists upgraded code,
    upgradeLegacyResult (JObj legacy_fields) = Ok upgraded
    /\ (forall k,
          String.eqb k "rekomendasiSekolah" || String.eqb k "rekomendasiJurusan" = false ->
          get_opt upgraded k = get_opt (JObj legacy_fields) k)
    /\ get_opt upgraded "rekomendasiSekolah" = JUndefined
    /\ primary_code upgraded = Ok (JStr (major_key code))
    /\ get_opt (get_opt upgraded "rekomendasiJurusan") "alternatif" = JArr []
    /\ (code = TKJ \/ code = RPL)
    /\ (nullish (get_opt (JObj legacy_fields) "rekomendasiSekolah") = true -> code = TKJ)
    /\ (forall tipe,
          get_opt (get_opt (JObj legacy_fields) "rekomendasiSekolah") "tipe" = JStr tipe ->
          code = if String.eqb tipe "SMK" then TKJ else RPL).
Proof.
  apply (upgradeLegacyResult_maps_school_to_track legacy_fields). reflexivity.
Defined.

Lemma NoDup_map_filter {A B : Type} (f : A -> B) (p : A -> bool) (l : list A) :
  List.NoDup (List.map f l) -> List.NoDup (List.map f (List.filter p l)).
Proof.
  induction l as [|x rest IH]; simpl; [intros H; exact H|].
  intros H. apply List.NoDup_cons_iff in H as [Hx Hrest]. destruct (p x); [|auto].
  simpl. apply List.NoDup_cons; [|auto].
  intros Hin. apply Hx. apply List.in_map_iff in Hin as (y & Hy & Hin).
  apply List.in_map_iff. exists y. split; [exact Hy|].
  apply List.filter_In in Hin as [Hin _]. exact Hin.
Qed.

Lemma In_firstn {A : Type} (n : nat) (l : list A) (x : A) :
  In x (List.firstn n l) -> In x l.
Proof.
  revert n. induction l as [|y rest IH]; intros [|n]; simpl; try tauto.
  intros [H|H]; [left; exact H|right; eapply IH; exact H].
Qed.

Lemma NoDup_firstn {A : Type} (n : nat) (l : list A) :
  List.NoDup l -> List.NoDup (List.firstn n l).
Proof.
  revert n. induction l as [|x rest IH]; intros [|n] H; simpl; try constructor.
  - apply List.NoDup_cons_iff in H as [Hx Hrest]. intros Hin. apply Hx.
    eapply In_firstn. exact Hin.
  - apply List.NoDup_cons_iff in H as [Hx Hrest]. apply IH. exact Hrest.
Qed.

(** X27.  The session history stays short and free of repeats: after a new
    entry is recorded it comes first, at most five entries are kept, no two
    of them show the same image when that held before, and nothing is
    listed that was not there or new. *)
Theorem updateHistory_keeps_recent_distinct (entry : SessionEntry)
    (prev : list SessionEntry) :
  List.NoDup (List.map entry_image prev) ->
  List.hd_error (updateHistory entry prev) = Some entry
  /\ (length (updateHistory entry prev) <= 5)%nat
  /\ List.NoDup (List.map entry_image (updateHistory entry prev))
  /\ (forall item, In item (updateHistory entry prev) -> item = entry \/ In item prev).
Proof.
  intros Hdistinct. unfold updateHistory. cbv zeta.
  set (withoutDuplicate := List.filter _ prev).
  split; [reflexivity|]. split; [apply List.firstn_le_length|]. split.
  - rewrite <- List.firstn_map. apply NoDup_firstn. cbn [List.map].
    apply List.NoDup_cons.
    + intros Hin. apply List.in_map_iff in Hin as (item & Himage & Hin).
      subst withoutDuplicate. apply List.filter_In in Hin as [_ Hkept].
      rewrite Himage, String.eqb_refl in Hkept. discriminate Hkept.
    + subst withoutDuplicate. apply NoDup_map_filter. exact Hdistinct.
  - intros item Hin. apply In_firstn in Hin. destruct Hin as [<- | Hin]; [auto|].
    right. subst withoutDuplicate. apply List.filter_In in Hin as [Hin _]. exact Hin.
Qed.

Lemma updateHistory_keeps_recent_distinct_witness :
  List.hd_error (updateHistory (session "c") five_sessions) = Some (session "c")
  /\ (length (updateHistory (session "c") five_sessions) <= 5)%nat
  /\ List.NoDup (List.map entry_image (updateHistory (session "c") five_sessions))
  /\ (forall item,
        In item (updateHistory (session "c") five_sessions) ->
        item = session "c" \/ In item five_sessions).
Proof.
  apply (updateHistory_keeps_recent_distinct (session "c") five_sessions).
  cbn [List.map five_sessions session entry_image].
  repeat (apply List.NoDup_cons; [cbn [In]; intuition discriminate|]). apply List.NoDup_nil.
Defined.
